(** * annotate.py: the annotation pipeline and the margin renderer

    A shallow embedding of [src/annotate.py] (the PDF annotator served by
    Flask and backed by an Ollama model) and the properties of its
    specification that concern the server side:

    - [_repair_json]: the fallback chain that recovers JSON from model text;
    - [_clean]: the validator of repaired records;
    - [_call_ollama]: the completion call with its fallback records;
    - [annotate.generate]: the per-page event stream;
    - [build_pdf] and [_render_pdf]: grouping by page and the margin layout.

    Conventions of the embedding.

    - A Python [str] is a list of code points ([Py.str]); the functions of the
      interpreter the program calls ([str.find], slicing, [str.strip],
      [json.loads], the three regular expressions) are written out below.
    - What depends on tables of the interpreter that are too large to write
      out (Unicode letters, [repr] of strings and floats, [textwrap.wrap])
      is a field of the record [Py.runtime], which the definitions that
      need it take as [rt].
    - Exceptions are values of [exn] carried by [result]; a generator is the
      list of the actions it performs ([trace]).
    - Python floats are the kernel's binary64 floats, with the operations in
      the order the source writes them.
    - Of the PDF library, [page.search_for] may raise; the calls that draw
      ([draw_line], [draw_rect], [finish], [commit], [insert_text]) are
      taken to succeed on the values the program gives them.  What
      [doc.save] writes is the document with the changes made and a file
      identifier that the save draws anew at every call.
    - Limits of the interpreter (recursion depth, the digit limit of [int])
      are not modelled. *)

From Stdlib Require Import ZArith NArith List String Ascii Bool Lia.
From Stdlib Require Import DecimalString Floats.
Import ListNotations.

Set Warnings "-inexact-float,-register-all".
Local Open Scope Z_scope.

(* ================================================================== *)
(** * Python strings and sequences *)
(* ================================================================== *)

Module Py.

(** A character is a Unicode code point. *)
Definition char := N.
Definition str := list char.

Definition ch (a : ascii) : char := N_of_ascii a.
Arguments ch a%_char.

(** The double quote and the line feed, which a literal cannot hold. *)
Definition dquote : char := 34%N.
Definition nl : char := 10%N.

(** [lit] reads an ASCII literal; inside it [~] stands for the double
    quote. *)
Fixpoint lit (s : string) : str :=
  match s with
  | EmptyString => []
  | String a r => (if Ascii.eqb a "~" then dquote else N_of_ascii a) :: lit r
  end.
Arguments lit s%_string.

Definition ch_eqb (a b : char) : bool := N.eqb a b.

Fixpoint str_eqb (a b : str) : bool :=
  match a, b with
  | [], [] => true
  | x :: a', y :: b' => ch_eqb x y && str_eqb a' b'
  | _, _ => false
  end.

Definition len {A} (l : list A) : Z := Z.of_nat (List.length l).

(** [s.startswith(p)], also giving what follows the prefix. *)
Fixpoint strip_prefix (p s : str) : option str :=
  match p, s with
  | [], _ => Some s
  | x :: p', y :: s' => if ch_eqb x y then strip_prefix p' s' else None
  | _ :: _, [] => None
  end.

Definition startswith (p s : str) : bool :=
  match strip_prefix p s with Some _ => true | None => false end.

(** ** Slices: [l[lo:hi]] with either bound optional and possibly negative *)

Definition clamp_index (n i : Z) : Z :=
  if i <? 0 then Z.max (i + n) 0 else Z.min i n.

Definition slice {A} (l : list A) (lo hi : option Z) : list A :=
  let n := len l in
  let a := match lo with Some i => clamp_index n i | None => 0 end in
  let b := match hi with Some i => clamp_index n i | None => n end in
  firstn (Z.to_nat (b - a)) (skipn (Z.to_nat a) l).

(** ** [s.find(c)] and [s.rfind(c)] for a one-character needle *)

Fixpoint find_from (c : char) (s : str) (i : Z) : Z :=
  match s with
  | [] => -1
  | x :: t => if ch_eqb x c then i else find_from c t (i + 1)
  end.

Definition find (c : char) (s : str) : Z := find_from c s 0.

Fixpoint rfind_from (c : char) (s : str) (i last : Z) : Z :=
  match s with
  | [] => last
  | x :: t => rfind_from c t (i + 1) (if ch_eqb x c then i else last)
  end.

Definition rfind (c : char) (s : str) : Z := rfind_from c s 0 (-1).

(** ** [s.strip()] *)

(** [str.isspace] of one character: the 29 code points Python strips. *)
Definition isspace (c : char) : bool :=
  ((9 <=? c) && (c <=? 13) || (28 <=? c) && (c <=? 32)
   || (c =? 133) || (c =? 160) || (c =? 5760)
   || (8192 <=? c) && (c <=? 8202)
   || (c =? 8232) || (c =? 8233) || (c =? 8239) || (c =? 8287)
   || (c =? 12288))%N.

Fixpoint lstrip (s : str) : str :=
  match s with
  | [] => []
  | c :: t => if isspace c then lstrip t else s
  end.

Definition rstrip (s : str) : str := rev (lstrip (rev s)).

Definition strip (s : str) : str := rstrip (lstrip s).

(** ** [s.replace(a, b)] for one-character [a] and [b] *)

Definition replace (a b : char) (s : str) : str :=
  map (fun c => if ch_eqb c a then b else c) s.

(** ** [sep.join(parts)] *)

Fixpoint join (sep : str) (parts : list str) : str :=
  match parts with
  | [] => []
  | [p] => p
  | p :: rest => p ++ sep ++ join sep rest
  end.

(** ** Character classes *)

Definition is_digit (c : char) : bool := (48 <=? c)%N && (c <=? 57)%N.
Definition is_upper (c : char) : bool := (65 <=? c)%N && (c <=? 90)%N.
Definition is_lower (c : char) : bool := (97 <=? c)%N && (c <=? 122)%N.
Definition is_ascii (c : char) : bool := (c <? 128)%N.

(** ** [str(n)] of an integer *)

Definition str_of_Z (z : Z) : str :=
  map N_of_ascii (list_ascii_of_string (NilEmpty.string_of_int (Z.to_int z))).

(** ** The tables of the interpreter *)

Record runtime := {
  (** [str.isalnum] of a code point from 128 on *)
  uni_isalnum : char -> bool;
  (** [str.lower] of a string that holds a code point from 128 on *)
  uni_lower : str -> str;
  (** [repr] of a [str] *)
  repr_str : str -> str;
  (** [repr] of the float a numeral denotes *)
  repr_float : str -> str;
  (** [textwrap.wrap(text, width=w)] *)
  textwrap_wrap : str -> Z -> list str;
  (** the value of a decimal digit from code point 127 on, as [int]
      reads it *)
  uni_decimal : char -> option N;
}.

(** [s.lower()] *)
Definition lower (rt : runtime) (s : str) : str :=
  if forallb is_ascii s
  then map (fun c => if is_upper c then (c + 32)%N else c) s
  else uni_lower rt s.

(** The class [\w] of [re] on [str] patterns: alphanumeric or underscore. *)
Definition is_word (rt : runtime) (c : char) : bool :=
  if is_ascii c
  then is_digit c || is_upper c || is_lower c || ch_eqb c (ch "_")
  else uni_isalnum rt c.

End Py.

(* ================================================================== *)
(** * Python values and [json.loads] *)
(* ================================================================== *)

Import Py.

(** The values [json.loads] builds.  A [dict] keeps its keys in insertion
    order; a float is kept as the numeral it was read from. *)
Inductive pyval :=
| PNone
| PBool (b : bool)
| PInt (z : Z)
| PFloat (numeral : str)
| PStr (s : str)
| PList (items : list pyval)
| PDict (members : list (str * pyval)).

Definition dict := list (str * pyval).

(** [d.get(k)] *)
Fixpoint dict_get (k : str) (d : dict) : option pyval :=
  match d with
  | [] => None
  | (k', v) :: rest => if str_eqb k k' then Some v else dict_get k rest
  end.

(** [d.get(k, default)] *)
Definition dict_get_default (k : str) (default : pyval) (d : dict) : pyval :=
  match dict_get k d with Some v => v | None => default end.

(** [d[k] = v]: a key already present keeps its place. *)
Fixpoint dict_set (k : str) (v : pyval) (d : dict) : dict :=
  match d with
  | [] => [(k, v)]
  | (k', v') :: rest =>
      if str_eqb k k' then (k', v) :: rest else (k', v') :: dict_set k v rest
  end.

Module Json.

Inductive token :=
| TLBracket | TRBracket | TLBrace | TRBrace | TComma | TColon
| TString (s : str)
| TScalar (v : pyval).

(** The four characters the decoder skips between tokens. *)
Definition is_ws (c : char) : bool :=
  ch_eqb c (ch " ") || ch_eqb c 9%N || ch_eqb c 10%N || ch_eqb c 13%N.

Definition hex_digit (c : char) : option N :=
  if is_digit c then Some (c - 48)%N
  else if (97 <=? c)%N && (c <=? 102)%N then Some (c - 87)%N
  else if (65 <=? c)%N && (c <=? 70)%N then Some (c - 55)%N
  else None.

Definition hex4 (a b c d : char) : option N :=
  match hex_digit a, hex_digit b, hex_digit c, hex_digit d with
  | Some x, Some y, Some z, Some w => Some (((x * 16 + y) * 16 + z) * 16 + w)%N
  | _, _, _, _ => None
  end.

Definition is_high_surrogate (u : N) : bool := (55296 <=? u)%N && (u <=? 56319)%N.
Definition is_low_surrogate (u : N) : bool := (56320 <=? u)%N && (u <=? 57343)%N.
Definition join_surrogates (hi lo : N) : N :=
  (65536 + (hi - 55296) * 1024 + (lo - 56320))%N.

(** The character a one-letter escape denotes. *)
Definition simple_escape (e : char) : option char :=
  if ch_eqb e dquote then Some dquote
  else if ch_eqb e (ch "\") then Some (ch "\")
  else if ch_eqb e (ch "/") then Some (ch "/")
  else if ch_eqb e (ch "b") then Some 8%N
  else if ch_eqb e (ch "f") then Some 12%N
  else if ch_eqb e (ch "n") then Some 10%N
  else if ch_eqb e (ch "r") then Some 13%N
  else if ch_eqb e (ch "t") then Some 9%N
  else None.

(** A low surrogate written as an escape at the head of [s]. *)
Definition low_escape (b u a1 a2 a3 a4 : char) : option N :=
  if ch_eqb b (ch "\") && ch_eqb u (ch "u")
  then match hex4 a1 a2 a3 a4 with
       | Some lo => if is_low_surrogate lo then Some lo else None
       | None => None
       end
  else None.

(** The body of a string literal, after its opening quote: the decoded
    text ([acc] holds it reversed) and what follows the closing quote.
    Strict mode: a raw control character ends the parse. *)
Fixpoint scan_string (s : str) (acc : str) : option (str * str) :=
  match s with
  | [] => None
  | c :: t =>
      if ch_eqb c dquote then Some (rev acc, t)
      else if ch_eqb c (ch "\") then
        match t with
        | [] => None
        | e :: t1 =>
            if ch_eqb e (ch "u") then
              match t1 with
              | a1 :: a2 :: a3 :: a4 :: t2 =>
                  match hex4 a1 a2 a3 a4 with
                  | None => None
                  | Some hi =>
                      match t2 with
                      | b :: u :: b1 :: b2 :: b3 :: b4 :: t3 =>
                          match (if is_high_surrogate hi
                                 then low_escape b u b1 b2 b3 b4 else None) with
                          | Some lo => scan_string t3 (join_surrogates hi lo :: acc)
                          | None => scan_string t2 (hi :: acc)
                          end
                      | _ => scan_string t2 (hi :: acc)
                      end
                  end
              | _ => None
              end
            else
              match simple_escape e with
              | Some x => scan_string t1 (x :: acc)
              | None => None
              end
        end
      else if (c <=? 31)%N then None
      else scan_string t (c :: acc)
  end.

(** The longest run of digits at the head of [s], and the rest. *)
Fixpoint span_digits (s : str) : str * str :=
  match s with
  | c :: t => if is_digit c then let (ds, r) := span_digits t in (c :: ds, r)
              else ([], s)
  | [] => ([], [])
  end.

Definition digits_value (ds : str) : Z :=
  fold_left (fun acc c => acc * 10 + Z.of_N (c - 48)) ds 0.

(** An optional minus sign, then a lone zero or a run of digits that does
    not start with zero, at the head of [s]. *)
Definition scan_int (s : str) : option (str * str) :=
  let (sign, s1) := match s with
                    | c :: r => if ch_eqb c (ch "-") then ([c], r) else ([], s)
                    | [] => ([], s)
                    end in
  match s1 with
  | d :: r =>
      if ch_eqb d (ch "0") then Some (sign ++ [d], r)
      else if is_digit d then
        let (ds, r') := span_digits r in Some (sign ++ d :: ds, r')
      else None
  | [] => None
  end.

(** A fraction: a point and at least one digit. *)
Definition scan_frac (s : str) : str * str :=
  match s with
  | p :: d :: r =>
      if ch_eqb p (ch ".") && is_digit d
      then let (ds, r') := span_digits r in (p :: d :: ds, r')
      else ([], s)
  | _ => ([], s)
  end.

(** An exponent: [e] or [E], an optional sign, at least one digit. *)
Definition scan_exp (s : str) : str * str :=
  match s with
  | e :: r =>
      if ch_eqb e (ch "e") || ch_eqb e (ch "E") then
        let (sign, r1) := match r with
                          | c :: r' => if ch_eqb c (ch "+") || ch_eqb c (ch "-")
                                       then ([c], r') else ([], r)
                          | [] => ([], r)
                          end in
        match span_digits r1 with
        | ([], _) => ([], s)
        | (ds, r2) => (e :: sign ++ ds, r2)
        end
      else ([], s)
  | [] => ([], s)
  end.

(** A number: an [int] unless a fraction or an exponent follows. *)
Definition scan_number (s : str) : option (pyval * str) :=
  match scan_int s with
  | None => None
  | Some (ipart, r) =>
      let (frac, r1) := scan_frac r in
      let (exp, r2) := scan_exp r1 in
      match frac, exp with
      | [], [] =>
          Some (PInt (match ipart with
                      | c :: ds => if ch_eqb c (ch "-") then - digits_value ds
                                   else digits_value ipart
                      | [] => 0
                      end), r2)
      | _, _ => Some (PFloat (ipart ++ frac ++ exp), r2)
      end
  end.

Definition keyword (word : str) (v : pyval) (s : str) : option (token * str) :=
  match strip_prefix word s with
  | Some r => Some (TScalar v, r)
  | None => None
  end.

(** The token that starts with [c], and what follows it in [t]. *)
Definition scan_token (c : char) (t : str) : option (token * str) :=
  if ch_eqb c (ch "[") then Some (TLBracket, t)
  else if ch_eqb c (ch "]") then Some (TRBracket, t)
  else if ch_eqb c (ch "{") then Some (TLBrace, t)
  else if ch_eqb c (ch "}") then Some (TRBrace, t)
  else if ch_eqb c (ch ",") then Some (TComma, t)
  else if ch_eqb c (ch ":") then Some (TColon, t)
  else if ch_eqb c dquote then
    match scan_string t [] with
    | Some (s, r) => Some (TString s, r)
    | None => None
    end
  else if ch_eqb c (ch "n") then keyword (lit "ull") PNone t
  else if ch_eqb c (ch "t") then keyword (lit "rue") (PBool true) t
  else if ch_eqb c (ch "f") then keyword (lit "alse") (PBool false) t
  else if ch_eqb c (ch "N") then keyword (lit "aN") (PFloat (lit "NaN")) t
  else if ch_eqb c (ch "I") then keyword (lit "nfinity") (PFloat (lit "Infinity")) t
  else if ch_eqb c (ch "-") && startswith (lit "Infinity") t
  then keyword (lit "Infinity") (PFloat (lit "-Infinity")) t
  else match scan_number (c :: t) with
       | Some (v, r) => Some (TScalar v, r)
       | None => None
       end.

(** The tokens of [s].  [skip] counts the characters of the current token
    still to pass over, so the recursion stays on the text itself. *)
Fixpoint lex (skip : nat) (s : str) : option (list token) :=
  match s with
  | [] => Some []
  | c :: t =>
      match skip with
      | S k => lex k t
      | O =>
          if is_ws c then lex O t
          else match scan_token c t with
               | None => None
               | Some (tok, rest) =>
                   match lex (List.length t - List.length rest) t with
                   | Some toks => Some (tok :: toks)
                   | None => None
                   end
               end
      end
  end.

(** ** The grammar, as a pushdown automaton over the tokens *)

(** A container being read: an array with its items so far (reversed), an
    object waiting for a key, an object waiting for the value of [key]. *)
Inductive frame :=
| FList (items : list pyval)
| FDictKey (members : dict)
| FDictValue (members : dict) (key : str).

Inductive expect :=
| EValue          (** a value must come *)
| EValueOrClose   (** just after an opening bracket *)
| EKeyOrClose     (** just after an opening brace *)
| EKey            (** after a comma inside an object *)
| EColon          (** after a key *)
| ECommaOrClose   (** after a value inside a container *)
| EDone (v : pyval)    (** the document is complete *).

Definition pstate := (list frame * expect)%type.

(** A finished value goes to the enclosing container, or ends the parse. *)
Definition push_value (stack : list frame) (v : pyval) : option pstate :=
  match stack with
  | [] => Some ([], EDone v)
  | FList items :: st => Some (FList (v :: items) :: st, ECommaOrClose)
  | FDictValue d k :: st => Some (FDictKey (dict_set k v d) :: st, ECommaOrClose)
  | FDictKey _ :: _ => None
  end.

Definition wants_value (e : expect) : bool :=
  match e with EValue | EValueOrClose => true | _ => false end.

Definition step (st : pstate) (tok : token) : option pstate :=
  let (stack, e) := st in
  match tok with
  | TScalar v => if wants_value e then push_value stack v else None
  | TString s =>
      match e, stack with
      | (EKeyOrClose | EKey), FDictKey d :: rest => Some (FDictValue d s :: rest, EColon)
      | (EValue | EValueOrClose), _ => push_value stack (PStr s)
      | _, _ => None
      end
  | TLBracket => if wants_value e then Some (FList [] :: stack, EValueOrClose) else None
  | TLBrace => if wants_value e then Some (FDictKey [] :: stack, EKeyOrClose) else None
  | TRBracket =>
      match e, stack with
      | (EValueOrClose | ECommaOrClose), FList items :: rest =>
          push_value rest (PList (rev items))
      | _, _ => None
      end
  | TRBrace =>
      match e, stack with
      | (EKeyOrClose | ECommaOrClose), FDictKey d :: rest => push_value rest (PDict d)
      | _, _ => None
      end
  | TComma =>
      match e, stack with
      | ECommaOrClose, FList _ :: _ => Some (stack, EValue)
      | ECommaOrClose, FDictKey _ :: _ => Some (stack, EKey)
      | _, _ => None
      end
  | TColon =>
      match e with
      | EColon => Some (stack, EValue)
      | _ => None
      end
  end.

Fixpoint run (st : pstate) (toks : list token) : option pyval :=
  match toks with
  | [] => match st with (_, EDone v) => Some v | _ => None end
  | tok :: rest =>
      match step st tok with
      | Some st' => run st' rest
      | None => None
      end
  end.

(** [json.loads(s)]: [None] stands for [JSONDecodeError]. *)
Definition loads (s : str) : option pyval :=
  match lex O s with
  | Some toks => run ([], EValue) toks
  | None => None
  end.

End Json.

(* ================================================================== *)
(** * The three regular expressions of [_repair_json] *)
(* ================================================================== *)

Module Re.

Definition backtick : char := 96%N.

(** [re.sub(r"```(?:json)?", "", s)]: every run of three backticks goes,
    together with a [json] that follows it.  [skip] counts the characters
    of the current match still to drop. *)
Fixpoint sub_fence (skip : nat) (s : str) : str :=
  match s with
  | [] => []
  | c :: t =>
      match skip with
      | S k => sub_fence k t
      | O =>
          if startswith [backtick; backtick; backtick] s
          then if startswith (lit "json") (skipn 2 t)
               then sub_fence 6 t
               else sub_fence 2 t
          else c :: sub_fence O t
      end
  end.

Definition before_ok (rt : runtime) (prev : option char) : bool :=
  match prev with
  | Some p => ch_eqb p dquote || is_word rt p
  | None => false
  end.

Definition after_ok (rt : runtime) (next : option char) : bool :=
  match next with
  | Some x => ch_eqb x dquote || is_word rt x || ch_eqb x (ch " ")
  | None => false
  end.

(** [re.sub(r'(?<=["\w])\n(?=["\w ])', ' ', s)]: a line feed becomes a
    space when a quote or word character precedes it and a quote, a word
    character or a space follows.  [prev] is the character before [s]. *)
Fixpoint sub_newline (rt : runtime) (prev : option char) (s : str) : str :=
  match s with
  | [] => []
  | c :: t =>
      (if ch_eqb c nl && before_ok rt prev && after_ok rt (hd_error t)
       then ch " " else c) :: sub_newline rt (Some c) t
  end.

Definition is_brace (c : char) : bool := ch_eqb c (ch "{") || ch_eqb c (ch "}").

(** [re.findall(r'\{[^{}]+\}', s, re.DOTALL)]: the fragments that open
    with a brace, hold at least one character and no brace, and close.
    [cur] is the body read since the last opening brace (reversed), if one
    is open. *)
Fixpoint findall_objects (cur : option str) (s : str) : list str :=
  match s with
  | [] => []
  | c :: t =>
      if ch_eqb c (ch "{") then findall_objects (Some []) t
      else if ch_eqb c (ch "}") then
        match cur with
        | Some (x :: body) =>
            (ch "{" :: rev (x :: body) ++ [ch "}"]) :: findall_objects None t
        | _ => findall_objects None t
        end
      else
        match cur with
        | Some body => findall_objects (Some (c :: body)) t
        | None => findall_objects None t
        end
  end.

End Re.

(* ================================================================== *)
(** * Exceptions *)
(* ================================================================== *)

(** The exception classes the handlers of the program tell apart, each
    with the text [str(e)] gives.  [ValueError] covers its subclass
    [JSONDecodeError]. *)
Inductive exn :=
| ValueError (msg : str)
| ConnectionError (msg : str)
| Timeout (msg : str)
| TypeError (msg : str)
| AttributeError (msg : str)
| RuntimeError (msg : str)
| OtherException (msg : str).

Definition exn_str (e : exn) : str :=
  match e with
  | ValueError m | ConnectionError m | Timeout m | TypeError m
  | AttributeError m | RuntimeError m | OtherException m => m
  end.

Inductive result (A : Type) :=
| Ok (a : A)
| Raise (e : exn).
Arguments Ok {A} a.
Arguments Raise {A} e.

Definition bind {A B} (r : result A) (k : A -> result B) : result B :=
  match r with
  | Ok a => k a
  | Raise e => Raise e
  end.

Notation "x <- r ;; k" := (bind r (fun x => k))
  (at level 61, r at next level, right associativity).

(* ================================================================== *)
(** * Python floats *)
(* ================================================================== *)

Module PyFloat.

Local Open Scope float_scope.

(** [float(n)] of an integer below [2^63] in size, as every length and
    page count of the program is. *)
Definition of_Z (z : Z) : float :=
  if (z <? 0)%Z then - PrimFloat.of_uint63 (Uint63.of_Z (- z))
  else PrimFloat.of_uint63 (Uint63.of_Z z).

(** [int(x)]: truncation toward zero. *)
Definition to_Z (x : float) : result Z :=
  match Prim2SF x with
  | S754_zero _ => Ok 0%Z
  | S754_finite sign m e =>
      let v := if (0 <=? e)%Z then (Z.pos m * 2 ^ e)%Z
               else (Z.pos m / 2 ^ (- e))%Z in
      Ok (if sign then (- v)%Z else v)
  | S754_infinity _ =>
      Raise (OtherException (lit "cannot convert float infinity to integer"))
  | S754_nan => Raise (ValueError (lit "cannot convert float NaN to integer"))
  end.

(** [a > b], [min(a, b)] *)
Definition gt (a b : float) : bool := b <? a.
Definition min (a b : float) : float := if b <? a then b else a.

End PyFloat.

(* ================================================================== *)
(** * The program *)
(* ================================================================== *)

Section Program.

Variable rt : runtime.

(** ** [_repair_json] *)

(** [for c in candidates: try: return json.loads(c) except ...: pass] *)
Fixpoint first_parse (candidates : list str) : option pyval :=
  match candidates with
  | [] => None
  | c :: rest =>
      match Json.loads c with
      | Some v => Some v
      | None => first_parse rest
      end
  end.

(** The inner loop of strategy 6: the first variant that parses is
    appended, and the loop breaks. *)
Fixpoint parse_variants (variants : list str) (parsed : list pyval) : list pyval :=
  match variants with
  | [] => parsed
  | variant :: rest =>
      match Json.loads variant with
      | Some v => parsed ++ [v]
      | None => parse_variants rest parsed
      end
  end.

(** The outer loop of strategy 6 over the fragments found. *)
Fixpoint parse_objects (objs : list str) (parsed : list pyval) : list pyval :=
  match objs with
  | [] => parsed
  | obj :: rest =>
      let obj := replace nl (ch " ") obj in
      parse_objects rest
        (parse_variants [obj; replace (ch "'") dquote obj] parsed)
  end.

(** [raw[s:e+1] if s != -1 and e > s else raw] *)
Definition array_chunk (raw : str) : str :=
  let s := find (ch "[") raw in
  let e := rfind (ch "]") raw in
  if negb (s =? -1) && (e >? s) then slice raw (Some s) (Some (e + 1)) else raw.

Definition candidates (chunk : str) : list str :=
  [ chunk;
    strip (Re.sub_fence O chunk);
    Re.sub_newline rt None chunk;
    if negb (rfind (ch "}") chunk =? -1)
    then slice chunk None (Some (rfind (ch "}") chunk + 1)) ++ lit "]"
    else chunk ].

Definition repair_failed (raw : str) : exn :=
  ValueError (lit "JSON repair failed. Raw output: "
              ++ repr_str rt (slice raw None (Some 300))).

Definition _repair_json (raw : str) : result pyval :=
  (* Strategy 1 - direct *)
  match Json.loads raw with
  | Some v => Ok v
  | None =>
      (* Extract array bounds *)
      let chunk := array_chunk raw in
      (* Strategies 2-5 on the extracted chunk *)
      match first_parse (candidates chunk) with
      | Some v => Ok v
      | None =>
          (* Strategy 6 - extract individual objects via regex *)
          let parsed := parse_objects (Re.findall_objects None chunk) [] in
          match parsed with
          | _ :: _ => Ok (PList parsed)
          | [] => Raise (repair_failed raw)
          end
      end
  end.

(** ** [_clean] *)

(** [repr(v)] *)
Fixpoint py_repr (v : pyval) : str :=
  match v with
  | PNone => lit "None"
  | PBool true => lit "True"
  | PBool false => lit "False"
  | PInt z => str_of_Z z
  | PFloat numeral => repr_float rt numeral
  | PStr s => repr_str rt s
  | PList items => lit "[" ++ join (lit ", ") (map py_repr items) ++ lit "]"
  | PDict members =>
      lit "{"
      ++ join (lit ", ")
           (map (fun kv => match kv with
                           | (k, x) => repr_str rt k ++ lit ": " ++ py_repr x
                           end) members)
      ++ lit "}"
  end.

(** [str(v)] *)
Definition py_str (v : pyval) : str :=
  match v with
  | PStr s => s
  | _ => py_repr v
  end.

(** An annotation as [_clean] builds it: a dict with exactly these keys. *)
Record annotation := {
  a_type : str;
  a_quote : str;
  a_annotation : str;
  a_themes : list str;
}.

Definition valid : list str :=
  [lit "notation"; lit "definition"; lit "question"; lit "reaction";
   lit "device"; lit "theme"; lit "summary"].

(** [t in valid] *)
Definition in_valid (t : str) : bool := existsb (str_eqb t) valid.

Definition clean_item (item : dict) : annotation :=
  let t := strip (lower rt (py_str (dict_get_default (lit "type") (PStr (lit "notation")) item))) in
  {| a_type := if in_valid t then t else lit "notation";
     a_quote := strip (replace nl (ch " ")
                  (py_str (dict_get_default (lit "quote") (PStr []) item)));
     a_annotation := strip (replace nl (ch " ")
                  (py_str (dict_get_default (lit "annotation") (PStr []) item)));
     a_themes := match dict_get (lit "themes") item with
                 | Some (PList xs) => map py_str xs
                 | _ => []
                 end |}.

Fixpoint _clean (raw_list : list pyval) : list annotation :=
  match raw_list with
  | [] => []
  | item :: rest =>
      match item with
      | PDict d => clean_item d :: _clean rest
      | _ => _clean rest
      end
  end.

(** ** [_call_ollama] *)

(** [type(v).__name__] *)
Definition type_name (v : pyval) : str :=
  match v with
  | PNone => lit "NoneType"
  | PBool _ => lit "bool"
  | PInt _ => lit "int"
  | PFloat _ => lit "float"
  | PStr _ => lit "str"
  | PList _ => lit "list"
  | PDict _ => lit "dict"
  end.

Definition no_attribute (v : pyval) (name : str) : exn :=
  AttributeError (lit "'" ++ type_name v ++ lit "' object has no attribute '"
                  ++ name ++ lit "'").

(** The items [for item in v] visits: the elements of a list, the keys of
    a dict, the characters of a string; anything else is not iterable. *)
Definition py_iter (v : pyval) : result (list pyval) :=
  match v with
  | PList items => Ok items
  | PDict members => Ok (map (fun kv => PStr (fst kv)) members)
  | PStr s => Ok (map (fun c => PStr [c]) s)
  | _ => Raise (TypeError (lit "'" ++ type_name v ++ lit "' object is not iterable"))
  end.

(** [r.json().get("response", "").strip()] on the decoded body of the
    reply. *)
Definition response_text (body : pyval) : result str :=
  match body with
  | PDict d =>
      match dict_get_default (lit "response") (PStr []) d with
      | PStr s => Ok (strip s)
      | v => Raise (no_attribute v (lit "strip"))
      end
  | v => Raise (no_attribute v (lit "get"))
  end.

Definition note (message : str) : annotation :=
  {| a_type := lit "notation"; a_quote := []; a_annotation := message;
     a_themes := [] |}.

(** The [except] clauses of [_call_ollama], in their order; [raw] is the
    variable of that name when the exception is raised. *)
Definition call_handler (raw : str) (e : exn) : result (list annotation) :=
  match e with
  | ValueError _ =>
      let snippet := match raw with
                     | [] => lit "(empty)"
                     | _ => slice raw None (Some 500)
                     end in
      Ok [note (lit "JSON parse failed. Raw: " ++ snippet)]
  | ConnectionError _ =>
      Raise (RuntimeError (lit "Cannot connect to Ollama. Run: ollama serve"))
  | Timeout _ =>
      Raise (RuntimeError (lit "Ollama timed out. Try a faster/smaller model."))
  | ex => Raise (RuntimeError (exn_str ex))
  end.

(** The completion client: what [req_lib.post], [raise_for_status] and
    [r.json()] give for a model and a prompt, either the decoded body or
    the exception one of them raises.  The request goes to
    [OLLAMA_HOST/api/generate] with a timeout of 180 and carries, besides
    the model and the prompt, fixed options only ([stream] off,
    temperature 0.2, [num_predict] 2048). *)
Definition client := str -> str -> result pyval.

Definition _call_ollama (post : client) (model prompt : str)
  : result (list annotation) :=
  match post model prompt with
  | Raise e => call_handler [] e
  | Ok body =>
      match response_text body with
      | Raise e => call_handler [] e
      | Ok raw =>
          match raw with
          | [] => Ok [note (lit "Model returned no output.")]
          | _ =>
              match (v <- _repair_json raw ;;
                     items <- py_iter v ;;
                     Ok (_clean items)) with
              | Raise e => call_handler raw e
              | Ok [] => Ok [note (lit "No annotations produced.")]
              | Ok cleaned => Ok cleaned
              end
          end
      end
  end.

(** ** [_build_prompt] *)

Definition line (s : str) : str := s ++ [nl].

Definition _build_prompt (page_text instructions : str) (page_num : Z) : str :=
  line (lit "You are a literary annotation assistant. Read the page text and produce annotations as JSON.")
  ++ line []
  ++ line (lit "ANNOTATION INSTRUCTIONS:")
  ++ line instructions
  ++ line []
  ++ line (lit "PAGE " ++ str_of_Z page_num ++ lit " TEXT:")
  ++ line page_text
  ++ line []
  ++ line (lit "Return a JSON array. Each item must have EXACTLY these keys:")
  ++ line (lit "  ~type~       : one of: notation, definition, question, reaction, device, theme, summary")
  ++ line (lit "  ~quote~      : a SHORT verbatim phrase from the text (4-8 words). Must appear exactly in text.")
  ++ line (lit "  ~annotation~ : your annotation in 1-3 sentences. No newlines inside.")
  ++ line (lit "  ~themes~     : array like [~love~,~identity~] or []")
  ++ line []
  ++ line (lit "Rules:")
  ++ line (lit "- Produce 3 to 6 annotations per page")
  ++ line (lit "- The quote must be exact words from the text so they can be highlighted on the page")
  ++ line (lit "- No apostrophes inside string values (write out: do not instead of don't)")
  ++ line (lit "- No newlines inside any value")
  ++ line (lit "- Output ONLY the raw JSON array. No markdown. No code fences. No explanation.")
  ++ line []
  ++ line (lit "Example output:")
  ++ line (lit "[{~type~:~definition~,~quote~:~thou art~,~annotation~:~thou art means you are. An archaic second-person form used throughout Shakespeare.~,~themes~:[]},")
  ++ line (lit "{~type~:~theme~,~quote~:~music be the food of love~,~annotation~:~Orsino frames love as a hunger fed by music. This opens the central theme of love as an irresistible appetite.~,~themes~:[~love~,~music~]}]").

(** ** [annotate] and its generator *)

(** What the generator yields: the payload of each [_sse] line, and the
    closing [[DONE]] line. *)
Inductive event :=
| EvProgress (pct : Z) (label : str)
| EvPageStart (page : Z)
| EvAnnotation (page : Z) (data : annotation)
| EvError (message : str)
| EvDone.

(** What a run does, in order: an event it yields, or a request it sends
    to the completion client. *)
Inductive action :=
| Yield (e : event)
| Post (model prompt : str).

Definition trace := list action.

Fixpoint events (t : trace) : list event :=
  match t with
  | [] => []
  | Yield e :: rest => e :: events rest
  | Post _ _ :: rest => events rest
  end.

Definition ellipsis : char := 8230%N.

Definition no_text : annotation :=
  note (lit "No extractable text on this page (may be an image).").

Definition complete_label : str := lit "Annotations complete" ++ [ellipsis].

(** A page of [pdfplumber]: what [page.extract_text()] returns or raises. *)
Definition plumber_page := result (option str).

Section Generate.

(** The completion client, by the number of requests already sent. *)
Variable server : nat -> client.
Variables model instructions : str.
Variables p_start p_end n : Z.

(** [int((i / n) * 92)] *)
Definition progress_pct (i : Z) : result Z :=
  PyFloat.to_Z (PyFloat.of_Z i / PyFloat.of_Z n * 92)%float.

Definition progress_label (pg_num : Z) : str :=
  lit "Annotating page " ++ str_of_Z pg_num ++ lit " of " ++ str_of_Z p_end
  ++ [ellipsis].

(** [for i, page in enumerate(pages): ...] and what follows the loop; an
    exception ends the run in the handler of [generate]. *)
Fixpoint page_loop (i : Z) (calls : nat) (pages : list plumber_page) : trace :=
  match pages with
  | [] => [Yield (EvProgress 93 complete_label); Yield EvDone]
  | page :: rest =>
      let pg_num := p_start + i + 1 in
      match progress_pct i with
      | Raise e => [Yield (EvError (exn_str e))]
      | Ok pct =>
          Yield (EvProgress pct (progress_label pg_num))
          :: Yield (EvPageStart pg_num)
          :: match page with
             | Raise e => [Yield (EvError (exn_str e))]
             | Ok extracted =>
                 let text := strip (match extracted with
                                    | Some t => t
                                    | None => []
                                    end) in
                 match text with
                 | [] =>
                     Yield (EvAnnotation pg_num no_text)
                     :: page_loop (i + 1) calls rest
                 | _ =>
                     let text := if len text >? 4000
                                 then slice text None (Some 4000)
                                      ++ nl :: lit "[truncated]"
                                 else text in
                     let prompt := _build_prompt text instructions pg_num in
                     Post model prompt
                     :: match _call_ollama (server calls) model prompt with
                        | Raise e => [Yield (EvError (exn_str e))]
                        | Ok anns =>
                            map (fun ann => Yield (EvAnnotation pg_num ann)) anns
                            ++ page_loop (i + 1) (S calls) rest
                        end
                 end
             end
      end
  end.

End Generate.

(** [generate()], with the variables it closes over as arguments; [pdf]
    is what [pdfplumber.open] gives or raises. *)
Definition generate (server : nat -> client) (pdf : result (list plumber_page))
    (instructions model : str) (page_from page_to : Z) : trace :=
  match pdf with
  | Raise e => [Yield (EvError (exn_str e))]
  | Ok all_pages =>
      let total := len all_pages in
      let p_start := page_from - 1 in
      let p_end := Z.min page_to total in
      let pages := slice all_pages (Some p_start) (Some p_end) in
      let n := len pages in
      if n =? 0
      then [Yield (EvError (lit "No pages found in that range."))]
      else page_loop server model instructions p_start p_end n 0 O pages
  end.

(** [DEFAULT_MODEL], read from the environment at start. *)
Variable DEFAULT_MODEL : str.

Inductive annotate_response :=
| BadRequest (error : str)
| EventStream (t : trace).

(** [annotate()].  [pdf] is the uploaded file if there is one;
    [page_from] and [page_to] are the integers the form fields give
    ([1] and [9999] when absent or empty). *)
Definition annotate (server : nat -> client)
    (pdf : option (result (list plumber_page)))
    (instructions model : str) (page_from page_to : Z) : annotate_response :=
  match pdf with
  | None => BadRequest (lit "No PDF uploaded")
  | Some f =>
      let instructions := strip instructions in
      let model := match strip model with [] => DEFAULT_MODEL | m => m end in
      let page_from := Z.max 1 page_from in
      match instructions with
      | [] => BadRequest (lit "No instructions provided")
      | _ => EventStream (generate server f instructions model page_from page_to)
      end
  end.

(** ** Annotation type styling *)

Definition rgb := (float * float * float)%type.

Definition _ACCENT : list (str * rgb) :=
  [ (lit "definition", (0.12, 0.75, 0.68));
    (lit "question",   (0.90, 0.65, 0.05));
    (lit "reaction",   (0.58, 0.45, 0.92));
    (lit "device",     (0.18, 0.55, 0.92));
    (lit "theme",      (0.92, 0.45, 0.12));
    (lit "notation",   (0.45, 0.50, 0.58));
    (lit "summary",    (0.18, 0.75, 0.38)) ]%float.

Definition _FILL : list (str * rgb) :=
  [ (lit "definition", (0.88, 1.00, 0.98));
    (lit "question",   (1.00, 0.97, 0.82));
    (lit "reaction",   (0.96, 0.92, 1.00));
    (lit "device",     (0.88, 0.95, 1.00));
    (lit "theme",      (1.00, 0.93, 0.86));
    (lit "notation",   (0.94, 0.94, 0.96));
    (lit "summary",    (0.88, 1.00, 0.93)) ]%float.

Definition _LABEL : list (str * str) :=
  [ (lit "definition", lit "DEF");
    (lit "question",   lit "Q?");
    (lit "reaction",   lit "RXN");
    (lit "device",     lit "LIT");
    (lit "theme",      lit "THM");
    (lit "notation",   lit "NB");
    (lit "summary",    lit "SUM") ].

Fixpoint lookup {A} (k : str) (table : list (str * A)) (default : A) : A :=
  match table with
  | [] => default
  | (k', v) :: rest => if str_eqb k k' then v else lookup k rest default
  end.

(** [table.get(key, default)] for a key of any type: a list or a dict
    cannot be hashed, and only a string can be a key of these tables. *)
Definition table_get {A} (table : list (str * A)) (key : pyval) (default : A)
  : result A :=
  match key with
  | PStr s => Ok (lookup s table default)
  | PList _ | PDict _ =>
      Raise (TypeError (lit "unhashable type: '" ++ type_name key ++ lit "'"))
  | _ => Ok default
  end.

(** ** [_render_pdf] *)

(** [fitz.Point] and [fitz.Rect] *)
Record point := { p_x : float; p_y : float }.
Record rect := { x0 : float; y0 : float; x1 : float; y1 : float }.

(** The keyword arguments given to [Shape.finish]. *)
Record finish := {
  f_fill : option rgb;
  f_color : rgb;
  f_fill_opacity : option float;
  f_stroke_opacity : float;
  f_width : option float;
}.

(** Which block of [_render_pdf] draws a rectangle. *)
Inductive role := Highlight | BoxBackground | AccentBar.

(** One change made to a page: a committed shape, or a run of text (the
    font is always [helv]). *)
Inductive draw_op :=
| DrawLine (p q : point) (f : finish)
| DrawRect (what : role) (r : rect) (f : finish)
| InsertText (p : point) (text : str) (fontsize : float) (color : rgb).

(** A page of [fitz]: its size, and what [page.search_for] finds or
    raises (it raises for a text that cannot be encoded, such as one
    that holds a lone surrogate). *)
Record fitz_page := {
  width : float;
  height : float;
  search_for : str -> result (list rect);
}.

(** [ann.get(key, "").strip()] *)
Definition get_stripped (key : str) (ann : dict) : result str :=
  match dict_get_default key (PStr []) ann with
  | PStr s => Ok (strip s)
  | v => Raise (no_attribute v (lit "strip"))
  end.

(** [ann.get("themes", [])], replaced by [[]] unless it is a list. *)
Definition get_themes (ann : dict) : list pyval :=
  match dict_get (lit "themes") ann with
  | Some (PList l) => l
  | _ => []
  end.

Section Page.

Local Open Scope float_scope.

Variable page : fitz_page.

Definition pw : float := width page.
Definition ph : float := height page.

(** Margin strip: 23% of width, capped at 180pt *)
Definition margin_w : float := PyFloat.min (pw * 0.23) 180.
Definition sep_x : float := pw - margin_w - 2.

Definition separator : draw_op :=
  DrawLine {| p_x := sep_x; p_y := 14 |} {| p_x := sep_x; p_y := ph - 14 |}
    {| f_fill := None; f_color := (0.68, 0.72, 0.80);
       f_fill_opacity := None; f_stroke_opacity := 0.45;
       f_width := Some 0.5 |}.

(** Layout constants *)
Definition BOX_X : float := sep_x + 3.
Definition BOX_W : float := margin_w - 5.
Definition BOX_PAD : float := 4.0.
Definition FS_LBL : float := 5.8.
Definition FS_QT : float := 6.4.
Definition FS_TX : float := 6.9.
Definition LH_QT : float := FS_QT * 1.32.
Definition LH_TX : float := FS_TX * 1.36.
Definition CHARS : result Z :=
  c <- PyFloat.to_Z (BOX_W / (FS_TX * 0.52)) ;; Ok (Z.max c 14).

Definition highlight (fill accent : rgb) (r : rect) : draw_op :=
  DrawRect Highlight r
    {| f_fill := Some fill; f_color := accent; f_fill_opacity := Some 0.32;
       f_stroke_opacity := 0.55; f_width := Some 0.5 |}.

(** The quote lines, each one line height below the last; also the
    height reached. *)
Fixpoint quote_texts (tx ty : float) (lines : list str) : list draw_op * float :=
  match lines with
  | [] => ([], ty)
  | ql :: rest =>
      let (ops, ty') := quote_texts tx (ty + LH_QT) rest in
      (InsertText {| p_x := tx; p_y := ty + FS_QT |} ql FS_QT (0.28, 0.30, 0.40)
       :: ops, ty')
  end.

(** The annotation lines, until one would cross the bottom of the box. *)
Fixpoint body_texts (tx ty bottom : float) (lines : list str) : list draw_op :=
  match lines with
  | [] => []
  | al :: rest =>
      if PyFloat.gt (ty + LH_TX) (bottom - 2) then []
      else InsertText {| p_x := tx; p_y := ty + FS_TX |} al FS_TX (0.08, 0.10, 0.16)
           :: body_texts tx (ty + LH_TX) bottom rest
  end.

(** Wrap to top if overflow *)
Definition place (margin_y box_h : float) : float :=
  if PyFloat.gt (margin_y + box_h) (ph - 12) then 14.0 else margin_y.

(** [page.search_for(quote)] under [if quote and len(quote) >= 5]; no
    search gives no hit. *)
Definition find_hits (quote : str) : result (list rect) :=
  if (5 <=? len quote)%Z then search_for page quote else Ok [].

(** The body of [for ann in anns] once the fields of the annotation are
    read and the quote has been searched for: what it draws, and the
    cursor it leaves. *)
Definition draw_ann (chars : Z) (margin_y : float) (accent fill : rgb)
    (label quote text : str) (themes : list pyval) (hits : list rect)
  : list draw_op * float :=
  (* Highlight quote on page *)
  let highlights :=
    map (highlight fill accent) (slice hits None (Some 5%Z)) in
  (* Wrap text *)
  let ann_lines := textwrap_wrap rt text chars in
  let q_short := if (len quote >? 50)%Z
                 then slice quote None (Some 50%Z) ++ [ellipsis] else quote in
  let quote_lines := match quote with
                     | [] => []
                     | _ => textwrap_wrap rt (dquote :: q_short ++ [dquote]) chars
                     end in
  let theme_str := join (lit "  ")
                     (map (fun t => ch "#" :: py_str t)
                        (slice themes None (Some 4%Z))) in
  let box_h := BOX_PAD * 2
               + FS_LBL + 2.5
               + PyFloat.of_Z (len quote_lines) * LH_QT
               + (match quote_lines with [] => 0 | _ => 2 end)
               + PyFloat.of_Z (len ann_lines) * LH_TX
               + (match theme_str with [] => 0 | _ => 8 end) in
  let margin_y := place margin_y box_h in
  let box := {| x0 := BOX_X; y0 := margin_y;
                x1 := BOX_X + BOX_W; y1 := margin_y + box_h |} in
  let background :=
    DrawRect BoxBackground box
      {| f_fill := Some fill; f_color := accent; f_fill_opacity := Some 0.90;
         f_stroke_opacity := 0.82; f_width := Some 0.65 |} in
  let bar :=
    DrawRect AccentBar
      {| x0 := BOX_X; y0 := margin_y; x1 := BOX_X + 2.8; y1 := margin_y + box_h |}
      {| f_fill := Some accent; f_color := accent; f_fill_opacity := Some 1.0;
         f_stroke_opacity := 0.0; f_width := None |} in
  let tx := BOX_X + 5.0 in
  let ty := margin_y + BOX_PAD in
  let label_text := InsertText {| p_x := tx; p_y := ty + FS_LBL |} label FS_LBL accent in
  let ty := ty + (FS_LBL + 2.5) in
  let quote_ops := quote_texts tx ty quote_lines in
  let ty := match quote_lines with [] => snd quote_ops | _ => snd quote_ops + 2.0 end in
  let body_ops := body_texts tx ty (y1 box) ann_lines in
  let theme_ops :=
    match theme_str with
    | [] => []
    | _ => [InsertText {| p_x := tx; p_y := y1 box - 3.5 |} theme_str 5.0 accent]
    end in
  (highlights ++ background :: bar :: label_text :: fst quote_ops
     ++ body_ops ++ theme_ops,
   y1 box + 3.5).

(** The body of [for ann in anns]: the fields are read first, and a
    field of the wrong type raises; then the quote is searched for. *)
Definition render_ann (chars : Z) (margin_y : float) (ann : dict)
  : result (list draw_op * float) :=
  let atype := dict_get_default (lit "type") (PStr (lit "notation")) ann in
  quote <- get_stripped (lit "quote") ann ;;
  text <- get_stripped (lit "annotation") ann ;;
  let themes := get_themes ann in
  accent <- table_get _ACCENT atype (0.45, 0.50, 0.58) ;;
  fill <- table_get _FILL atype (0.95, 0.95, 0.97) ;;
  label <- table_get _LABEL atype (lit "ANN") ;;
  hits <- find_hits quote ;;
  Ok (draw_ann chars margin_y accent fill label quote text themes hits).

(** [for ann in anns] *)
Fixpoint render_anns (chars : Z) (margin_y : float) (anns : list dict)
  : result (list draw_op) :=
  match anns with
  | [] => Ok []
  | ann :: rest =>
      r <- render_ann chars margin_y ann ;;
      ops <- render_anns chars (snd r) rest ;;
      Ok (fst r ++ ops)
  end.

(** What [_render_pdf] draws on one page for its annotations. *)
Definition render_page (anns : list dict) : result (list draw_op) :=
  chars <- CHARS ;;
  ops <- render_anns chars 14.0 anns ;;
  Ok (separator :: ops).

End Page.

(** The dict [by_page]: the groups in the order their page tags first
    occur.  A tag is an integer, a string or [None]; see [page_key]. *)
Definition by_page := list (pyval * list dict).

(** [page_num - 1] *)
Definition page_index (page_num : pyval) : result Z :=
  match page_num with
  | PInt n => Ok (n - 1)
  | v => Raise (TypeError (lit "unsupported operand type(s) for -: '"
                           ++ type_name v ++ lit "' and 'int'"))
  end.

(** [for page_num, anns in by_page.items()]: the changes made, each with
    the index of its page.  A page outside the document is skipped. *)
Fixpoint render_groups (doc : list fitz_page) (groups : by_page)
  : result (list (Z * draw_op)) :=
  match groups with
  | [] => Ok []
  | (page_num, anns) :: rest =>
      pg_idx <- page_index page_num ;;
      if (pg_idx <? 0) || (pg_idx >=? len doc)
      then render_groups doc rest
      else
        match nth_error doc (Z.to_nat pg_idx) with
        | None => render_groups doc rest
        | Some page =>
            ops <- render_page page anns ;;
            more <- render_groups doc rest ;;
            Ok (map (pair pg_idx) ops ++ more)
        end
  end.

(** What [doc.save] writes: the document with the changes made to its
    pages, and the file identifier of the trailer. *)
Record saved_pdf := {
  changes : list (Z * draw_op);
  trailer_id : N;
}.

(** [_render_pdf(pdf_bytes, by_page)].  [pdf] is what [fitz.open] gives
    for the bytes, or raises; [file_id] is the identifier the save draws
    at this call. *)
Definition _render_pdf (file_id : N) (pdf : result (list fitz_page))
    (groups : by_page) : result saved_pdf :=
  doc <- pdf ;;
  out <- render_groups doc groups ;;
  Ok {| changes := out; trailer_id := file_id |}.

(** ** [build_pdf] *)

(** The key a page tag makes in [by_page].  [True] and [False] are the
    keys [1] and [0]; a list or a dict cannot be hashed.  A float tag is
    left out of the model ([None]): it would need the value of its
    numeral. *)
Definition page_key (pg : pyval) : option (result pyval) :=
  match pg with
  | PInt n => Some (Ok (PInt n))
  | PBool b => Some (Ok (PInt (if b then 1 else 0)))
  | PStr s => Some (Ok (PStr s))
  | PNone => Some (Ok PNone)
  | PList _ | PDict _ =>
      Some (Raise (TypeError (lit "unhashable type: '" ++ type_name pg ++ lit "'")))
  | PFloat _ => None
  end.

Definition key_eqb (a b : pyval) : bool :=
  match a, b with
  | PInt x, PInt y => x =? y
  | PStr s, PStr t => str_eqb s t
  | PNone, PNone => true
  | _, _ => false
  end.

(** [by_page.setdefault(pg, []).append(a)] *)
Fixpoint setdefault_append (pg : pyval) (a : dict) (groups : by_page) : by_page :=
  match groups with
  | [] => [(pg, [a])]
  | (k, anns) :: rest =>
      if key_eqb pg k then (k, anns ++ [a]) :: rest
      else (k, anns) :: setdefault_append pg a rest
  end.

(** [for a in raw_anns: ...]; [None] when a page tag is outside the
    model. *)
Fixpoint group_by_page (raw_anns : list pyval) (groups : by_page)
  : option (result by_page) :=
  match raw_anns with
  | [] => Some (Ok groups)
  | a :: rest =>
      match a with
      | PDict d =>
          match page_key (dict_get_default (lit "page") (PInt 0) d) with
          | None => None
          | Some (Raise e) => Some (Raise e)
          | Some (Ok pg) => group_by_page rest (setdefault_append pg d groups)
          end
      | v => Some (Raise (no_attribute v (lit "get")))
      end
  end.

(** The value of a digit for [int]: an ASCII digit, or a decimal digit
    of another script. *)
Definition digit_value (c : char) : option Z :=
  if is_digit c then Some (Z.of_N (c - 48))
  else if (c <? 127)%N then None
  else option_map Z.of_N (uni_decimal rt c).

(** The digits of an integer literal, with single underscores allowed
    between two digits; [after_digit] tells that the last character
    read was a digit. *)
Fixpoint int_digits (s : str) (acc : Z) (after_digit : bool) : option Z :=
  match s with
  | [] => if after_digit then Some acc else None
  | c :: t =>
      if ch_eqb c (ch "_")
      then if after_digit then int_digits t acc false else None
      else match digit_value c with
           | Some d => int_digits t (acc * 10 + d) true
           | None => None
           end
  end.

(** The white space [int] passes over at both ends: the six of ASCII,
    and the Unicode spaces from code point 127 on. *)
Definition int_space (c : char) : bool :=
  if (c <? 127)%N then (9 <=? c)%N && (c <=? 13)%N || (c =? 32)%N
  else isspace c.

Fixpoint int_lstrip (s : str) : str :=
  match s with
  | [] => []
  | c :: t => if int_space c then int_lstrip t else s
  end.

(** [int(s)] of a string: white space, an optional sign, digits.  The
    text of the error holds the first 200 characters of [repr(s)]. *)
Definition py_int (s : str) : result Z :=
  let body := rev (int_lstrip (rev (int_lstrip s))) in
  let parsed :=
    match body with
    | c :: t =>
        if ch_eqb c (ch "-") then option_map Z.opp (int_digits t 0 false)
        else if ch_eqb c (ch "+") then int_digits t 0 false
        else int_digits body 0 false
    | [] => None
    end in
  match parsed with
  | Some n => Ok n
  | None =>
      Raise (ValueError (lit "invalid literal for int() with base 10: "
                         ++ slice (repr_str rt s) None (Some 200)))
  end.

(** [int(request.form.get(name, default) or default)]: the field is a
    string when the form holds it. *)
Definition form_int (field : option str) (default : Z) : result Z :=
  match field with
  | None | Some [] => Ok default
  | Some s => py_int s
  end.

Inductive build_response :=
| Status400 (body : str)
| Status500 (body : str)
| Unhandled (e : exn)        (** an exception leaves the view *)
| SendFile (out : saved_pdf)
| Unmodelled.

(** [build_pdf()].  [pdf] is the uploaded file if there is one (as
    [fitz.open] reads it), [ann_json], [page_from] and [page_to] the
    form fields [annotations], [page_from] and [page_to] where the form
    holds them, [file_id] the identifier the save draws at this call.
    The name of the download is left out. *)
Definition build_pdf (file_id : N) (pdf : option (result (list fitz_page)))
    (ann_json page_from page_to : option str) : build_response :=
  match pdf with
  | None => Status400 (lit "No PDF")
  | Some pdf_bytes =>
      let ann_json := match ann_json with Some s => s | None => lit "[]" end in
      match form_int page_from 1 with
      | Raise e => Unhandled e
      | Ok from =>
          let page_from := Z.max 1 from in
          match form_int page_to 9999 with
          | Raise e => Unhandled e
          | Ok page_to =>
              match Json.loads ann_json with
              | None => Status400 (lit "Invalid annotations JSON")
              | Some raw_anns =>
                  (* Group by page *)
                  match py_iter raw_anns with
                  | Raise e => Unhandled e
                  | Ok items =>
                      match group_by_page items [] with
                      | None => Unmodelled
                      | Some (Raise e) => Unhandled e
                      | Some (Ok groups) =>
                          match _render_pdf file_id pdf_bytes groups with
                          | Raise e =>
                              Status500 (lit "PDF render error: " ++ exn_str e)
                          | Ok out_bytes => SendFile out_bytes
                          end
                      end
                  end
              end
          end
      end
  end.

End Program.

(** ** A runtime for the examples

    The examples below use ASCII texts only.  On those this runtime agrees
    with the interpreter where the examples consult it: a string without
    quote or backslash is printed between single quotes, a numeral already
    in shortest form is its own [repr], a text that is one word
    shorter than the width wraps to itself, and no digit is read that is
    not an ASCII digit. *)
Definition example_runtime : runtime :=
  {| uni_isalnum := fun _ => false;
     uni_lower := fun s => s;
     repr_str := fun s => lit "'" ++ s ++ lit "'";
     repr_float := fun numeral => numeral;
     textwrap_wrap := fun text _ => match text with [] => [] | _ => [text] end;
     uni_decimal := fun _ => None |}.


(* ================================================================== *)
(** * What the specification speaks of *)
(* ================================================================== *)

(** A record as the specification's data model wants it: a type of the
    closed enumeration, no line feed in the quote or in the annotation.
    That the themes are a list of strings is the type of [a_themes]. *)
Definition well_formed (a : annotation) : Prop :=
  In (a_type a) valid /\ ~ In nl (a_quote a) /\ ~ In nl (a_annotation a).

(** A text that is empty or made of white space only. *)
Definition blank (s : str) : bool := forallb isspace s.


(** An event that does not end a run: a page start, an annotation, the
    progress event of a page. *)
Definition ordinary (e : event) : Prop :=
  match e with
  | EvProgress _ label => label <> complete_label
  | EvPageStart _ | EvAnnotation _ _ => True
  | EvError _ | EvDone => False
  end.

(** The requests sent in a trace. *)
Fixpoint posts (t : trace) : nat :=
  match t with
  | [] => O
  | Post _ _ :: rest => S (posts rest)
  | Yield _ :: rest => posts rest
  end.

(** A connection failure or a timeout of the completion client. *)
Definition connection_or_timeout (e : exn) : bool :=
  match e with
  | ConnectionError _ | Timeout _ => true
  | _ => false
  end.


(** ** The fallback chain of the Response Repairer, in the words of the
    specification *)

(** The position of the first occurrence of a character, and of the last. *)
Fixpoint first_index (c : char) (s : str) : option nat :=
  match s with
  | [] => None
  | x :: t => if ch_eqb x c then Some O else option_map S (first_index c t)
  end.

Fixpoint last_index (c : char) (s : str) : option nat :=
  match s with
  | [] => None
  | x :: t =>
      match last_index c t with
      | Some i => Some (S i)
      | None => if ch_eqb x c then Some O else None
      end
  end.

(** Step 2: the text from the first opening bracket to the last closing
    bracket, when both exist and the first precedes the second. *)
Definition bracketed (raw : str) : option str :=
  match first_index (ch "[") raw, last_index (ch "]") raw with
  | Some s, Some e =>
      if (s <? e)%nat then Some (firstn (e - s + 1) (skipn s raw)) else None
  | _, _ => None
  end.

(** The candidate the later steps work on. *)
Definition candidate (raw : str) : str :=
  match bracketed raw with
  | Some c => c
  | None => raw
  end.

(** Step 5: cut at the last closing brace and append a closing bracket. *)
Definition truncation (c : str) : str :=
  match last_index (ch "}") c with
  | Some i => firstn (S i) c ++ lit "]"
  | None => c
  end.

(** Steps 1 to 5: the texts parsed, in their order. *)
Definition strategies (rt : runtime) (raw : str) : list str :=
  [ raw;
    candidate raw;
    strip (Re.sub_fence O (candidate raw));
    Re.sub_newline rt None (candidate raw);
    truncation (candidate raw) ].

(** Step 6 for one fragment: line feeds flattened, then parsed as it is
    or with single quotes turned into double quotes. *)
Definition fragment_value (obj : str) : option pyval :=
  let flat := replace nl (ch " ") obj in
  match Json.loads flat with
  | Some v => Some v
  | None => Json.loads (replace (ch "'") dquote flat)
  end.

Definition fragments (c : str) : list pyval :=
  flat_map (fun obj => match fragment_value obj with
                       | Some v => [v]
                       | None => []
                       end)
    (Re.findall_objects None c).

(** First success wins. *)
Fixpoint first_success (texts : list str) : option pyval :=
  match texts with
  | [] => None
  | text :: rest =>
      match Json.loads text with
      | Some v => Some v
      | None => first_success rest
      end
  end.

Definition fallback_chain (rt : runtime) (raw : str) : result pyval :=
  match first_success (strategies rt raw) with
  | Some v => Ok v
  | None =>
      match fragments (candidate raw) with
      | [] => Raise (repair_failed rt raw)
      | found => Ok (PList found)
      end
  end.

(** ** The layout *)

(** What the specification asks of a change made to [page]: the
    background of a callout box starts at the top inset or ends at or
    above the bottom inset, 12 units from the bottom of the page; a run
    of text is set in one of the four fixed sizes. *)
Definition placed (page : fitz_page) (op : draw_op) : Prop :=
  match op with
  | DrawRect BoxBackground r _ =>
      y0 r = 14%float \/ PyFloat.gt (y1 r) (height page - 12)%float = false
  | InsertText _ _ fontsize _ => In fontsize [5.8; 6.4; 6.9; 5.0]%float
  | _ => True
  end.

(** The backgrounds of the callout boxes among the changes made to one
    page, in the order they are drawn. *)
Fixpoint backgrounds (ops : list draw_op) : list rect :=
  match ops with
  | [] => []
  | DrawRect BoxBackground r _ :: rest => r :: backgrounds rest
  | _ :: rest => backgrounds rest
  end.

(** The overflow policy, for the boxes of one page in their order, with
    the vertical cursor at [cursor] before the first: a box of height
    [h] that would extend past the bottom inset at the cursor starts at
    the top inset 14, any other starts at the cursor; the cursor then
    moves 3.5 below the box. *)
Fixpoint follows_cursor (page_height cursor : float) (boxes : list rect) : Prop :=
  match boxes with
  | [] => True
  | b :: rest =>
      (exists h,
          y1 b = (y0 b + h)%float
          /\ y0 b = (if PyFloat.gt (cursor + h) (page_height - 12)
                     then 14 else cursor)%float)
      /\ follows_cursor page_height (y1 b + 3.5)%float rest
  end.

(** A page whose top inset, 14, is not below its bottom inset, 12 above
    the bottom edge: a page at least 26 units high. *)
Definition tall_enough (page : fitz_page) : Prop :=
  (14 <=? height page - 12)%float = true.

(** A box whose bottom edge is not above its top edge. *)
Definition upright (box : rect) : Prop := (y0 box <=? y1 box)%float = true.

(** A box whose top is at or above the bottom inset of the page. *)
Definition top_within (page : fitz_page) (box : rect) : Prop :=
  (y0 box <=? height page - 12)%float = true.

(** The backgrounds of the callout boxes, each with the index of its
    page. *)
Definition background_boxes (out : list (Z * draw_op)) : list (Z * rect) :=
  flat_map (fun change => match change with
                          | (idx, DrawRect BoxBackground r _) => [(idx, r)]
                          | _ => []
                          end) out.


(** ** The order of the floats *)

Module FloatOrder.

(** A float that is not a NaN, by sign, exponent and mantissa, so that
    the order of the floats is the order of these triples read from the
    left. *)
Definition key (f : spec_float) : option (Z * Z * Z) :=
  match f with
  | S754_nan => None
  | S754_zero _ => Some (0, 0, 0)
  | S754_infinity false => Some (2, 0, 0)
  | S754_infinity true => Some (-2, 0, 0)
  | S754_finite false m e => Some (1, e, Z.pos m)
  | S754_finite true m e => Some (-1, - e, Z.neg m)
  end.

Definition lex_lt (a b : Z * Z * Z) : Prop :=
  match a, b with
  | (a1, a2, a3), (b1, b2, b3) =>
      a1 < b1 \/ (a1 = b1 /\ (a2 < b2 \/ (a2 = b2 /\ a3 < b3)))
  end.

Definition lex_le (a b : Z * Z * Z) : Prop := lex_lt a b \/ a = b.

(** A float that is no NaN and not below zero: a zero, a positive
    float or the positive infinity. *)
Definition nonneg_sf (f : spec_float) : Prop :=
  match f with
  | S754_zero _ | S754_infinity false | S754_finite false _ _ => True
  | _ => False
  end.

Definition nonneg (x : float) : Prop := (0 <=? x)%float = true.

End FloatOrder.

(** ** The render call *)

(** A response of [build_pdf] without the file identifier of the save:
    what was rendered. *)
Definition rendered (r : build_response) : build_response :=
  match r with
  | SendFile out => SendFile {| changes := changes out; trailer_id := 0 |}
  | other => other
  end.
(* ================================================================== *)
(** * Scenarios *)
(* ================================================================== *)

(** The body of a reply of the completion client that carries [text]. *)
Definition reply (text : str) : result pyval :=
  Ok (PDict [(lit "response", PStr text)]).

Definition thou_art : str :=
  lit "[{~type~:~definition~,~quote~:~Thou art~,~annotation~:~Archaic form of you are.~,~themes~:[]}]".

Definition three_pages : result (list plumber_page) :=
  Ok [Ok (Some (lit "Thou art wise."));
      Ok (Some (lit "Second page."));
      Ok (Some (lit "Third page."))].

(** Scenario D: the client answers for page 1 and is unreachable from
    page 2 on. *)
Definition failing_server : nat -> client :=
  fun calls _ _ =>
    match calls with
    | O => reply thou_art
    | S _ => Raise (ConnectionError (lit "Connection refused"))
    end.

Definition scenario_D : trace :=
  generate example_runtime failing_server three_pages
    (lit "define archaic words") (lit "llama3.2") 1 9999.

(** An array of three records cut in the third by a length limit, and
    its first two records. *)
Definition truncated_reply : str :=
  lit "[{~type~:~definition~,~quote~:~thou art~,~annotation~:~means you are~,~themes~:[]},{~type~:~theme~,~quote~:~food of love~,~annotation~:~love as appetite~,~themes~:[~love~]},{~type~:~question~,~quote~:~play on".

Definition first_record : pyval :=
  PDict [(lit "type", PStr (lit "definition"));
         (lit "quote", PStr (lit "thou art"));
         (lit "annotation", PStr (lit "means you are"));
         (lit "themes", PList [])].

Definition second_record : pyval :=
  PDict [(lit "type", PStr (lit "theme"));
         (lit "quote", PStr (lit "food of love"));
         (lit "annotation", PStr (lit "love as appetite"));
         (lit "themes", PList [PStr (lit "love")])].

(** The same array cut in its second record. *)
Definition truncated_early : str :=
  lit "[{~type~:~definition~,~quote~:~thou art~,~annotation~:~means you are~,~themes~:[]},{~type~:~theme~,~quo".

(** A record as the render call receives it, tagged with page 1. *)
Definition hello_note : dict :=
  [(lit "page", PInt 1); (lit "type", PStr (lit "notation"));
   (lit "quote", PStr []); (lit "annotation", PStr (lit "hello"));
   (lit "themes", PList [])].

(** A page 100 units high, where the third box does not fit below the
    second, and a page 20 units high. *)
Definition low_page : fitz_page :=
  {| width := 612; height := 100; search_for := fun _ => Ok [] |}.

Definition tiny_page : fitz_page :=
  {| width := 612; height := 20; search_for := fun _ => Ok [] |}.

Definition three_notes : by_page := [(PInt 1, [hello_note; hello_note; hello_note])].

(** What [_render_pdf] draws for the three notes on the low page. *)
Definition three_boxes : list (Z * draw_op) :=
  match _render_pdf example_runtime 0 (Ok [low_page]) three_notes with
  | Ok out => changes out
  | Raise _ => []
  end.

(** A list for the validator: a number, a record with a
    type in capitals and a line feed in its quote, a string, a record
    with no type and themes that are not a list. *)
Definition mixed_list : list pyval :=
  [ PInt 1;
    PDict [(lit "type", PStr (lit " THEME "));
           (lit "quote", PStr (lit "food" ++ [nl] ++ lit "of love"));
           (lit "annotation", PInt 7);
           (lit "themes", PList [PStr (lit "love"); PInt 2])];
    PStr (lit "x");
    PDict [(lit "quote", PStr (lit "thou art"));
           (lit "themes", PStr (lit "love"))] ].


(* ================================================================== *)
(** * Further notions used by the properties *)
(* ================================================================== *)

(** The page numbers of the page-start events, in order. *)
Fixpoint page_starts (evs : list event) : list Z :=
  match evs with
  | [] => []
  | EvPageStart pg :: rest => pg :: page_starts rest
  | _ :: rest => page_starts rest
  end.

(** Every annotation event carries the number of the page started last;
    [cur] is that page, if one has been started. *)
Fixpoint follows_start (cur : option Z) (evs : list event) : Prop :=
  match evs with
  | [] => True
  | EvPageStart pg :: rest => follows_start (Some pg) rest
  | EvAnnotation pg _ :: rest => cur = Some pg /\ follows_start cur rest
  | _ :: rest => follows_start cur rest
  end.

(** [count] consecutive integers from [first]. *)
Definition consecutive (first : Z) (count : nat) : list Z :=
  map (fun j => first + Z.of_nat j) (seq 0 count).

(** The text of a page as the prompt receives it: what [generate] makes
    of [page.extract_text()] before it builds the prompt. *)
Definition prompt_text (extracted : option str) : str :=
  let text := strip (match extracted with Some t => t | None => [] end) in
  if len text >? 4000
  then slice text None (Some 4000) ++ nl :: lit "[truncated]"
  else text.

(** The rectangles drawn in one role, in the order they are drawn. *)
Definition role_eqb (a b : role) : bool :=
  match a, b with
  | Highlight, Highlight | BoxBackground, BoxBackground | AccentBar, AccentBar => true
  | _, _ => false
  end.

Fixpoint drawn (what : role) (ops : list draw_op) : list rect :=
  match ops with
  | [] => []
  | DrawRect w r _ :: rest =>
      if role_eqb w what then r :: drawn what rest else drawn what rest
  | _ :: rest => drawn what rest
  end.

(** The accent bar of a box: its left 2.8 units, over its whole height. *)
Definition bar_of (box : rect) : rect :=
  {| x0 := x0 box; y0 := y0 box; x1 := (x0 box + 2.8)%float; y1 := y1 box |}.

(** A page on which every search finds the same seven rectangles, and a
    record that quotes it. *)
Definition seven_hits : list rect :=
  map (fun k => {| x0 := 72; y0 := PyFloat.of_Z k; x1 := 300; y1 := PyFloat.of_Z k + 10 |}%float)
    [100; 120; 140; 160; 180; 200; 220].

Definition echo_page : fitz_page :=
  {| width := 612; height := 792; search_for := fun _ => Ok seven_hits |}.

Definition thou_art_note : dict :=
  [(lit "page", PInt 1); (lit "type", PStr (lit "definition"));
   (lit "quote", PStr (lit "Thou art")); (lit "annotation", PStr (lit "Archaic form of you are."));
   (lit "themes", PList [])].

(** A record whose quote is a number: drawing it raises. *)
Definition broken_note : dict := [(lit "quote", PInt 5)].

(** [a.get("page", 0)] as a key of [by_page], where it can be one. *)
Definition key_of (d : dict) : option pyval :=
  match page_key (dict_get_default (lit "page") (PInt 0) d) with
  | Some (Ok k) => Some k
  | _ => None
  end.

Definition tagged (k : pyval) (d : dict) : bool :=
  match key_of d with
  | Some k' => key_eqb k' k
  | None => false
  end.

(** [by_page.get(k, [])] *)
Fixpoint group_of (k : pyval) (groups : by_page) : list dict :=
  match groups with
  | [] => []
  | (k', anns) :: rest => if key_eqb k k' then anns else group_of k rest
  end.

(** The dict [_clean] appends for a record, with its four keys in the
    order of the source. *)
Definition annotation_dict (a : annotation) : dict :=
  [(lit "type", PStr (a_type a));
   (lit "quote", PStr (a_quote a));
   (lit "annotation", PStr (a_annotation a));
   (lit "themes", PList (map PStr (a_themes a)))].





(** [isinstance(v, list)] *)
Definition is_list (v : pyval) : bool :=
  match v with
  | PList _ => true
  | _ => false
  end.

(** [isinstance(v, dict)] *)
Definition is_dict (v : pyval) : bool :=
  match v with
  | PDict _ => true
  | _ => false
  end.

(** A text with one object between words and no bracket. *)
Definition prose_reply : str :=
  lit "Sure, here: {~type~:~question~,~quote~:~is this~,~annotation~:~Rhetorical?~} done".

(** ** [json.dumps] with its default options

    Only ASCII is written ([ensure_ascii]); the separators are a comma
    and a colon, each followed by a space. *)
Module JsonDump.

Definition hex_char (d : N) : char :=
  if (d <? 10)%N then (48 + d)%N else (87 + d)%N.

(** A backslash, [u] and four hexadecimal digits in lower case. *)
Definition u_escape (n : N) : str :=
  [ch "\"; ch "u"; hex_char ((n / 4096) mod 16); hex_char ((n / 256) mod 16);
   hex_char ((n / 16) mod 16); hex_char (n mod 16)].

Definition escape_char (c : char) : str :=
  if ch_eqb c dquote then [ch "\"; dquote]
  else if ch_eqb c (ch "\") then [ch "\"; ch "\"]
  else if ch_eqb c 10%N then [ch "\"; ch "n"]
  else if ch_eqb c 13%N then [ch "\"; ch "r"]
  else if ch_eqb c 9%N then [ch "\"; ch "t"]
  else if ch_eqb c 12%N then [ch "\"; ch "f"]
  else if ch_eqb c 8%N then [ch "\"; ch "b"]
  else if (32 <=? c)%N && (c <=? 126)%N then [c]
  else if (c <? 65536)%N then u_escape c
  else u_escape (55296 + ((c - 65536) / 1024) mod 1024)
       ++ u_escape (56320 + (c - 65536) mod 1024).

Definition encode_str (s : str) : str :=
  dquote :: flat_map escape_char s ++ [dquote].

(** A float is written by its [repr], but for the three that JSON does
    not have. *)
Definition floatstr (rt : runtime) (numeral : str) : str :=
  let r := repr_float rt numeral in
  if str_eqb r (lit "nan") then lit "NaN"
  else if str_eqb r (lit "inf") then lit "Infinity"
  else if str_eqb r (lit "-inf") then lit "-Infinity"
  else r.

Fixpoint dumps (rt : runtime) (v : pyval) : str :=
  match v with
  | PNone => lit "null"
  | PBool true => lit "true"
  | PBool false => lit "false"
  | PInt z => str_of_Z z
  | PFloat numeral => floatstr rt numeral
  | PStr s => encode_str s
  | PList items => lit "[" ++ join (lit ", ") (map (dumps rt) items) ++ lit "]"
  | PDict members =>
      lit "{"
      ++ join (lit ", ")
           (map (fun kv => match kv with
                           | (k, x) => encode_str k ++ lit ": " ++ dumps rt x
                           end) members)
      ++ lit "}"
  end.

End JsonDump.

(** ** [_sse] and what [generate] yields *)

Definition _sse (rt : runtime) (obj : pyval) : str :=
  lit "data: " ++ JsonDump.dumps rt obj ++ [nl; nl].

(** The dict [generate] gives to [_sse] for an event; the completion
    marker has none. *)
Definition payload (e : event) : option pyval :=
  match e with
  | EvProgress pct label =>
      Some (PDict [(lit "type", PStr (lit "progress")); (lit "pct", PInt pct);
                   (lit "label", PStr label)])
  | EvPageStart page =>
      Some (PDict [(lit "type", PStr (lit "page_start")); (lit "page", PInt page)])
  | EvAnnotation page data =>
      Some (PDict [(lit "type", PStr (lit "annotation")); (lit "page", PInt page);
                   (lit "data", PDict (annotation_dict data))])
  | EvError message =>
      Some (PDict [(lit "type", PStr (lit "error")); (lit "message", PStr message)])
  | EvDone => None
  end.

(** The string yielded for an event: an [_sse] line, or the closing
    line, which is written out in the source. *)
Definition frame (rt : runtime) (e : event) : str :=
  match payload e with
  | Some obj => _sse rt obj
  | None => lit "data: [DONE]" ++ [nl; nl]
  end.

(** The characters from the space to the tilde. *)
Definition printable (c : char) : bool := (32 <=? c)%N && (c <=? 126)%N.

Definition ascii_line (s : str) : Prop := forallb printable s = true.


(** ** [esc] of the page's script

    A string of the script is taken as its sequence of code units.
    [s.replace(/c/g, text)] for one character [c]: *)
Definition replace_all (c : char) (text : str) (s : str) : str :=
  flat_map (fun x => if ch_eqb x c then text else [x]) s.

(** [String(s || '')] of a string and the four replacements, in their
    order. *)
Definition esc (s : str) : str :=
  replace_all dquote (lit "&quot;")
    (replace_all (ch ">") (lit "&gt;")
       (replace_all (ch "<") (lit "&lt;")
          (replace_all (ch "&") (lit "&amp;") s))).

(** What [esc] makes of one character. *)
Definition entity (c : char) : str :=
  if ch_eqb c (ch "&") then lit "&amp;"
  else if ch_eqb c (ch "<") then lit "&lt;"
  else if ch_eqb c (ch ">") then lit "&gt;"
  else if ch_eqb c dquote then lit "&quot;"
  else [c].

(** The keys are pairwise different, each is its own match, and no
    group is empty. *)
Definition grouped (groups : by_page) : Prop :=
  NoDup (map fst groups)
  /\ Forall (fun g => key_eqb (fst g) (fst g) = true /\ snd g <> []) groups.


(** The container at the bottom of the parser's stack is an object. *)
Fixpoint bottom_is_dict (stack : list Json.frame) : bool :=
  match stack with
  | [] => false
  | [Json.FList _] => false
  | [_] => true
  | _ :: rest => bottom_is_dict rest
  end.

(** The document being read is an object: it is complete and an object,
    or its outermost container is one. *)
Definition rooted (st : Json.pstate) : Prop :=
  match st with
  | (_, Json.EDone v) => is_dict v = true
  | (stack, _) => bottom_is_dict stack = true
  end.

(* ================================================================== *)
(** * Properties *)
(* ================================================================== *)

(** ** Strings and slices *)

Lemma slice_prefix_length : forall (A : Type) (l : list A) (k : Z),
  0 <= k -> (List.length (slice l None (Some k)) <= Z.to_nat k)%nat.
Proof.
  intros A l k Hk. unfold slice, clamp_index.
  destruct (k <? 0) eqn:E; [apply Z.ltb_lt in E; lia|].
  rewrite length_firstn. unfold len. lia.
Qed.

Lemma lstrip_incl : forall s c, In c (lstrip s) -> In c s.
Proof.
  induction s as [|x t IH]; simpl; intros c H; [exact H|].
  destruct (isspace x); [right; apply IH; exact H | exact H].
Qed.

Lemma strip_incl : forall s c, In c (strip s) -> In c s.
Proof.
  intros s c H. unfold strip, rstrip in H.
  apply in_rev in H. apply lstrip_incl in H. apply in_rev in H.
  apply lstrip_incl in H. exact H.
Qed.

Lemma replace_removes : forall a b s, a <> b -> ~ In a (replace a b s).
Proof.
  intros a b s Hab H. unfold replace in H. apply in_map_iff in H.
  destruct H as [c [Hc _]]. unfold ch_eqb in Hc.
  destruct (N.eqb c a) eqn:E; [congruence | apply N.eqb_neq in E; congruence].
Qed.

Lemma str_eqb_eq : forall a b, str_eqb a b = true <-> a = b.
Proof.
  induction a as [|x a IH]; destruct b as [|y b]; simpl; split; intro H;
    try reflexivity; try discriminate.
  - apply andb_true_iff in H. destruct H as [H1 H2].
    apply N.eqb_eq in H1. apply IH in H2. congruence.
  - injection H as -> ->. apply andb_true_iff. split.
    + apply N.eqb_refl.
    + apply IH. reflexivity.
Qed.

(** ** Results *)

Lemma Ok_inj : forall (A : Type) (a b : A), Ok a = Ok b -> a = b.
Proof. intros A a b H. injection H as H. exact H. Qed.

Lemma bind_ok : forall (A B : Type) (r : result A) (k : A -> result B) (b : B),
  bind r k = Ok b -> exists a, r = Ok a /\ k a = Ok b.
Proof.
  intros A B r k b H. destruct r as [a|e]; [|discriminate H].
  exists a. split; [reflexivity | exact H].
Qed.

(** ** The Response Repairer *)

Section RepairProperties.

Variable rt : runtime.

(** The three ways [_repair_json] ends, by the parses that fail. *)
Lemma repair_json_cases : forall raw,
  (exists v, Json.loads raw = Some v /\ _repair_json rt raw = Ok v)
  \/ (exists v, Json.loads raw = None
        /\ first_parse (candidates rt (array_chunk raw)) = Some v
        /\ _repair_json rt raw = Ok v)
  \/ (Json.loads raw = None
        /\ first_parse (candidates rt (array_chunk raw)) = None
        /\ _repair_json rt raw =
           match parse_objects (Re.findall_objects None (array_chunk raw)) [] with
           | [] => Raise (repair_failed rt raw)
           | parsed => Ok (PList parsed)
           end).
Proof.
  intro raw. unfold _repair_json.
  destruct (Json.loads raw) as [v|] eqn:E1.
  - left. exists v. auto.
  - right. destruct (first_parse (candidates rt (array_chunk raw))) as [v|] eqn:E2.
    + left. exists v. auto.
    + right. repeat split.
      destruct (parse_objects _ _); reflexivity.
Qed.

End RepairProperties.

(** C1, the claim as stated fails: the text of an empty array parses at
    once, and [_repair_json] returns the empty list, whatever the runtime. *)
Lemma repair_json_returns_empty_list :
  (fun rt => _repair_json rt (lit "[]")) = (fun _ => Ok (PList [])).
Proof. reflexivity. Qed.

(** ** The Annotation Validator *)

Section CleanProperties.

Variable rt : runtime.

Lemma in_valid_In : forall t, in_valid t = true -> In t valid.
Proof.
  unfold in_valid. intros t H. apply existsb_exists in H.
  destruct H as [x [Hx E]]. apply str_eqb_eq in E. subst x. exact Hx.
Qed.

Lemma flattened_has_no_newline : forall s, ~ In nl (strip (replace nl (ch " ") s)).
Proof.
  intros s H. apply strip_incl in H. revert H. apply replace_removes.
  discriminate.
Qed.

Lemma clean_item_well_formed : forall d, well_formed (clean_item rt d).
Proof.
  intro d. unfold well_formed, clean_item. simpl. repeat split.
  - destruct (in_valid _) eqn:E.
    + apply in_valid_In. exact E.
    + simpl. left. reflexivity.
  - apply flattened_has_no_newline.
  - apply flattened_has_no_newline.
Qed.

Lemma clean_length : forall raw_list,
  (List.length (_clean rt raw_list) <= List.length raw_list)%nat.
Proof.
  induction raw_list as [|item rest IH]; simpl; [lia|].
  destruct item; simpl; lia.
Qed.

Lemma clean_In : forall raw_list a,
  In a (_clean rt raw_list) <->
  exists d, In (PDict d) raw_list /\ a = clean_item rt d.
Proof.
  induction raw_list as [|item rest IH]; simpl; intro a.
  - split; [tauto | intros [d [[] _]]].
  - split.
    + intro H.
      assert (In a (_clean rt rest) -> exists d,
                (item = PDict d \/ In (PDict d) rest) /\ a = clean_item rt d) as K.
      { intro H'. apply IH in H'. destruct H' as [d [Hd E]]. exists d. auto. }
      destruct item; auto.
      destruct H as [H|H]; auto. exists members. auto.
    + intros [d [[E|Hd] Ea]].
      * subst item a. left. reflexivity.
      * assert (In a (_clean rt rest)) as K by (apply IH; exists d; auto).
        destruct item; auto. right. exact K.
Qed.

(** C3.  [_clean] is a total function of its input sequence: whatever
    the entries are, it returns a sequence that is no longer, made of one
    record for each mapping of the input and nothing for the other
    entries.  In every record the type is one of the seven of the
    enumeration, the quote and the annotation hold no line feed, and the
    themes are a list of strings; a missing type gives [notation], as
    does a type that is not of the enumeration once lowered and
    stripped; themes that are missing or not a list give the empty list. *)
Theorem clean_is_total_and_well_formed : forall raw_list,
  (List.length (_clean rt raw_list) <= List.length raw_list)%nat
  /\ Forall well_formed (_clean rt raw_list)
  /\ (forall a, In a (_clean rt raw_list) <->
        exists d, In (PDict d) raw_list /\ a = clean_item rt d)
  /\ (forall d, dict_get (lit "type") d = None ->
        a_type (clean_item rt d) = lit "notation")
  /\ (forall d v, dict_get (lit "type") d = Some v ->
        in_valid (strip (lower rt (py_str rt v))) = false ->
        a_type (clean_item rt d) = lit "notation")
  /\ (forall d, (forall xs, dict_get (lit "themes") d <> Some (PList xs)) ->
        a_themes (clean_item rt d) = []).
Proof.
  intro raw_list. split; [apply clean_length|]. split; [|split; [|split; [|split]]].
  - apply Forall_forall. intros a H. apply clean_In in H.
    destruct H as [d [_ ->]]. apply clean_item_well_formed.
  - apply clean_In.
  - intros d H. unfold clean_item, dict_get_default. rewrite H.
    reflexivity.
  - intros d v H E. unfold clean_item, dict_get_default. rewrite H.
    cbn [a_type]. rewrite E. reflexivity.
  - intros d H. unfold clean_item. cbn [a_themes].
    destruct (dict_get (lit "themes") d) as [v|]; [|reflexivity].
    destruct v; try reflexivity. exfalso. apply (H items). reflexivity.
Qed.

End CleanProperties.

(** ** The Pipeline Driver *)

Lemma events_app : forall a b, events (a ++ b) = events a ++ events b.
Proof.
  induction a as [|x a IH]; intro b; simpl; [reflexivity|].
  destruct x; simpl; rewrite IH; reflexivity.
Qed.

Lemma events_annotations : forall pg anns,
  events (map (fun ann => Yield (EvAnnotation pg ann)) anns)
  = map (EvAnnotation pg) anns.
Proof.
  induction anns as [|a anns IH]; simpl; [reflexivity|].
  rewrite IH. reflexivity.
Qed.

Lemma lstrip_blank : forall s, blank s = true -> lstrip s = [].
Proof.
  induction s as [|c t IH]; simpl; intro H; [reflexivity|].
  apply andb_true_iff in H. destruct H as [Hc Ht]. rewrite Hc. auto.
Qed.

Lemma strip_blank : forall s, blank s = true -> strip s = [].
Proof.
  intros s H. unfold strip. rewrite (lstrip_blank s H). reflexivity.
Qed.

Lemma lstrip_nil_blank : forall s, lstrip s = [] -> blank s = true.
Proof.
  induction s as [|c t IH]; simpl; intro H; [reflexivity|].
  destruct (isspace c); [simpl; auto | discriminate].
Qed.

Lemma lstrip_head : forall s c t, lstrip s = c :: t -> isspace c = false.
Proof.
  induction s as [|x u IH]; simpl; intros c t H; [discriminate|].
  destruct (isspace x) eqn:X; [eauto|]. injection H as -> _. exact X.
Qed.

(** The converse: only a blank text strips to nothing. *)
Lemma strip_nil_blank : forall s, strip s = [] -> blank s = true.
Proof.
  intros s H. unfold strip, rstrip in H.
  apply (f_equal (@rev char)) in H. rewrite rev_involutive in H. simpl in H.
  apply lstrip_nil_blank in H.
  destruct (lstrip s) as [|c t] eqn:L.
  - apply lstrip_nil_blank. exact L.
  - exfalso. apply lstrip_head in L.
    unfold blank in H. rewrite forallb_forall in H.
    rewrite (H c) in L; [discriminate|].
    apply in_rev. rewrite rev_involutive. left. reflexivity.
Qed.

Lemma progress_label_is_not_final : forall p_end pg_num,
  progress_label p_end pg_num <> complete_label.
Proof.
  intros p_end pg_num H.
  apply (f_equal (fun l => nth 9 l 0%N)) in H. discriminate H.
Qed.

Section PipelineProperties.

Variable rt : runtime.
Variable server : nat -> client.
Variables model instructions : str.
Variables p_start p_end n : Z.

Local Abbreviation loop := (page_loop rt server model instructions p_start p_end n).

(** *** Blank pages *)

(** C7.  When the loop comes to a page whose extracted text is empty or
    white space only, it yields the progress and page-start events of the
    page, then exactly one annotation, the fixed [notation] record with an
    empty quote that says the page has no extractable text, and goes on
    with the next page: no request is sent to the completion client (the
    count of requests is unchanged) and the run does not end there. *)
Theorem blank_page_gets_one_note : forall i calls extracted rest pct,
  progress_pct n i = Ok pct ->
  blank (match extracted with Some t => t | None => [] end) = true ->
  loop i calls (Ok extracted :: rest)
  = Yield (EvProgress pct (progress_label p_end (p_start + i + 1)))
    :: Yield (EvPageStart (p_start + i + 1))
    :: Yield (EvAnnotation (p_start + i + 1) no_text)
    :: loop (i + 1) calls rest
  /\ a_type no_text = lit "notation"
  /\ a_quote no_text = []
  /\ a_annotation no_text = lit "No extractable text on this page (may be an image)."
  /\ a_themes no_text = [].
Proof.
  intros i calls extracted rest pct Hpct Hblank.
  split; [|repeat split].
  cbn [page_loop]. rewrite Hpct, (strip_blank _ Hblank). reflexivity.
Qed.

(** *** How a run ends *)


(** *** Failure of the completion client *)

Lemma yield_before_post : forall e (l pre post : trace) m p,
  Yield e :: l = pre ++ Post m p :: post ->
  exists pre', pre = Yield e :: pre' /\ l = pre' ++ Post m p :: post.
Proof.
  intros e l pre post m p H. destruct pre as [|a pre]; simpl in H.
  - discriminate.
  - injection H as <- ->. exists pre. auto.
Qed.

Lemma annotations_before_post : forall pg anns (l pre post : trace) m p,
  map (fun ann => Yield (EvAnnotation pg ann)) anns ++ l = pre ++ Post m p :: post ->
  exists pre', pre = map (fun ann => Yield (EvAnnotation pg ann)) anns ++ pre'
               /\ l = pre' ++ Post m p :: post.
Proof.
  induction anns as [|a anns IH]; intros l pre post m p H; simpl in H.
  - exists pre. auto.
  - apply yield_before_post in H. destruct H as [pre1 [-> H]].
    apply IH in H. destruct H as [pre2 [-> H]]. exists pre2. auto.
Qed.

Lemma posts_app : forall a b, posts (a ++ b) = (posts a + posts b)%nat.
Proof.
  induction a as [|x a IH]; intro b; simpl; [reflexivity|].
  destruct x; simpl; rewrite IH; reflexivity.
Qed.

Lemma posts_annotations : forall pg anns,
  posts (map (fun ann => Yield (EvAnnotation pg ann)) anns) = O.
Proof. induction anns; simpl; auto. Qed.

Lemma call_ollama_client_down : forall post m p e,
  post m p = Raise e -> connection_or_timeout e = true ->
  exists msg,
    _call_ollama rt post m p = Raise (RuntimeError msg)
    /\ (msg = lit "Cannot connect to Ollama. Run: ollama serve"
        \/ msg = lit "Ollama timed out. Try a faster/smaller model.").
Proof.
  intros post m p e H U. unfold _call_ollama. rewrite H.
  destruct e; try discriminate U; simpl; eexists; split; try reflexivity; auto.
Qed.

Lemma page_loop_failure : forall pages i calls pre m p post e,
  loop i calls pages = pre ++ Post m p :: post ->
  server (calls + posts pre) m p = Raise e ->
  connection_or_timeout e = true ->
  Forall ordinary (events pre)
  /\ exists msg, post = [Yield (EvError msg)]
      /\ (msg = lit "Cannot connect to Ollama. Run: ollama serve"
          \/ msg = lit "Ollama timed out. Try a faster/smaller model.").
Proof.
  induction pages as [|page rest IH]; intros i calls pre m p post e H Hs U.
  - cbn [page_loop] in H.
    apply yield_before_post in H. destruct H as [pre1 [-> H]].
    apply yield_before_post in H. destruct H as [pre2 [-> H]].
    destruct pre2; discriminate H.
  - cbn [page_loop] in H.
    destruct (progress_pct n i) as [pct|e0].
    2:{ apply yield_before_post in H. destruct H as [pre1 [-> H]].
        destruct pre1; discriminate H. }
    apply yield_before_post in H. destruct H as [pre1 [-> H]].
    apply yield_before_post in H. destruct H as [pre2 [-> H]].
    assert (ordinary (EvProgress pct (progress_label p_end (p_start + i + 1)))) as Hp
      by apply progress_label_is_not_final.
    destruct page as [extracted|e0].
    2:{ apply yield_before_post in H. destruct H as [pre3 [-> H]].
        destruct pre3; discriminate H. }
    destruct (strip _) as [|c text].
    + apply yield_before_post in H. destruct H as [pre3 [-> H]].
      destruct (IH _ _ _ _ _ _ _ H Hs U) as [Hpre Hpost].
      split; [|exact Hpost]. cbn [events]. repeat constructor; assumption.
    + destruct pre2 as [|a pre3]; simpl in H.
      * injection H as <- <- <-. simpl in Hs. rewrite Nat.add_0_r in Hs.
        destruct (call_ollama_client_down _ _ _ _ Hs U) as [msg [-> Hmsg]].
        split; [cbn [events]; repeat constructor; exact Hp|].
        exists msg. auto.
      * injection H as <- H.
        destruct (_call_ollama _ _ _ _) as [anns|e0].
        2:{ destruct pre3 as [|a pre4]; [discriminate H|].
            injection H as _ H. destruct pre4; discriminate H. }
        apply annotations_before_post in H. destruct H as [pre4 [-> H]].
        cbn [posts] in Hs. rewrite posts_app, posts_annotations in Hs.
        replace (calls + S (0 + posts pre4))%nat with (S calls + posts pre4)%nat in Hs by lia.
        destruct (IH _ _ _ _ _ _ _ H Hs U) as [Hpre Hpost].
        split; [|exact Hpost]. cbn [events].
        rewrite events_app, events_annotations.
        constructor; [exact Hp|]. constructor; [exact I|].
        apply Forall_app. split; [|exact Hpre].
        apply Forall_forall. intros x Hx. apply in_map_iff in Hx.
        destruct Hx as [a [<- _]]. exact I.
Qed.

(** *** Runs without a failure *)



End PipelineProperties.

(** C4.  If, in a run of the generator, a request to the completion
    client fails with a connection failure or a timeout, what follows
    the request is one error event and nothing else: no page start, no
    annotation, no progress event and no completion marker for that page
    or a later one, and no further request (so no retry).  No error
    event comes before it: only progress, page-start and annotation
    events. *)
Theorem client_failure_is_fatal :
  forall rt server pdf instructions model page_from page_to pre m p post e,
  generate rt server pdf instructions model page_from page_to
    = pre ++ Post m p :: post ->
  server (posts pre) m p = Raise e ->
  connection_or_timeout e = true ->
  Forall ordinary (events pre)
  /\ exists msg, post = [Yield (EvError msg)]
      /\ (msg = lit "Cannot connect to Ollama. Run: ollama serve"
          \/ msg = lit "Ollama timed out. Try a faster/smaller model.").
Proof.
  intros rt server pdf instructions model page_from page_to pre m p post e H Hs U.
  unfold generate in H. destruct pdf as [all_pages|e0].
  2:{ destruct pre as [|a pre]; [discriminate H|].
      injection H as _ H. destruct pre; discriminate H. }
  destruct (_ =? 0).
  - destruct pre as [|a pre]; [discriminate H|].
    injection H as _ H. destruct pre; discriminate H.
  - exact (page_loop_failure rt server model instructions _ _ _ _ _ _ _ _ _ _ _ H Hs U).
Qed.


(** ** The completion call *)

Section CallProperties.

Variable rt : runtime.

Lemma call_handler_not_empty : forall raw e anns,
  call_handler raw e = Ok anns -> anns <> [].
Proof.
  intros raw e anns H. destruct e; simpl in H; try discriminate H.
  injection H as <-. discriminate.
Qed.

(** Whenever [_call_ollama] returns, it returns at least one record. *)
Lemma call_ollama_not_empty : forall post model prompt anns,
  _call_ollama rt post model prompt = Ok anns -> anns <> [].
Proof.
  intros post model prompt anns H. unfold _call_ollama in H.
  destruct (post model prompt) as [body|e];
    [|exact (call_handler_not_empty _ _ _ H)].
  destruct (response_text body) as [raw|e];
    [|exact (call_handler_not_empty _ _ _ H)].
  destruct raw as [|c raw]; [injection H as <-; discriminate|].
  destruct (bind _ _) as [[|a cleaned]|e].
  - injection H as <-. discriminate.
  - injection H as <-. discriminate.
  - exact (call_handler_not_empty _ _ _ H).
Qed.

End CallProperties.

(** The three fallback records: an empty response, a text that cannot be
    repaired, records that are all dropped by the validator. *)
Example call_ollama_fallbacks :
  map (fun text => _call_ollama example_runtime (fun _ _ => reply text) [] [])
    [ lit "  "; lit "I cannot do that."; lit "[1, 2]" ]
  = [ Ok [note (lit "Model returned no output.")];
      Ok [note (lit "JSON parse failed. Raw: I cannot do that.")];
      Ok [note (lit "No annotations produced.")] ].
Proof. vm_compute. reflexivity. Qed.

(** A reply whose body is not JSON, and an HTTP error. *)
Example call_ollama_transport :
  map (fun outcome => _call_ollama example_runtime (fun _ _ => outcome) [] [])
    [ Raise (ValueError (lit "Expecting value: line 1 column 1 (char 0)"));
      Raise (OtherException (lit "500 Server Error"));
      Raise (Timeout (lit "Read timed out.")) ]
  = [ Ok [note (lit "JSON parse failed. Raw: (empty)")];
      Raise (RuntimeError (lit "500 Server Error"));
      Raise (RuntimeError (lit "Ollama timed out. Try a faster/smaller model.")) ].
Proof. vm_compute. reflexivity. Qed.

(** *** The scenarios of the specification *)

(** Scenario A: one page, one record returned by the model. *)
Example scenario_A :
  events (generate example_runtime (fun _ _ _ => reply thou_art)
            (Ok [Ok (Some (lit "Thou art wise."))])
            (lit "define archaic words") (lit "llama3.2") 1 9999)
  = [ EvProgress 0 (lit "Annotating page 1 of 1" ++ [ellipsis]);
      EvPageStart 1;
      EvAnnotation 1 {| a_type := lit "definition"; a_quote := lit "Thou art";
                        a_annotation := lit "Archaic form of you are.";
                        a_themes := [] |};
      EvProgress 93 complete_label;
      EvDone ].
Proof. vm_compute. reflexivity. Qed.

(** Scenario B: prose around one object, no array.  Strategy 6 recovers
    the object when the text holds no bracket; with the empty [themes]
    of the specification's scenario, the candidate is that pair of
    brackets, and the empty list is returned. *)
Example scenario_B :
  (fun rt => _repair_json rt
     (lit "Sure, here: {~type~:~question~,~quote~:~is this~,~annotation~:~Rhetorical?~} done"))
  = (fun _ => Ok (PList [PDict [(lit "type", PStr (lit "question"));
                                (lit "quote", PStr (lit "is this"));
                                (lit "annotation", PStr (lit "Rhetorical?"))]]))
  /\ (fun rt => _repair_json rt
        (lit "Sure, here: {~type~:~question~,~quote~:~is this~,~annotation~:~Rhetorical?~,~themes~:[]} done"))
     = (fun _ => Ok (PList [])).
Proof. split; vm_compute; reflexivity. Qed.

(** Scenario C: a page of white space, whatever the client would say. *)
Example scenario_C :
  (fun server =>
     generate example_runtime server (Ok [Ok (Some (lit "   "))])
       (lit "define archaic words") (lit "llama3.2") 1 9999)
  = (fun _ =>
       [ Yield (EvProgress 0 (lit "Annotating page 1 of 1" ++ [ellipsis]));
         Yield (EvPageStart 1);
         Yield (EvAnnotation 1 no_text);
         Yield (EvProgress 93 complete_label);
         Yield EvDone ]).
Proof. vm_compute. reflexivity. Qed.

(** Scenario D: the events of the run. *)
Example scenario_D_events :
  events scenario_D
  = [ EvProgress 0 (lit "Annotating page 1 of 3" ++ [ellipsis]);
      EvPageStart 1;
      EvAnnotation 1 {| a_type := lit "definition"; a_quote := lit "Thou art";
                        a_annotation := lit "Archaic form of you are.";
                        a_themes := [] |};
      EvProgress 30 (lit "Annotating page 2 of 3" ++ [ellipsis]);
      EvPageStart 2;
      EvError (lit "Cannot connect to Ollama. Run: ollama serve") ].
Proof. vm_compute. reflexivity. Qed.

(** C4, at scenario D: the second request is the seventh action of the
    run, and one error event is all that follows it. *)
Lemma scenario_D_halts_at_the_failure :
  Forall ordinary (events (firstn 6 scenario_D))
  /\ exists msg, skipn 7 scenario_D = [Yield (EvError msg)]
      /\ (msg = lit "Cannot connect to Ollama. Run: ollama serve"
          \/ msg = lit "Ollama timed out. Try a faster/smaller model.").
Proof.
  apply (client_failure_is_fatal example_runtime failing_server three_pages
           (lit "define archaic words") (lit "llama3.2") 1 9999
           (firstn 6 scenario_D) (lit "llama3.2")
           (_build_prompt (lit "Second page.") (lit "define archaic words") 2)
           (skipn 7 scenario_D)
           (ConnectionError (lit "Connection refused"))).
  - vm_compute. reflexivity.
  - reflexivity.
  - reflexivity.
Defined.

(** C7, at scenario C: the loop on the one blank page of the document. *)
Lemma scenario_C_blank_page :
  page_loop example_runtime (fun _ _ _ => reply thou_art) (lit "llama3.2")
    (lit "define archaic words") 0 1 1 0 O [Ok (Some (lit "   "))]
  = Yield (EvProgress 0 (progress_label 1 (0 + 0 + 1)))
    :: Yield (EvPageStart (0 + 0 + 1))
    :: Yield (EvAnnotation (0 + 0 + 1) no_text)
    :: page_loop example_runtime (fun _ _ _ => reply thou_art) (lit "llama3.2")
         (lit "define archaic words") 0 1 1 (0 + 1) O []
  /\ a_type no_text = lit "notation"
  /\ a_quote no_text = []
  /\ a_annotation no_text = lit "No extractable text on this page (may be an image)."
  /\ a_themes no_text = [].
Proof.
  apply (blank_page_gets_one_note example_runtime (fun _ _ _ => reply thou_art)
           (lit "llama3.2") (lit "define archaic words") 0 1 1 0 O
           (Some (lit "   ")) [] 0).
  - reflexivity.
  - reflexivity.
Defined.


(** C8, at a failing input.  The array [truncated_reply] is cut in its
    third record; its first two records are complete, yet
    [_repair_json] returns the first only: the candidate stops at the
    last closing bracket, which is inside the second record.  Cut in the
    second record, nothing is recovered at all. *)
Lemma truncated_array_loses_complete_records :
  (fun rt => _repair_json rt truncated_reply) = (fun _ => Ok (PList [first_record]))
  /\ Json.loads (slice truncated_reply None (Some 172) ++ lit "]")
     = Some (PList [first_record; second_record])
  /\ (fun rt => _repair_json rt truncated_early)
     = (fun rt => Raise (repair_failed rt truncated_early))
  /\ Json.loads (slice truncated_early None (Some 82) ++ lit "]")
     = Some (PList [first_record]).
Proof. repeat split; vm_compute; reflexivity. Qed.

(** C9, at a failing input.  The page has text and the client replies;
    the reply is a JSON scalar.  [_repair_json] returns it, its iteration
    raises, and the run ends in an error event with no annotation for
    the page. *)
Lemma scalar_reply_ends_the_run :
  (fun rt model prompt => _call_ollama rt (fun _ _ => reply (lit "null")) model prompt)
  = (fun _ _ _ => Raise (RuntimeError (lit "'NoneType' object is not iterable")))
  /\ (fun rt instructions model =>
        events (generate rt (fun _ _ _ => reply (lit "null"))
                  (Ok [Ok (Some (lit "Thou art wise."))]) instructions model 1 9999))
     = (fun _ _ _ =>
          [ EvProgress 0 (lit "Annotating page 1 of 1" ++ [ellipsis]);
            EvPageStart 1;
            EvError (lit "'NoneType' object is not iterable") ]).
Proof. split; vm_compute; reflexivity. Qed.

(** The view itself: no file, no instructions, and a first page below 1,
    which is raised to 1. *)
Example annotate_requests :
  (fun rt model server =>
     ( annotate rt model server None (lit "define archaic words") [] 1 9999,
       annotate rt model server (Some three_pages) (lit "   ") [] 1 9999 ))
  = (fun _ _ _ =>
     ( BadRequest (lit "No PDF uploaded"),
       BadRequest (lit "No instructions provided") ))
  /\ annotate example_runtime (lit "llama3.2") failing_server (Some three_pages)
       (lit " define archaic words ") (lit "  ") (-3) 9999
     = EventStream scenario_D.
Proof. split; vm_compute; reflexivity. Qed.

(** ** The order of the fallback chain *)

Lemma first_index_bound : forall c s k, first_index c s = Some k -> (k < List.length s)%nat.
Proof.
  induction s as [|x t IH]; simpl; intros k H; [discriminate|].
  destruct (ch_eqb x c).
  - injection H as <-. lia.
  - destruct (first_index c t) as [j|]; [|discriminate].
    injection H as <-. specialize (IH j eq_refl). lia.
Qed.

Lemma last_index_bound : forall c s k, last_index c s = Some k -> (k < List.length s)%nat.
Proof.
  induction s as [|x t IH]; simpl; intros k H; [discriminate|].
  destruct (last_index c t) as [j|].
  - injection H as <-. specialize (IH j eq_refl). lia.
  - destruct (ch_eqb x c); [|discriminate]. injection H as <-. lia.
Qed.

Lemma find_from_spec : forall c s i,
  find_from c s i = match first_index c s with
                    | Some k => i + Z.of_nat k
                    | None => -1
                    end.
Proof.
  induction s as [|x t IH]; simpl; intro i; [reflexivity|].
  destruct (ch_eqb x c); [simpl; lia|].
  rewrite IH. destruct (first_index c t); simpl; lia.
Qed.

Lemma find_spec : forall c s,
  find c s = match first_index c s with
             | Some k => Z.of_nat k
             | None => -1
             end.
Proof.
  intros c s. unfold find. rewrite find_from_spec.
  destruct (first_index c s); reflexivity.
Qed.

Lemma rfind_from_spec : forall c s i last,
  rfind_from c s i last = match last_index c s with
                          | Some k => i + Z.of_nat k
                          | None => last
                          end.
Proof.
  induction s as [|x t IH]; simpl; intros i last; [reflexivity|].
  rewrite IH. destruct (last_index c t).
  - lia.
  - destruct (ch_eqb x c); simpl; lia.
Qed.

Lemma rfind_spec : forall c s,
  rfind c s = match last_index c s with
              | Some k => Z.of_nat k
              | None => -1
              end.
Proof.
  intros c s. unfold rfind. rewrite rfind_from_spec.
  destruct (last_index c s); reflexivity.
Qed.

Lemma slice_between : forall (A : Type) (l : list A) (a b : nat),
  (a <= b)%nat -> (b <= List.length l)%nat ->
  slice l (Some (Z.of_nat a)) (Some (Z.of_nat b)) = firstn (b - a) (skipn a l).
Proof.
  intros A l a b Hab Hb. unfold slice, clamp_index, len.
  destruct (Z.of_nat a <? 0) eqn:Ea; [apply Z.ltb_lt in Ea; lia|].
  destruct (Z.of_nat b <? 0) eqn:Eb; [apply Z.ltb_lt in Eb; lia|].
  rewrite !Z.min_l by lia. rewrite Nat2Z.id.
  replace (Z.to_nat (Z.of_nat b - Z.of_nat a)) with (b - a)%nat by lia.
  reflexivity.
Qed.

Lemma slice_upto : forall (A : Type) (l : list A) (b : nat),
  (b <= List.length l)%nat ->
  slice l None (Some (Z.of_nat b)) = firstn b l.
Proof.
  intros A l b Hb. unfold slice, clamp_index, len.
  destruct (Z.of_nat b <? 0) eqn:Eb; [apply Z.ltb_lt in Eb; lia|].
  rewrite Z.min_l by lia. rewrite Z.sub_0_r, Nat2Z.id. reflexivity.
Qed.

Lemma array_chunk_is_candidate : forall raw, array_chunk raw = candidate raw.
Proof.
  intro raw. unfold array_chunk, candidate, bracketed.
  rewrite find_spec, rfind_spec.
  destruct (first_index (ch "[") raw) as [s|] eqn:Es; [|reflexivity].
  destruct (last_index (ch "]") raw) as [e|] eqn:Ee.
  - apply last_index_bound in Ee.
    replace (negb (Z.of_nat s =? -1)) with true
      by (symmetry; apply negb_true_iff, Z.eqb_neq; lia).
    cbn [andb].
    destruct (s <? e)%nat eqn:L.
    + apply Nat.ltb_lt in L.
      replace (Z.of_nat e >? Z.of_nat s) with true
        by (symmetry; apply Z.gtb_lt; lia).
      replace (Z.of_nat e + 1) with (Z.of_nat (e + 1)) by lia.
      rewrite slice_between by lia.
      replace (e + 1 - s)%nat with (e - s + 1)%nat by lia. reflexivity.
    + apply Nat.ltb_ge in L.
      replace (Z.of_nat e >? Z.of_nat s) with false; [reflexivity|].
      symmetry. rewrite Z.gtb_ltb. apply Z.ltb_ge. lia.
  - replace (-1 >? Z.of_nat s) with false; [rewrite andb_false_r; reflexivity|].
    symmetry. rewrite Z.gtb_ltb. apply Z.ltb_ge. lia.
Qed.

Lemma truncation_spec : forall c,
  (if negb (rfind (ch "}") c =? -1)
   then slice c None (Some (rfind (ch "}") c + 1)) ++ lit "]"
   else c) = truncation c.
Proof.
  intro c. unfold truncation. rewrite rfind_spec.
  destruct (last_index (ch "}") c) as [i|] eqn:E; [|reflexivity].
  apply last_index_bound in E.
  replace (negb (Z.of_nat i =? -1)) with true
    by (symmetry; apply negb_true_iff, Z.eqb_neq; lia).
  replace (Z.of_nat i + 1) with (Z.of_nat (S i)) by lia.
  rewrite slice_upto by lia. reflexivity.
Qed.

Lemma candidates_are_strategies : forall rt raw,
  raw :: candidates rt (array_chunk raw) = strategies rt raw.
Proof.
  intros rt raw. unfold candidates, strategies.
  rewrite truncation_spec, array_chunk_is_candidate. reflexivity.
Qed.

Lemma first_parse_is_first_success : forall texts,
  first_parse texts = first_success texts.
Proof.
  induction texts as [|c rest IH]; simpl; [reflexivity|].
  rewrite IH. reflexivity.
Qed.

Lemma parse_objects_spec : forall objs parsed,
  parse_objects objs parsed
  = parsed ++ flat_map (fun obj => match fragment_value obj with
                                   | Some v => [v]
                                   | None => []
                                   end) objs.
Proof.
  induction objs as [|obj rest IH]; intro parsed.
  - cbn [parse_objects flat_map]. rewrite app_nil_r. reflexivity.
  - cbn [parse_objects parse_variants flat_map]. rewrite IH.
    unfold fragment_value. cbv zeta.
    destruct (Json.loads (replace nl (ch " ") obj)) as [v|].
    + rewrite <- app_assoc. reflexivity.
    + destruct (Json.loads (replace (ch "'") dquote (replace nl (ch " ") obj))) as [v|].
      * rewrite <- app_assoc. reflexivity.
      * reflexivity.
Qed.

Lemma first_success_wins : forall texts k text v,
  nth_error texts k = Some text ->
  Json.loads text = Some v ->
  (forall j earlier, (j < k)%nat -> nth_error texts j = Some earlier ->
                     Json.loads earlier = None) ->
  first_success texts = Some v.
Proof.
  induction texts as [|t rest IH]; intros k text v Hk Hv Hbefore.
  - destruct k; discriminate Hk.
  - destruct k as [|k]; simpl in Hk |- *.
    + injection Hk as ->. rewrite Hv. reflexivity.
    + rewrite (Hbefore O t) by (try lia; reflexivity).
      apply (IH k text v Hk Hv).
      intros j earlier Hj Hn. apply (Hbefore (S j) earlier); [lia | exact Hn].
Qed.

Lemma first_success_none : forall texts,
  (forall text, In text texts -> Json.loads text = None) ->
  first_success texts = None.
Proof.
  induction texts as [|t rest IH]; intro H; simpl; [reflexivity|].
  rewrite (H t) by (left; reflexivity).
  apply IH. intros text Ht. apply H. right. exact Ht.
Qed.

(** C2.  [_repair_json] is the fallback chain of the specification: the
    raw text parsed as it is; then the candidate, which is the text from
    the first opening bracket to the last closing bracket when both
    exist and the first precedes the second, and the raw text otherwise;
    then the candidate without code fences; then the candidate with the
    line feeds between quote or word characters collapsed; then the
    candidate cut after its last closing brace, with a closing bracket
    appended; and, when none of these parses, the brace-delimited
    fragments of the candidate, each parsed as it is or with single
    quotes turned into double quotes.  The first of the five texts that
    parses gives the result, whatever a later one would give; the
    fragments are only looked at when all five fail. *)
Theorem repair_json_follows_the_chain : forall rt raw,
  _repair_json rt raw = fallback_chain rt raw
  /\ (forall k text v,
        nth_error (strategies rt raw) k = Some text ->
        Json.loads text = Some v ->
        (forall j earlier, (j < k)%nat ->
           nth_error (strategies rt raw) j = Some earlier ->
           Json.loads earlier = None) ->
        _repair_json rt raw = Ok v)
  /\ ((forall text, In text (strategies rt raw) -> Json.loads text = None) ->
      _repair_json rt raw = match fragments (candidate raw) with
                            | [] => Raise (repair_failed rt raw)
                            | found => Ok (PList found)
                            end).
Proof.
  intros rt raw.
  assert (_repair_json rt raw = fallback_chain rt raw) as E.
  { unfold _repair_json, fallback_chain.
    rewrite <- candidates_are_strategies. cbn [first_success].
    destruct (Json.loads raw) as [v|]; [reflexivity|].
    rewrite first_parse_is_first_success.
    destruct (first_success _) as [v|]; [reflexivity|].
    rewrite parse_objects_spec, array_chunk_is_candidate. cbn [app].
    unfold fragments. destruct (flat_map _ _); reflexivity. }
  split; [exact E|]. split.
  - intros k text v Hk Hv Hbefore. rewrite E. unfold fallback_chain.
    rewrite (first_success_wins _ k text v Hk Hv Hbefore). reflexivity.
  - intro H. rewrite E. unfold fallback_chain.
    rewrite (first_success_none _ H). reflexivity.
Qed.

(** Each step of the chain gives the result for some text: a clean
    array; an array inside prose; an object inside code fences; a line
    feed inside a string; an array cut in its third object, when no
    closing bracket follows; fragments with single quotes. *)
Example each_strategy_can_win :
  (fun rt => map (_repair_json rt)
     [ lit "[{~a~:1}]";
       lit "Here you are: [{~a~:1}] Enjoy!";
       lit "```json {~a~:1} ```";
       lit "[~a" ++ [nl] ++ lit "b~]";
       lit "[{~a~:1},{~b~:2},{~c~:";
       lit "first {'a':1} then {'b':2}" ])
  = (fun _ =>
     [ Ok (PList [PDict [(lit "a", PInt 1)]]);
       Ok (PList [PDict [(lit "a", PInt 1)]]);
       Ok (PDict [(lit "a", PInt 1)]);
       Ok (PList [PStr (lit "a b")]);
       Ok (PList [PDict [(lit "a", PInt 1)]; PDict [(lit "b", PInt 2)]]);
       Ok (PList [PDict [(lit "a", PInt 1)]; PDict [(lit "b", PInt 2)]]) ]).
Proof. vm_compute. reflexivity. Qed.

(** The repair failure and its snippet. *)
Example repair_failure_snippet :
  _repair_json example_runtime (lit "no json here")
  = Raise (ValueError (lit "JSON repair failed. Raw output: 'no json here'")).
Proof. vm_compute. reflexivity. Qed.

(** ** What the fragments give *)

Module JsonFacts.

Import Json.

Lemma bottom_is_dict_push : forall f stack,
  bottom_is_dict stack = true -> bottom_is_dict (f :: stack) = true.
Proof.
  intros f stack H. destruct stack as [|g rest]; [discriminate H|].
  destruct f; exact H.
Qed.

Lemma bottom_is_dict_pop : forall f g rest,
  bottom_is_dict (f :: g :: rest) = bottom_is_dict (g :: rest).
Proof. intros f g rest. destruct f; reflexivity. Qed.

Lemma push_value_rooted : forall stack v st,
  push_value stack v = Some st ->
  bottom_is_dict stack = true \/ (stack = [] /\ is_dict v = true) ->
  rooted st.
Proof.
  intros stack v st H Hb.
  destruct stack as [|f rest].
  - injection H as <-. destruct Hb as [Hb|[_ Hb]]; [discriminate Hb | exact Hb].
  - destruct Hb as [Hb|[Hb _]]; [|discriminate Hb].
    destruct f; simpl in H; try discriminate H; injection H as <-;
      destruct rest as [|g rest]; try exact Hb; try discriminate Hb;
      reflexivity.
Qed.

Lemma pop_rooted : forall f rest v st,
  push_value rest v = Some st ->
  bottom_is_dict (f :: rest) = true ->
  (rest = [] -> is_dict v = true) ->
  rooted st.
Proof.
  intros f rest v st H R Hv. apply (push_value_rooted _ _ _ H).
  destruct rest as [|g rest].
  - right. split; [reflexivity | apply Hv; reflexivity].
  - left. rewrite bottom_is_dict_pop in R. exact R.
Qed.

Lemma step_rooted : forall st tok st',
  step st tok = Some st' -> rooted st -> rooted st'.
Proof.
  intros [stack e] tok st' H R.
  destruct e; try (destruct tok; discriminate H); cbn [rooted] in R;
    destruct tok; cbn [step wants_value] in H; try discriminate H;
    try (injection H as <-; cbn [rooted];
         first [exact R | apply bottom_is_dict_push; exact R]);
    try (apply (push_value_rooted _ _ _ H); left; exact R);
    destruct stack as [|[] rest]; try discriminate H;
    try (injection H as <-; exact R);
    try (apply (pop_rooted _ _ _ _ H R); intros ->;
         first [discriminate R | reflexivity]).
Qed.

Lemma run_rooted : forall toks st v,
  run st toks = Some v -> rooted st -> is_dict v = true.
Proof.
  induction toks as [|tok rest IH]; intros st v H R; cbn [run] in H.
  - destruct st as [stack e]. destruct e; try discriminate H.
    injection H as <-. exact R.
  - destruct (step st tok) as [st'|] eqn:E; [|discriminate H].
    exact (IH _ _ H (step_rooted _ _ _ E R)).
Qed.

(** A text that opens with a brace parses to an object or not at all. *)
Lemma loads_brace : forall t v,
  loads (ch "{" :: t) = Some v -> is_dict v = true.
Proof.
  intros t v H. unfold loads in H.
  change (lex 0 (ch "{" :: t))
    with (match lex (List.length t - List.length t) t with
          | Some toks => Some (TLBrace :: toks)
          | None => None
          end) in H.
  destruct (lex _ t) as [toks|]; [|discriminate H].
  change (run ([], EValue) (TLBrace :: toks))
    with (run ([FDictKey []], EKeyOrClose) toks) in H.
  exact (run_rooted _ _ _ H eq_refl).
Qed.

End JsonFacts.

Lemma findall_objects_open : forall s cur,
  Forall (fun obj => exists body, obj = ch "{" :: body) (Re.findall_objects cur s).
Proof.
  induction s as [|c t IH]; intro cur; cbn [Re.findall_objects]; [constructor|].
  destruct (ch_eqb c (ch "{")); [apply IH|].
  destruct (ch_eqb c (ch "}")).
  - destruct cur as [[|x body]|]; try apply IH.
    constructor; [eexists; reflexivity | apply IH].
  - destruct cur; apply IH.
Qed.

Section FragmentProperties.

Variable rt : runtime.

Lemma parse_objects_dicts : forall objs parsed,
  Forall (fun obj => exists body, obj = ch "{" :: body) objs ->
  Forall (fun v => is_dict v = true) parsed ->
  Forall (fun v => is_dict v = true) (parse_objects objs parsed).
Proof.
  induction objs as [|obj rest IH]; intros parsed Ho Hp; [exact Hp|].
  inversion Ho as [|x l [body ->] Hrest]; subst.
  cbn [parse_objects]. cbv zeta. apply IH; [exact Hrest|].
  cbn [parse_variants].
  assert (forall c a b t, ch_eqb c a = false ->
            replace a b (c :: t) = c :: replace a b t) as K.
  { intros c a b t E. unfold replace. cbn [map]. rewrite E. reflexivity. }
  rewrite (K 123%N nl (ch " ") body eq_refl).
  rewrite (K 123%N (ch "'") dquote _ eq_refl).
  change 123%N with (ch "{").
  destruct (Json.loads (ch "{" :: replace nl (ch " ") body)) as [v|] eqn:E1.
  - apply Forall_app. split; [exact Hp|]. constructor; [|constructor].
    exact (JsonFacts.loads_brace _ _ E1).
  - destruct (Json.loads (ch "{" :: replace (ch "'") dquote _)) as [v|] eqn:E2;
      [|exact Hp].
    apply Forall_app. split; [exact Hp|]. constructor; [|constructor].
    exact (JsonFacts.loads_brace _ _ E2).
Qed.

Lemma clean_keeps_dicts : forall items,
  Forall (fun v => is_dict v = true) items ->
  List.length (_clean rt items) = List.length items.
Proof.
  induction items as [|item rest IH]; intro H; [reflexivity|].
  inversion H as [|x l Hd Hrest]; subst.
  destruct item; try discriminate Hd. cbn [_clean List.length].
  rewrite (IH Hrest). reflexivity.
Qed.

End FragmentProperties.

Lemma fragments_are_dicts : forall c,
  Forall (fun v => is_dict v = true) (fragments c).
Proof.
  intro c. unfold fragments.
  rewrite <- (app_nil_l (flat_map _ _)), <- parse_objects_spec.
  apply parse_objects_dicts; [apply findall_objects_open | constructor].
Qed.

Lemma repair_json_chain : forall rt raw,
  _repair_json rt raw = fallback_chain rt raw.
Proof.
  intros rt raw. unfold _repair_json, fallback_chain.
  rewrite <- candidates_are_strategies. cbn [first_success].
  destruct (Json.loads raw) as [v|]; [reflexivity|].
  rewrite first_parse_is_first_success.
  destruct (first_success _) as [v|]; [reflexivity|].
  rewrite parse_objects_spec, array_chunk_is_candidate. cbn [app].
  unfold fragments. destruct (flat_map _ _); reflexivity.
Qed.

(** C1, as amended.  Where the first of the five texts that parses
    denotes an array, [_repair_json] returns that array, a sequence
    that may be empty; where none of them parses, it returns the
    fragments that strategy 6 recovers, a sequence that is not empty
    and holds objects only, or, when there is no such fragment, raises
    the one repair failure, a [ValueError] whose text carries the first
    300 characters of the raw input at most.  Nothing else is raised.
    The last case is the one the statement is silent on: the first text
    that parses denotes something that is not an array. *)
Theorem repair_json_returns_or_fails : forall rt raw,
  (exists items,
      first_success (strategies rt raw) = Some (PList items)
      /\ _repair_json rt raw = Ok (PList items))
  \/ (exists first others,
        first_success (strategies rt raw) = None
        /\ fragments (candidate raw) = first :: others
        /\ _repair_json rt raw = Ok (PList (first :: others))
        /\ Forall (fun v => is_dict v = true) (first :: others))
  \/ (exists snippet,
        first_success (strategies rt raw) = None
        /\ fragments (candidate raw) = []
        /\ _repair_json rt raw =
             Raise (ValueError (lit "JSON repair failed. Raw output: "
                                ++ repr_str rt snippet))
        /\ snippet = slice raw None (Some 300)
        /\ (List.length snippet <= 300)%nat)
  \/ (exists v, first_success (strategies rt raw) = Some v /\ is_list v = false).
Proof.
  intros rt raw. rewrite repair_json_chain. unfold fallback_chain.
  destruct (first_success (strategies rt raw)) as [v|].
  - destruct v as [| b | z | numeral | s | items | members];
      try (right; right; right; eexists; split; reflexivity).
    left. exists items. split; reflexivity.
  - right. pose proof (fragments_are_dicts (candidate raw)) as D.
    destruct (fragments (candidate raw)) as [|first others].
    + right. left. exists (slice raw None (Some 300)).
      repeat split. apply (slice_prefix_length _ raw 300). lia.
    + left. exists first, others. repeat split. exact D.
Qed.

(** ** The order of the floats *)

Module FloatFacts.

Import FloatOrder.

Lemma SFcompare_key : forall x y,
  match SFcompare x y, key x, key y with
  | Some Lt, Some a, Some b => lex_lt a b
  | Some Eq, Some a, Some b => a = b
  | Some Gt, Some a, Some b => lex_lt b a
  | None, None, _ | None, _, None => True
  | _, _, _ => False
  end.
Proof.
  intros x y.
  destruct x as [sx | sx | | sx mx ex], y as [sy | sy | | sy my ey];
    try destruct sx; try destruct sy; cbn [SFcompare key lex_lt];
    try exact I; try reflexivity; try lia.
  - destruct (Z.compare_spec ex ey) as [->|L|L]; cbn [lex_lt]; try lia.
    change (Pos.compare_cont Eq mx my) with (Pos.compare mx my).
    destruct (Pos.compare_spec mx my) as [->|K|K]; cbn [CompOpp lex_lt];
      [reflexivity | lia | lia].
  - destruct (Z.compare_spec ex ey) as [->|L|L]; cbn [lex_lt]; try lia.
    change (Pos.compare_cont Eq mx my) with (Pos.compare mx my).
    destruct (Pos.compare_spec mx my) as [->|K|K]; cbn [lex_lt];
      [reflexivity | lia | lia].
Qed.

Lemma leb_key : forall x y : float,
  (x <=? y)%float = true <->
  exists a b, key (Prim2SF x) = Some a /\ key (Prim2SF y) = Some b /\ lex_le a b.
Proof.
  intros x y. rewrite leb_spec. unfold SFleb.
  pose proof (SFcompare_key (Prim2SF x) (Prim2SF y)) as K.
  destruct (SFcompare (Prim2SF x) (Prim2SF y)) as [[| |]|],
    (key (Prim2SF x)) as [a|], (key (Prim2SF y)) as [b|];
    try contradiction; split; intro H; try discriminate H;
    try reflexivity;
    try (exists a, b; repeat split; unfold lex_le; auto; fail);
    try (destruct H as [a' [b' [Ha [Hb H]]]]; discriminate);
    destruct H as [a' [b' [Ha [Hb H]]]];
    injection Ha as <-; injection Hb as <-;
    destruct a as [[a1 a2] a3], b as [[b1 b2] b3];
    unfold lex_le, lex_lt in *;
    destruct H as [H|H]; [lia | injection H as -> -> ->; lia].
Qed.

Lemma ltb_key : forall x y : float,
  (x <? y)%float = true <->
  exists a b, key (Prim2SF x) = Some a /\ key (Prim2SF y) = Some b /\ lex_lt a b.
Proof.
  intros x y. rewrite ltb_spec. unfold SFltb.
  pose proof (SFcompare_key (Prim2SF x) (Prim2SF y)) as K.
  destruct (SFcompare (Prim2SF x) (Prim2SF y)) as [[| |]|],
    (key (Prim2SF x)) as [a|], (key (Prim2SF y)) as [b|];
    try contradiction; split; intro H; try discriminate H;
    try reflexivity;
    try (exists a, b; repeat split; auto; fail);
    try (destruct H as [a' [b' [Ha [Hb H]]]]; discriminate);
    destruct H as [a' [b' [Ha [Hb H]]]];
    injection Ha as <-; injection Hb as <-;
    destruct a as [[a1 a2] a3], b as [[b1 b2] b3];
    unfold lex_lt in *; try (injection K as -> -> ->); lia.
Qed.

(** The order of the floats is transitive. *)
Lemma leb_trans : forall x y z : float,
  (x <=? y)%float = true -> (y <=? z)%float = true -> (x <=? z)%float = true.
Proof.
  intros x y z H1 H2. apply leb_key in H1, H2. apply leb_key.
  destruct H1 as [a [b [Ha [Hb H1]]]], H2 as [b' [c [Hb' [Hc H2]]]].
  rewrite Hb in Hb'. injection Hb' as <-.
  exists a, c. split; [exact Ha|]. split; [exact Hc|].
  destruct a as [[a1 a2] a3], b as [[b1 b2] b3], c as [[c1 c2] c3].
  unfold lex_le, lex_lt in *.
  destruct H1 as [H1|H1], H2 as [H2|H2];
    try (injection H1 as -> -> ->); try (injection H2 as -> -> ->);
    auto; left; lia.
Qed.

(** Of two floats that are not NaN, one that is not greater than the
    other is less than it or equal to it. *)
Lemma not_gt_leb : forall x y a b : float,
  PyFloat.gt x y = false ->
  (a <=? x)%float = true -> (b <=? y)%float = true ->
  (x <=? y)%float = true.
Proof.
  intros x y a b G Hx Hy. unfold PyFloat.gt in G.
  apply leb_key in Hx, Hy. apply leb_key.
  destruct Hx as [ka [kx [_ [Kx _]]]], Hy as [kb [ky [_ [Ky _]]]].
  exists kx, ky. split; [exact Kx|]. split; [exact Ky|].
  assert (~ lex_lt ky kx) as N.
  { intro L. assert ((y <? x)%float = true) as T
      by (apply ltb_key; exists ky, kx; auto).
    rewrite T in G. discriminate G. }
  destruct kx as [[x1 x2] x3], ky as [[y1 y2] y3].
  unfold lex_le, lex_lt in *.
  destruct (Z.eq_dec x1 y1) as [->|E1]; [|left; lia].
  destruct (Z.eq_dec x2 y2) as [->|E2]; [|left; lia].
  destruct (Z.eq_dec x3 y3) as [->|E3]; [right; reflexivity | left; lia].
Qed.

(** *** Sums of floats that are not below zero

    The sum of two floats is the rounding of their exact sum; these
    lemmas follow the rounding through the kernel's specification of
    addition to show that a float does not get smaller when a float
    that is not below zero is added to it. *)

(** The number of binary digits of a positive number. *)
Lemma digits2_pos_bounds : forall p,
  2 ^ (Z.pos (digits2_pos p) - 1) <= Z.pos p < 2 ^ Z.pos (digits2_pos p).
Proof.
  induction p as [p IH | p IH |]; cbn [digits2_pos].
  - rewrite Pos2Z.inj_succ.
    replace (Z.succ (Z.pos (digits2_pos p)) - 1) with (Z.succ (Z.pos (digits2_pos p) - 1)) by lia.
    rewrite !Z.pow_succ_r by lia.
    generalize dependent (2 ^ (Z.pos (digits2_pos p) - 1)).
    generalize (2 ^ Z.pos (digits2_pos p)). intros; lia.
  - rewrite Pos2Z.inj_succ.
    replace (Z.succ (Z.pos (digits2_pos p)) - 1) with (Z.succ (Z.pos (digits2_pos p) - 1)) by lia.
    rewrite !Z.pow_succ_r by lia.
    generalize dependent (2 ^ (Z.pos (digits2_pos p) - 1)).
    generalize (2 ^ Z.pos (digits2_pos p)). intros; lia.
  - cbn. lia.
Qed.

Lemma digits2_pos_le : forall p q,
  Z.pos p <= Z.pos q -> Z.pos (digits2_pos p) <= Z.pos (digits2_pos q).
Proof.
  intros p q H.
  destruct (Z.le_gt_cases (Z.pos (digits2_pos p)) (Z.pos (digits2_pos q))) as [L|G];
    [exact L|].
  exfalso.
  pose proof (digits2_pos_bounds p) as [Hp _].
  pose proof (digits2_pos_bounds q) as [_ Hq].
  assert (2 ^ Z.pos (digits2_pos q) <= 2 ^ (Z.pos (digits2_pos p) - 1))
    by (apply Z.pow_le_mono_r; lia).
  lia.
Qed.

Lemma shr_1_m : forall mrs,
  0 <= shr_m mrs -> shr_m (shr_1 mrs) = shr_m mrs / 2.
Proof.
  intros [m r s] H. cbn [shr_m] in *. unfold shr_1.
  destruct m as [|[p|p|]|p]; cbn [shr_m]; try lia.
  - reflexivity.
  - apply Z.div_unique with 1; lia.
  - apply Z.div_unique with 0; lia.
  - reflexivity.
Qed.

Lemma iter_shr_1_m : forall n mrs,
  0 <= shr_m mrs ->
  shr_m (iter_pos shr_1 n mrs) = shr_m mrs / 2 ^ Z.pos n.
Proof.
  assert (forall mrs, 0 <= shr_m mrs -> 0 <= shr_m (shr_1 mrs)) as Pos1.
  { intros mrs H. rewrite shr_1_m by exact H. apply Z.div_pos; lia. }
  induction n as [n IH | n IH |]; intros mrs H; cbn [iter_pos].
  - rewrite IH, IH, shr_1_m; auto.
    2:{ rewrite IH by auto. apply Z.div_pos; [auto | lia]. }
    rewrite !Z.div_div by lia.
    f_equal. replace (Z.pos n~1) with (1 + Z.pos n + Z.pos n) by lia.
    rewrite !Z.pow_add_r by lia. change (2 ^ 1) with 2. ring.
  - rewrite IH, IH; auto.
    2:{ rewrite IH by auto. apply Z.div_pos; [auto | lia]. }
    rewrite !Z.div_div by lia.
    f_equal. replace (Z.pos n~0) with (Z.pos n + Z.pos n) by lia.
    rewrite !Z.pow_add_r by lia. reflexivity.
  - rewrite shr_1_m by exact H. reflexivity.
Qed.


Lemma fexp_eq : forall e, fexp prec emax e = Z.max (e - 53) (-1074).
Proof. reflexivity. Qed.

Lemma shr_record_of_loc_m : forall m l, shr_m (shr_record_of_loc m l) = m.
Proof. intros m [|[]]; reflexivity. Qed.

(** A shift to the exponent [fexp] asks for: nothing when the exponent
    is there already, else the mantissa loses its low bits. *)
Lemma shr_fexp_cases : forall m e l,
  0 <= m ->
  let n := fexp prec emax (Zdigits2 m + e) - e in
  (n <= 0 /\ shr_fexp prec emax m e l = (shr_record_of_loc m l, e))
  \/ (0 < n /\ exists mrs, shr_fexp prec emax m e l = (mrs, e + n)
                           /\ shr_m mrs = m / 2 ^ n).
Proof.
  intros m e l Hm n. unfold shr_fexp, shr. fold n.
  destruct n as [|p|p] eqn:E.
  - left. split; [lia | reflexivity].
  - right. split; [lia|]. eexists. split; [reflexivity|].
    rewrite iter_shr_1_m; rewrite shr_record_of_loc_m; [reflexivity | exact Hm].
  - left. split; [lia | reflexivity].
Qed.

(** A mantissa shifted to an exponent above the least one keeps 53
    bits. *)
Lemma kept_digits : forall p e,
  let t := fexp prec emax (Z.pos (digits2_pos p) + e) in
  -1074 < t -> 0 < t - e -> 2 ^ 52 <= Z.pos p / 2 ^ (t - e).
Proof.
  intros p e t Ht Hn. unfold t in *. rewrite fexp_eq in *.
  assert (Z.max (Z.pos (digits2_pos p) + e - 53) (-1074) - e
          = Z.pos (digits2_pos p) - 53) as -> by lia.
  apply Z.div_le_lower_bound; [apply Z.pow_pos_nonneg; lia|].
  rewrite <- Z.pow_add_r by lia.
  replace (Z.pos (digits2_pos p) - 53 + 52) with (Z.pos (digits2_pos p) - 1) by lia.
  apply digits2_pos_bounds.
Qed.

Lemma round_nearest_even_ge : forall m l, m <= round_nearest_even m l.
Proof.
  intros m [|[]]; cbn [round_nearest_even]; try destruct (Z.even m); lia.
Qed.

Lemma digits2_pos_shifted : forall p q k,
  0 <= k -> Z.pos p * 2 ^ k <= Z.pos q ->
  Z.pos (digits2_pos p) + k <= Z.pos (digits2_pos q).
Proof.
  intros p q k Hk H.
  pose proof (digits2_pos_bounds p) as [Hp _].
  pose proof (digits2_pos_bounds q) as [_ Hq].
  assert (2 ^ (Z.pos (digits2_pos p) - 1 + k) < 2 ^ Z.pos (digits2_pos q)) as L.
  { rewrite Z.pow_add_r by lia.
    assert (0 < 2 ^ k) by (apply Z.pow_pos_nonneg; lia).
    nia. }
  apply Z.pow_lt_mono_r_iff in L; lia.
Qed.

Lemma shr_fexp_nonneg : forall m e l,
  0 <= m -> 0 <= shr_m (fst (shr_fexp prec emax m e l)).
Proof.
  intros m e l Hm.
  destruct (shr_fexp_cases m e l Hm) as [[_ ->] | [Hn [mrs [-> E]]]]; cbn [fst].
  - rewrite shr_record_of_loc_m. exact Hm.
  - rewrite E. apply Z.div_pos; [exact Hm | apply Z.pow_pos_nonneg; lia].
Qed.

Lemma binary_round_aux_nonneg : forall m e l,
  0 <= m -> nonneg_sf (binary_round_aux prec emax false m e l).
Proof.
  intros m e l Hm. unfold binary_round_aux.
  pose proof (shr_fexp_nonneg m e l Hm) as H1.
  destruct (shr_fexp prec emax m e l) as [mrs' e']. cbn [fst] in H1.
  pose proof (round_nearest_even_ge (shr_m mrs') (loc_of_shr_record mrs')) as R.
  assert (0 <= round_nearest_even (shr_m mrs') (loc_of_shr_record mrs')) as R'
    by lia.
  pose proof (shr_fexp_nonneg _ e' loc_Exact R') as H2.
  destruct (shr_fexp prec emax _ e' loc_Exact) as [mrs'' e'']. cbn [fst] in H2.
  destruct (shr_m mrs'') as [|p|p]; [exact I | | lia].
  destruct (e'' <=? emax - prec); exact I.
Qed.

Lemma binary_round_nonneg : forall m e,
  nonneg_sf (binary_round prec emax false m e).
Proof.
  intros m e. unfold binary_round.
  destruct (shl_align m e _) as [mz ez].
  apply binary_round_aux_nonneg. lia.
Qed.

Lemma SFadd_nonneg : forall x y,
  nonneg_sf x -> nonneg_sf y -> nonneg_sf (SFadd prec emax x y).
Proof.
  intros [sx|[]| |[] mx ex] [sy|[]| |[] my ey] Hx Hy;
    try contradiction; cbn [SFadd nonneg_sf]; try exact I.
  - destruct sx, sy; exact I.
  - cbn [cond_Zopp Z.add]. cbn [binary_normalize]. apply binary_round_nonneg.
Qed.

Lemma SFmul_nonneg : forall x my ey,
  nonneg_sf x -> nonneg_sf (SFmul prec emax x (S754_finite false my ey)).
Proof.
  intros [sx|[]| |[] mx ex] my ey Hx; try contradiction;
    cbn [SFmul xorb nonneg_sf]; try exact I.
  apply binary_round_aux_nonneg. lia.
Qed.

Lemma shl_align_spec : forall m e e' m' e'',
  shl_align m e e' = (m', e'') ->
  e'' <= e /\ Z.pos m' = Z.pos m * 2 ^ (e - e'') /\ (e' <= e -> e'' = e').
Proof.
  intros m e e' m' e'' H. unfold shl_align in H.
  destruct (e' - e) as [|d|d] eqn:E; injection H as <- <-.
  - rewrite Z.sub_diag. cbn. lia.
  - rewrite Z.sub_diag. cbn. lia.
  - split; [lia|]. split; [|reflexivity].
    replace (e - e') with (Z.pos d) by lia.
    clear E. revert m. induction d using Pos.peano_ind; intro m.
    + cbn [Pos.iter]. change (2 ^ 1) with 2. lia.
    + rewrite Pos.iter_succ, Pos2Z.inj_succ, Z.pow_succ_r by lia.
      change (Z.pos (Pos.iter xO m d)~0) with (2 * Z.pos (Pos.iter xO m d)).
      rewrite IHd. ring.
Qed.

(** What the rounding of [m * 2^e] is, when [m * 2^e] is not below the
    float [mx * 2^ex]: infinity, or a float of a greater exponent, or
    one of the same exponent and a mantissa that is not less. *)
Lemma binary_round_aux_lower : forall m e mx ex,
  fexp prec emax (Z.pos (digits2_pos mx) + ex) = ex ->
  e <= ex -> Z.pos mx * 2 ^ (ex - e) <= Z.pos m ->
  binary_round_aux prec emax false (Z.pos m) e loc_Exact = S754_infinity false
  \/ exists m2 e2,
       binary_round_aux prec emax false (Z.pos m) e loc_Exact
       = S754_finite false m2 e2
       /\ (ex < e2 \/ (e2 = ex /\ Z.pos mx <= Z.pos m2)).
Proof.
  intros m e mx ex Hc He Hm.
  pose proof (digits2_pos_shifted mx m (ex - e) ltac:(lia) Hm) as Hd.
  assert (ex <= fexp prec emax (Z.pos (digits2_pos m) + e)) as Ht
    by (rewrite fexp_eq in *; lia).
  assert (-1074 <= ex) as Hex by (rewrite fexp_eq in Hc; lia).
  (* the mantissa and exponent after the first shift *)
  assert (exists m1 l1 e1,
            shr_fexp prec emax (Z.pos m) e loc_Exact = (m1, e1)
            /\ l1 = loc_of_shr_record m1
            /\ 1 <= shr_m m1 /\ ex <= e1
            /\ (e1 = ex -> Z.pos mx <= shr_m m1)) as S1.
  { destruct (shr_fexp_cases (Z.pos m) e loc_Exact ltac:(lia))
      as [[Hn ->] | [Hn [mrs [-> E]]]]; cbn [Zdigits2] in Hn.
    - eexists. eexists. eexists. split; [reflexivity|]. split; [reflexivity|].
      cbn [shr_record_of_loc shr_m]. split; [lia|]. split; [lia|].
      intros ->. rewrite Z.sub_diag in Hm. cbn in Hm. lia.
    - eexists. eexists. eexists. split; [reflexivity|]. split; [reflexivity|].
      cbn [Zdigits2] in E |- *. rewrite E.
      set (t := fexp prec emax (Z.pos (digits2_pos m) + e)) in *.
      assert (ex = t \/ ex < t) as [Heq | Hlt] by lia.
      + subst ex.
        assert (Z.pos mx <= Z.pos m / 2 ^ (t - e)) as K.
        { apply Z.div_le_lower_bound; [apply Z.pow_pos_nonneg; lia | lia]. }
        split; [lia|]. split; [lia|]. intros _. exact K.
      + pose proof (kept_digits m e ltac:(fold t; lia) ltac:(fold t; lia)) as K.
        fold t in K. assert (1 <= 2 ^ 52) by (cbn; lia).
        split; [lia|]. split; [lia|]. intro; lia. }
  destruct S1 as [m1 [l1 [e1 [E1 [El [Hm1 [He1 Hs1]]]]]]].
  unfold binary_round_aux. rewrite E1. rewrite <- El.
  pose proof (round_nearest_even_ge (shr_m m1) l1) as R.
  set (mr := round_nearest_even (shr_m m1) l1) in *.
  destruct mr as [|pr|pr] eqn:Emr; try lia.
  destruct (shr_fexp_cases (Z.pos pr) e1 loc_Exact ltac:(lia))
    as [[Hn ->] | [Hn [mrs [-> E]]]]; cbn [Zdigits2] in Hn.
  - cbn [shr_record_of_loc shr_m].
    destruct (e1 <=? emax - prec); [right | left; reflexivity].
    exists pr, e1. split; [reflexivity|].
    assert (ex = e1 \/ ex < e1) as [Heq | Hlt] by lia; [right | left; exact Hlt].
    split; [lia|]. specialize (Hs1 (eq_sym Heq)). lia.
  - cbn [Zdigits2] in E |- *.
    set (t := fexp prec emax (Z.pos (digits2_pos pr) + e1)) in *.
    pose proof (kept_digits pr e1 ltac:(fold t; lia) ltac:(fold t; lia)) as K.
    fold t in K. rewrite <- E in K. assert (1 <= 2 ^ 52) by (cbn; lia).
    destruct (shr_m mrs) as [|p2|p2]; try lia.
    destruct (e1 + (t - e1) <=? emax - prec); [right | left; reflexivity].
    exists p2, (e1 + (t - e1)). split; [reflexivity|]. left. lia.
Qed.

Lemma SFleb_refl : forall x, nonneg_sf x -> SFleb x x = true.
Proof.
  intros [s|[]| |[] m e] H; try contradiction; unfold SFleb; cbn [SFcompare];
    try reflexivity.
  rewrite Z.compare_refl.
  change (Pos.compare_cont Eq m m) with (Pos.compare m m).
  rewrite Pos.compare_refl. reflexivity.
Qed.

(** Adding a float that is not below zero to a float that is in its
    canonical form and not below zero gives no less. *)
Lemma SFadd_ge : forall x y,
  valid_binary x = true -> nonneg_sf x -> nonneg_sf y ->
  SFleb x (SFadd prec emax x y) = true.
Proof.
  intros x y V Hx Hy.
  destruct x as [sx|[]| |[] mx ex]; try contradiction.
  - (* zero *)
    destruct y as [sy|[]| |[] my ey]; try contradiction; cbn [SFadd].
    + destruct sx, sy; reflexivity.
    + reflexivity.
    + reflexivity.
  - (* infinity *)
    destruct y as [sy|[]| |[] my ey]; try contradiction; reflexivity.
  - destruct y as [sy|[]| |[] my ey]; try contradiction; cbn [SFadd].
    + apply SFleb_refl. exact I.
    + reflexivity.
    + cbn [SpecFloat.valid_binary] in V. unfold bounded, canonical_mantissa in V.
      apply andb_true_iff in V. destruct V as [V _]. apply Z.eqb_eq in V.
      cbn [cond_Zopp].
      destruct (shl_align mx ex (Z.min ex ey)) as [ax ez1] eqn:Ax.
      destruct (shl_align my ey (Z.min ex ey)) as [ay ez2] eqn:Ay.
      cbn [fst Z.add binary_normalize].
      apply shl_align_spec in Ax. destruct Ax as [_ [Ax Ex]].
      specialize (Ex ltac:(lia)). subst ez1.
      unfold binary_round.
      destruct (shl_align (ax + ay) (Z.min ex ey) _) as [mz ez] eqn:Az.
      apply shl_align_spec in Az. destruct Az as [Le [Az _]].
      assert (Z.pos mx * 2 ^ (ex - ez) <= Z.pos mz) as Hm.
      { rewrite Az, Pos2Z.inj_add, Ax.
        replace (ex - ez) with ((ex - Z.min ex ey) + (Z.min ex ey - ez)) by lia.
        rewrite Z.pow_add_r by lia.
        assert (0 < 2 ^ (Z.min ex ey - ez)) by (apply Z.pow_pos_nonneg; lia).
        assert (0 < 2 ^ (ex - Z.min ex ey)) by (apply Z.pow_pos_nonneg; lia).
        nia. }
      destruct (binary_round_aux_lower mz ez mx ex V ltac:(lia) Hm)
        as [-> | [m2 [e2 [-> [L | [-> L]]]]]]; unfold SFleb; cbn [SFcompare].
      * reflexivity.
      * apply Z.compare_lt_iff in L. rewrite L. reflexivity.
      * rewrite Z.compare_refl.
        change (Pos.compare_cont Eq mx m2) with (Pos.compare mx m2).
        destruct (Pos.compare_spec mx m2); try reflexivity. lia.
Qed.

(** In terms of the floats of the program *)

Lemma nonneg_spec : forall x, nonneg x <-> nonneg_sf (Prim2SF x).
Proof.
  intro x. unfold nonneg. rewrite leb_spec.
  change (Prim2SF 0) with (S754_zero false).
  destruct (Prim2SF x) as [s|[]| |[] m e]; unfold SFleb; cbn; intuition discriminate.
Qed.

Lemma add_nonneg : forall x y, nonneg x -> nonneg y -> nonneg (x + y)%float.
Proof.
  intros x y Hx Hy. apply nonneg_spec in Hx, Hy. apply nonneg_spec.
  rewrite add_spec. apply SFadd_nonneg; assumption.
Qed.

Lemma mul_nonneg : forall x y m e,
  nonneg x -> Prim2SF y = S754_finite false m e -> nonneg (x * y)%float.
Proof.
  intros x y m e Hx Hy. apply nonneg_spec in Hx. apply nonneg_spec.
  rewrite mul_spec, Hy. apply SFmul_nonneg. exact Hx.
Qed.

Lemma of_uint63_nonneg : forall n, nonneg (of_uint63 n).
Proof.
  intro n. apply nonneg_spec. rewrite of_uint63_spec.
  pose proof (Uint63.to_Z_bounded n) as B.
  destruct (Uint63.to_Z n) as [|p|p]; cbn [binary_normalize]; [exact I | | lia].
  apply binary_round_nonneg.
Qed.

Lemma leb_add : forall x h, nonneg x -> nonneg h -> (x <=? x + h)%float = true.
Proof.
  intros x h Hx Hh. apply nonneg_spec in Hx, Hh.
  rewrite leb_spec, add_spec.
  apply SFadd_ge; [apply Prim2SF_valid | assumption | assumption].
Qed.

End FloatFacts.

(** ** The layout *)

Section LayoutProperties.

Variable rt : runtime.

Lemma quote_texts_placed : forall page tx lines ty,
  Forall (placed page) (fst (quote_texts tx ty lines)).
Proof.
  induction lines as [|ql rest IH]; intro ty; simpl; [constructor|].
  specialize (IH (ty + LH_QT)%float).
  destruct (quote_texts tx (ty + LH_QT)%float rest) as [ops ty'].
  simpl in *. constructor; [|exact IH].
  simpl. right. left. reflexivity.
Qed.

Lemma body_texts_placed : forall page tx bottom lines ty,
  Forall (placed page) (body_texts tx ty bottom lines).
Proof.
  induction lines as [|al rest IH]; intro ty; simpl; [constructor|].
  destruct (PyFloat.gt _ _); constructor; [|apply IH].
  simpl. right. right. left. reflexivity.
Qed.

(** The two lines of the source that place a box. *)
Lemma place_top_or_fits : forall page margin_y box_h,
  place page margin_y box_h = 14%float
  \/ PyFloat.gt (place page margin_y box_h + box_h)%float (height page - 12)%float
     = false.
Proof.
  intros page margin_y box_h. unfold place, ph.
  destruct (PyFloat.gt (margin_y + box_h)%float (height page - 12)%float) eqn:E.
  - left. reflexivity.
  - right. exact E.
Qed.

Lemma draw_ann_placed :
  forall page chars margin_y accent fill label quote text themes hits,
  Forall (placed page)
    (fst (draw_ann rt page chars margin_y accent fill label quote text themes
            hits)).
Proof.
  intros. unfold draw_ann. cbv zeta. cbn [fst].
  apply Forall_app. split.
  - apply Forall_forall. intros op H. apply in_map_iff in H.
    destruct H as [r [<- _]]. exact I.
  - constructor; [cbn [placed y0 y1]; apply place_top_or_fits|].
    constructor; [exact I|].
    constructor; [simpl; left; reflexivity|].
    apply Forall_app. split; [apply quote_texts_placed|].
    apply Forall_app. split; [apply body_texts_placed|].
    destruct (join _ _); constructor; [|constructor].
    simpl. right. right. right. left. reflexivity.
Qed.

Lemma render_ann_placed : forall page chars margin_y ann ops next,
  render_ann rt page chars margin_y ann = Ok (ops, next) ->
  Forall (placed page) ops.
Proof.
  intros page chars margin_y ann ops next H. unfold render_ann in H.
  cbv zeta in H.
  apply bind_ok in H. destruct H as [quote [_ H]].
  apply bind_ok in H. destruct H as [text [_ H]].
  apply bind_ok in H. destruct H as [accent [_ H]].
  apply bind_ok in H. destruct H as [fill [_ H]].
  apply bind_ok in H. destruct H as [label [_ H]].
  apply bind_ok in H. destruct H as [hits [_ H]].
  apply Ok_inj in H.
  pose proof (draw_ann_placed page chars margin_y accent fill label quote text
                (get_themes ann) hits) as K.
  rewrite H in K. exact K.
Qed.

Lemma render_anns_placed : forall page chars anns margin_y ops,
  render_anns rt page chars margin_y anns = Ok ops ->
  Forall (placed page) ops.
Proof.
  induction anns as [|ann rest IH]; intros margin_y ops H; cbn [render_anns] in H.
  - injection H as <-. constructor.
  - destruct (render_ann rt page chars margin_y ann) as [[ops1 next]|] eqn:E;
      [|discriminate H].
    cbn [bind snd fst] in H.
    destruct (render_anns rt page chars next rest) as [ops2|] eqn:E2;
      [|discriminate H].
    cbn [bind] in H. injection H as <-.
    apply Forall_app. split.
    + exact (render_ann_placed _ _ _ _ _ _ E).
    + exact (IH _ _ E2).
Qed.

Lemma render_page_placed : forall page anns ops,
  render_page rt page anns = Ok ops -> Forall (placed page) ops.
Proof.
  intros page anns ops H. unfold render_page in H.
  destruct (CHARS page) as [chars|]; [|discriminate H]. cbn [bind] in H.
  destruct (render_anns rt page chars 14%float anns) as [ops1|] eqn:E;
    [|discriminate H].
  cbn [bind] in H. injection H as <-.
  constructor; [exact I|]. exact (render_anns_placed _ _ _ _ _ E).
Qed.

Lemma render_page_separator : forall page anns ops,
  render_page rt page anns = Ok ops -> In (separator page) ops.
Proof.
  intros page anns ops H. unfold render_page in H.
  destruct (CHARS page) as [chars|]; [|discriminate H]. cbn [bind] in H.
  destruct (render_anns rt page chars 14%float anns) as [ops1|];
    [|discriminate H].
  cbn [bind] in H. injection H as <-. left. reflexivity.
Qed.

Lemma backgrounds_app : forall a b,
  backgrounds (a ++ b) = backgrounds a ++ backgrounds b.
Proof.
  induction a as [|op a IH]; intro b; simpl; [reflexivity|].
  destruct op as [| [] | ]; simpl; rewrite IH; reflexivity.
Qed.

Lemma backgrounds_highlights : forall fill accent rects,
  backgrounds (map (highlight fill accent) rects) = [].
Proof. induction rects; simpl; auto. Qed.

Lemma backgrounds_quote_texts : forall tx lines ty,
  backgrounds (fst (quote_texts tx ty lines)) = [].
Proof.
  induction lines as [|ql rest IH]; intro ty; simpl; [reflexivity|].
  specialize (IH (ty + LH_QT)%float).
  destruct (quote_texts tx (ty + LH_QT)%float rest) as [ops ty'].
  simpl in *. exact IH.
Qed.

Lemma backgrounds_body_texts : forall tx bottom lines ty,
  backgrounds (body_texts tx ty bottom lines) = [].
Proof.
  induction lines as [|al rest IH]; intro ty; simpl; [reflexivity|].
  destruct (PyFloat.gt _ _); simpl; auto.
Qed.

(** One annotation gives one box, placed by [place] from the cursor, and
    leaves the cursor 3.5 below it. *)
Lemma draw_ann_box :
  forall page chars margin_y accent fill label quote text themes hits,
  exists box h,
    backgrounds (fst (draw_ann rt page chars margin_y accent fill label quote
                        text themes hits)) = [box]
    /\ y0 box = place page margin_y h
    /\ y1 box = (y0 box + h)%float
    /\ snd (draw_ann rt page chars margin_y accent fill label quote text themes
              hits)
       = (y1 box + 3.5)%float.
Proof.
  intros. unfold draw_ann. cbv zeta. cbn [fst snd].
  eexists. eexists. split; [|split; [|split]].
  - rewrite backgrounds_app, backgrounds_highlights.
    cbn [app backgrounds]. f_equal.
    rewrite !backgrounds_app, backgrounds_quote_texts, backgrounds_body_texts.
    destruct (join _ _); reflexivity.
  - reflexivity.
  - reflexivity.
  - reflexivity.
Qed.

(** The lengths the program turns into floats are not below zero. *)
Lemma of_Z_len_nonneg : forall (A : Type) (l : list A),
  FloatOrder.nonneg (PyFloat.of_Z (len l)).
Proof.
  intros A l. unfold PyFloat.of_Z.
  assert ((len l <? 0) = false) as -> by (apply Z.ltb_ge; unfold len; lia).
  apply FloatFacts.of_uint63_nonneg.
Qed.

(** The height of a box is a sum of terms that are not below zero: the
    padding, the label, one line height for each line of the quote and
    of the note, and the two gaps. *)
Lemma box_height_nonneg :
  forall (A B : Type) (quote_lines : list A) (ann_lines : list B)
         (gap tags : float),
  FloatOrder.nonneg gap -> FloatOrder.nonneg tags ->
  FloatOrder.nonneg
    (BOX_PAD * 2 + FS_LBL + 2.5
     + PyFloat.of_Z (len quote_lines) * LH_QT + gap
     + PyFloat.of_Z (len ann_lines) * LH_TX + tags)%float.
Proof.
  intros A B quote_lines ann_lines gap tags Hg Ht.
  repeat apply FloatFacts.add_nonneg; try assumption;
    try (vm_compute; reflexivity).
  - apply (FloatFacts.mul_nonneg _ LH_QT 4755801206503244 (-49));
      [apply of_Z_len_nonneg | vm_compute; reflexivity].
  - apply (FloatFacts.mul_nonneg _ LH_TX 5282722362905592 (-49));
      [apply of_Z_len_nonneg | vm_compute; reflexivity].
Qed.

(** One annotation gives one box, placed by [place] from the cursor,
    of a height that is not below zero. *)
Lemma draw_ann_box_height :
  forall page chars margin_y accent fill label quote text themes hits,
  exists box h,
    backgrounds (fst (draw_ann rt page chars margin_y accent fill label quote
                        text themes hits)) = [box]
    /\ y0 box = place page margin_y h
    /\ y1 box = (y0 box + h)%float
    /\ snd (draw_ann rt page chars margin_y accent fill label quote text themes
              hits)
       = (y1 box + 3.5)%float
    /\ FloatOrder.nonneg h.
Proof.
  intros. unfold draw_ann. cbv zeta. cbn [fst snd].
  eexists. eexists. split; [|split; [|split; [|split]]].
  - rewrite backgrounds_app, backgrounds_highlights.
    cbn [app backgrounds]. f_equal.
    rewrite !backgrounds_app, backgrounds_quote_texts, backgrounds_body_texts.
    destruct (join _ _); reflexivity.
  - reflexivity.
  - reflexivity.
  - reflexivity.
  - apply box_height_nonneg.
    + destruct (match quote with [] => [] | _ => _ end);
        vm_compute; reflexivity.
    + destruct (join _ _); vm_compute; reflexivity.
Qed.

(** From a cursor that is not below zero, no box is upside down: its
    bottom edge, the top plus the height, is not above its top. *)
Lemma render_anns_upright : forall page chars anns margin_y ops,
  FloatOrder.nonneg margin_y ->
  render_anns rt page chars margin_y anns = Ok ops ->
  Forall upright (backgrounds ops).
Proof.
  induction anns as [|ann rest IH]; intros margin_y ops M H;
    cbn [render_anns] in H.
  - apply Ok_inj in H. subst ops. constructor.
  - apply bind_ok in H. destruct H as [[ops1 next] [E H]].
    apply bind_ok in H. destruct H as [ops2 [E2 H]].
    apply Ok_inj in H. cbn [fst snd] in *. subst ops.
    unfold render_ann in E. cbv zeta in E.
    apply bind_ok in E. destruct E as [quote [_ E]].
    apply bind_ok in E. destruct E as [text [_ E]].
    apply bind_ok in E. destruct E as [accent [_ E]].
    apply bind_ok in E. destruct E as [fill [_ E]].
    apply bind_ok in E. destruct E as [label [_ E]].
    apply bind_ok in E. destruct E as [hits [_ E]].
    apply Ok_inj in E.
    destruct (draw_ann_box_height page chars margin_y accent fill label quote
                text (get_themes ann) hits) as [box [h [B [T [Y [N P]]]]]].
    rewrite E in B, N. cbn [fst snd] in B, N.
    assert (FloatOrder.nonneg (y0 box)) as Top.
    { rewrite T. unfold place. destruct (PyFloat.gt _ _); [reflexivity | exact M]. }
    rewrite backgrounds_app, B. cbn [app].
    constructor.
    + unfold upright. rewrite Y. exact (FloatFacts.leb_add _ _ Top P).
    + apply (IH next ops2); [|exact E2].
      rewrite N, Y.
      apply FloatFacts.add_nonneg;
        [exact (FloatFacts.add_nonneg _ _ Top P) | reflexivity].
Qed.

Lemma render_page_upright : forall page anns ops,
  render_page rt page anns = Ok ops -> Forall upright (backgrounds ops).
Proof.
  intros page anns ops H. unfold render_page in H.
  apply bind_ok in H. destruct H as [chars [_ H]].
  apply bind_ok in H. destruct H as [ops1 [E H]].
  apply Ok_inj in H. subst ops. cbn [backgrounds separator].
  apply (render_anns_upright page chars anns 14%float); [reflexivity | exact E].
Qed.

Lemma render_anns_follow_cursor : forall page chars anns margin_y ops,
  render_anns rt page chars margin_y anns = Ok ops ->
  follows_cursor (height page) margin_y (backgrounds ops).
Proof.
  induction anns as [|ann rest IH]; intros margin_y ops H; cbn [render_anns] in H.
  - apply Ok_inj in H. subst ops. exact I.
  - apply bind_ok in H. destruct H as [[ops1 next] [E H]].
    apply bind_ok in H. destruct H as [ops2 [E2 H]].
    apply Ok_inj in H. cbn [fst snd] in *. subst ops.
    unfold render_ann in E. cbv zeta in E.
    apply bind_ok in E. destruct E as [quote [_ E]].
    apply bind_ok in E. destruct E as [text [_ E]].
    apply bind_ok in E. destruct E as [accent [_ E]].
    apply bind_ok in E. destruct E as [fill [_ E]].
    apply bind_ok in E. destruct E as [label [_ E]].
    apply bind_ok in E. destruct E as [hits [_ E]].
    apply Ok_inj in E.
    destruct (draw_ann_box page chars margin_y accent fill label quote text
                (get_themes ann) hits) as [box [h [B [T [Y N]]]]].
    rewrite E in B, N. cbn [fst snd] in B, N.
    rewrite backgrounds_app, B. cbn [app follows_cursor]. split.
    + exists h. split; [exact Y|]. rewrite T. reflexivity.
    + rewrite <- N. exact (IH _ _ E2).
Qed.

Lemma render_page_follows_cursor : forall page anns ops,
  render_page rt page anns = Ok ops ->
  follows_cursor (height page) 14%float (backgrounds ops).
Proof.
  intros page anns ops H. unfold render_page in H.
  apply bind_ok in H. destruct H as [chars [_ H]].
  apply bind_ok in H. destruct H as [ops1 [E H]].
  apply Ok_inj in H. subst ops. cbn [backgrounds separator].
  exact (render_anns_follow_cursor _ _ _ _ _ E).
Qed.

(** What [render_groups] does with one group, by cases. *)
Lemma render_groups_step : forall doc page_num anns rest out,
  render_groups rt doc ((page_num, anns) :: rest) = Ok out ->
  exists n more, page_num = PInt n
    /\ render_groups rt doc rest = Ok more
    /\ ((n < 1 \/ len doc < n) /\ out = more
        \/ exists page ops,
             1 <= n <= len doc
             /\ nth_error doc (Z.to_nat (n - 1)) = Some page
             /\ render_page rt page anns = Ok ops
             /\ out = map (pair (n - 1)) ops ++ more).
Proof.
  intros doc page_num anns rest out H. cbn [render_groups] in H.
  destruct page_num; try discriminate H. cbn [page_index bind] in H.
  exists z.
  destruct ((z - 1 <? 0) || (z - 1 >=? len doc)) eqn:R.
  - exists out. split; [reflexivity|]. split; [exact H|]. left.
    split; [|reflexivity].
    apply orb_true_iff in R. destruct R as [R|R].
    + apply Z.ltb_lt in R. lia.
    + rewrite Z.geb_leb in R. apply Z.leb_le in R. lia.
  - apply orb_false_iff in R. destruct R as [R1 R2].
    apply Z.ltb_ge in R1. rewrite Z.geb_leb in R2. apply Z.leb_gt in R2.
    destruct (nth_error doc (Z.to_nat (z - 1))) as [page|] eqn:N.
    2:{ apply nth_error_None in N. unfold len in R2. lia. }
    destruct (render_page rt page anns) as [ops|] eqn:P; [|discriminate H].
    cbn [bind] in H.
    destruct (render_groups rt doc rest) as [more|] eqn:G; [|discriminate H].
    cbn [bind] in H. injection H as <-.
    exists more. split; [reflexivity|]. split; [reflexivity|]. right.
    exists page, ops. repeat split; try lia; auto.
Qed.

Lemma render_groups_placed : forall doc groups out,
  render_groups rt doc groups = Ok out ->
  forall idx op, In (idx, op) out ->
  exists page n anns,
    In (PInt n, anns) groups /\ idx = n - 1 /\ 1 <= n <= len doc
    /\ nth_error doc (Z.to_nat idx) = Some page /\ placed page op.
Proof.
  induction groups as [|[page_num anns] rest IH]; intros out H idx op Hin.
  - cbn [render_groups] in H. injection H as <-. destruct Hin.
  - apply render_groups_step in H.
    destruct H as [n [more [-> [G [[_ ->] | [page [ops [Hn [N [P ->]]]]]]]]]].
    + destruct (IH more G idx op Hin) as [page [m [a [H1 H2]]]].
      exists page, m, a. split; [right; exact H1 | exact H2].
    + apply in_app_or in Hin. destruct Hin as [Hin|Hin].
      * apply in_map_iff in Hin. destruct Hin as [op' [E Hop]].
        injection E as <- ->.
        exists page, n, anns. split; [left; reflexivity|].
        repeat split; try lia; auto.
        apply render_page_placed in P. rewrite Forall_forall in P. auto.
      * destruct (IH more G idx op Hin) as [page' [m [a [H1 H2]]]].
        exists page', m, a. split; [right; exact H1 | exact H2].
Qed.

Lemma render_groups_draws : forall doc groups out,
  render_groups rt doc groups = Ok out ->
  forall n anns, In (PInt n, anns) groups -> 1 <= n <= len doc ->
  exists page ops, nth_error doc (Z.to_nat (n - 1)) = Some page
                   /\ render_page rt page anns = Ok ops
                   /\ forall op, In op ops -> In (n - 1, op) out.
Proof.
  induction groups as [|[page_num anns0] rest IH]; intros out H n anns Hin Hn.
  - destruct Hin.
  - apply render_groups_step in H.
    destruct H as [m [more [-> [G Hcase]]]].
    destruct Hin as [E|Hin].
    + injection E as -> ->.
      destruct Hcase as [[Hout _] | [page [ops [_ [N [P ->]]]]]]; [lia|].
      exists page, ops. split; [exact N|]. split; [exact P|].
      intros op Hop. apply in_or_app. left.
      apply in_map. exact Hop.
    + destruct (IH more G n anns Hin Hn) as [page [ops [N [P Hops]]]].
      exists page, ops. split; [exact N|]. split; [exact P|].
      intros op Hop. specialize (Hops op Hop).
      destruct Hcase as [[_ ->] | [page' [ops' [_ [_ [_ ->]]]]]]; [exact Hops|].
      apply in_or_app. right. exact Hops.
Qed.

(** Where the boxes follow the cursor on a page whose top inset is not
    below its bottom inset, every box that is not upside down has its
    top at or above the bottom inset. *)
Lemma follows_cursor_top_within : forall page boxes cursor,
  tall_enough page ->
  follows_cursor (height page) cursor boxes ->
  Forall upright boxes ->
  Forall (top_within page) boxes.
Proof.
  intros page boxes cursor T. revert cursor.
  induction boxes as [|b rest IH]; intros cursor F U; [constructor|].
  destruct F as [[h [Y1 Y0]] F]. inversion U as [|x l Ub Urest]; subst.
  constructor; [|exact (IH _ F Urest)].
  unfold top_within, upright, tall_enough in *.
  destruct (PyFloat.gt (cursor + h) (height page - 12)) eqn:G.
  - rewrite Y0. exact T.
  - rewrite Y0 in Y1, Ub |- *. rewrite Y1 in Ub.
    apply (FloatFacts.leb_trans _ _ _ Ub).
    exact (FloatFacts.not_gt_leb _ _ _ _ G Ub T).
Qed.

(** C6, as amended.  Whatever [_render_pdf] draws is drawn on a page of
    the document, the page of its group; no box goes to another page,
    and every run of text keeps one of the four fixed font sizes.  For
    each group whose page is in the document, the boxes follow the
    vertical cursor from the top inset 14: a box that would extend past
    the bottom inset at the cursor is drawn from the top inset instead.
    No box is upside down, its height being a sum of terms that are not
    below zero.  So on a page whose top inset is not below its bottom
    inset, which is a page at least 26 units high, every box has its
    top at or above the bottom inset, in the order of the floats the
    code compares with. *)
Theorem boxes_start_at_top_or_fit : forall file_id pdf groups out,
  _render_pdf rt file_id pdf groups = Ok out ->
  exists doc,
    pdf = Ok doc
    /\ (forall idx op, In (idx, op) (changes out) ->
          exists page n anns,
            In (PInt n, anns) groups /\ idx = n - 1 /\ 1 <= n <= len doc
            /\ nth_error doc (Z.to_nat idx) = Some page
            /\ placed page op)
    /\ (forall n anns, In (PInt n, anns) groups -> 1 <= n <= len doc ->
          exists page ops,
            nth_error doc (Z.to_nat (n - 1)) = Some page
            /\ render_page rt page anns = Ok ops
            /\ (forall op, In op ops -> In (n - 1, op) (changes out))
            /\ follows_cursor (height page) 14%float (backgrounds ops)
            /\ Forall upright (backgrounds ops)
            /\ (tall_enough page ->
                Forall (top_within page) (backgrounds ops))).
Proof.
  intros file_id pdf groups out H. unfold _render_pdf in H.
  destruct pdf as [doc|]; [|discriminate H]. cbn [bind] in H.
  apply bind_ok in H. destruct H as [drawn [H E]].
  apply Ok_inj in E. subst out. cbn [changes].
  exists doc. split; [reflexivity|]. split.
  - exact (render_groups_placed doc groups drawn H).
  - intros n anns Hin Hn.
    destruct (render_groups_draws doc groups drawn H n anns Hin Hn)
      as [page [ops [N [P Hops]]]].
    exists page, ops. repeat split; auto.
    + exact (render_page_follows_cursor _ _ _ P).
    + exact (render_page_upright _ _ _ P).
    + intro T.
      exact (follows_cursor_top_within page _ _ T
               (render_page_follows_cursor _ _ _ P)
               (render_page_upright _ _ _ P)).
Qed.

End LayoutProperties.

(** C6, at the low page, 100 units high: the third of three notes does
    not fit below the second and is drawn from the top inset; the page
    is high enough, no box is upside down, and every box has its top
    above the bottom inset at 88. *)
Lemma third_box_restarts_at_the_top :
  tall_enough low_page
  /\ Forall upright (map snd (background_boxes three_boxes))
  /\ Forall (top_within low_page) (map snd (background_boxes three_boxes))
  /\ follows_cursor (height low_page) 14%float
       (map snd (background_boxes three_boxes)).
Proof.
  destruct (boxes_start_at_top_or_fit example_runtime 0 (Ok [low_page])
              three_notes {| changes := three_boxes; trailer_id := 0 |}
              eq_refl) as [doc [E [_ G]]].
  injection E as <-.
  destruct (G 1 [hello_note; hello_note; hello_note] (or_introl eq_refl))
    as [page [ops [N [P [_ [F [U T]]]]]]].
  { vm_compute. split; discriminate. }
  injection N as <-.
  assert (Ok ops = Ok (map snd three_boxes)) as O
    by (rewrite <- P; vm_compute; reflexivity).
  injection O as ->.
  assert (tall_enough low_page) as Tall by (vm_compute; reflexivity).
  split; [exact Tall|]. split; [exact U|].
  split; [exact (T Tall) | exact F].
Defined.

(** The three boxes of the low page: the page is high enough, no box is
    upside down, and the tops are 14, 43.18 and 14 again, all above the
    bottom inset at 88. *)
Example three_boxes_tops :
  tall_enough low_page
  /\ Forall upright (map snd (background_boxes three_boxes))
  /\ map (fun b => (y0 (snd b), y1 (snd b))) (background_boxes three_boxes)
     = [ (14, 39.683999999999997);
         (43.183999999999997, 68.867999999999995);
         (14, 39.683999999999997) ]%float.
Proof.
  split; [vm_compute; reflexivity|]. split; [|vm_compute; reflexivity].
  repeat constructor.
Qed.

(** C6, the claim as stated fails.  On a page 20 units high the bottom
    inset is at 8; the one box is drawn with its top at 14, below it. *)
Lemma box_below_the_bottom_inset_of_a_tiny_page :
  match _render_pdf example_runtime 0 (Ok [tiny_page]) [(PInt 1, [hello_note])] with
  | Ok out => map (fun b => y0 (snd b)) (background_boxes (changes out))
  | Raise _ => []
  end = [14%float]
  /\ (14 <=? height tiny_page - 12)%float = false
  /\ (height tiny_page - 12)%float = 8%float.
Proof. repeat split; vm_compute; reflexivity. Qed.

(** ** The render call *)

(** The integers [int] reads. *)
Example py_int_reads :
  map (py_int example_runtime)
    [lit "12"; lit " -7 "; lit "+1_000"; lit "007"]
  = [Ok 12; Ok (-7); Ok 1000; Ok 7]
  /\ map (py_int example_runtime) [lit "abc"; lit "1__0"; lit "- 1"; lit " "]
     = map (fun s => Raise (ValueError
                              (lit "invalid literal for int() with base 10: '"
                               ++ s ++ lit "'")))
         [lit "abc"; lit "1__0"; lit "- 1"; lit " "].
Proof. split; vm_compute; reflexivity. Qed.

(** C10, as amended.  The response of [build_pdf] does not depend on
    the page range of the request, for the range fields the view
    accepts: for the same document and the same annotation list, any
    two pairs of range fields that [int] reads (or that are absent or
    empty) give the same response, rendered output included; and what
    is rendered is the same whatever file identifier the save draws.
    The range never reaches [_render_pdf], which draws every group of
    the list whose page number is a page of the document (the separator
    of the page is among what is drawn) and draws nothing for any other
    page. *)
Theorem build_pdf_ignores_the_range :
  forall rt file_id pdf ann_json page_from page_to page_from' page_to' a b a' b',
  form_int rt page_from 1 = Ok a ->
  form_int rt page_to 9999 = Ok b ->
  form_int rt page_from' 1 = Ok a' ->
  form_int rt page_to' 9999 = Ok b' ->
  build_pdf rt file_id pdf ann_json page_from page_to
  = build_pdf rt file_id pdf ann_json page_from' page_to'
  /\ (forall file_id',
        rendered (build_pdf rt file_id pdf ann_json page_from page_to)
        = rendered (build_pdf rt file_id' pdf ann_json page_from' page_to'))
  /\ (forall doc groups out,
        _render_pdf rt file_id (Ok doc) groups = Ok out ->
        (forall n anns, In (PInt n, anns) groups -> 1 <= n <= len doc ->
           exists page, nth_error doc (Z.to_nat (n - 1)) = Some page
                        /\ In (n - 1, separator page) (changes out))
        /\ (forall idx op, In (idx, op) (changes out) ->
              exists n anns, In (PInt n, anns) groups /\ idx = n - 1
                             /\ 1 <= n <= len doc)).
Proof.
  intros rt file_id pdf ann_json page_from page_to page_from' page_to'
    a b a' b' Ha Hb Ha' Hb'.
  split; [|split].
  - unfold build_pdf. rewrite Ha, Hb, Ha', Hb'. reflexivity.
  - intro file_id'. unfold build_pdf. rewrite Ha, Hb, Ha', Hb'.
    destruct pdf as [pdf_bytes|]; [|reflexivity].
    destruct (Json.loads _) as [raw_anns|]; [|reflexivity].
    destruct (py_iter raw_anns) as [items|e]; [|reflexivity].
    destruct (group_by_page items []) as [[groups|e]|]; try reflexivity.
    unfold _render_pdf. destruct pdf_bytes as [doc|e]; [|reflexivity].
    cbn [bind]. destruct (render_groups rt doc groups) as [out|e];
      reflexivity.
  - intros doc groups out H. unfold _render_pdf in H. cbn [bind] in H.
    apply bind_ok in H. destruct H as [drawn [H E]].
    apply Ok_inj in E. subst out. cbn [changes]. split.
    + intros n anns Hin Hn.
      destruct (render_groups_draws rt doc groups drawn H n anns Hin Hn)
        as [page [ops [N [P Hops]]]].
      exists page. split; [exact N|]. apply Hops.
      exact (render_page_separator rt _ _ _ P).
    + intros idx op Hin.
      destruct (render_groups_placed rt doc groups drawn H idx op Hin)
        as [page [n [anns [H1 [H2 [H3 _]]]]]].
      exists n, anns. auto.
Qed.

(** C10, the claim as stated fails: a range field that is no integer
    literal makes the view fail before the annotations are read, where
    the same request with another value of the field is answered with
    the file. *)
Lemma range_field_that_is_no_integer :
  build_pdf example_runtime 0 (Some (Ok [low_page])) None (Some (lit "abc")) None
  = Unhandled (ValueError
                 (lit "invalid literal for int() with base 10: 'abc'"))
  /\ build_pdf example_runtime 0 (Some (Ok [low_page])) None
       (Some (lit "9999")) None
     = SendFile {| changes := []; trailer_id := 0 |}.
Proof. split; vm_compute; reflexivity. Qed.

(** A request for pages 1 to 1 whose one annotation is tagged with page
    2: page 2 is drawn all the same. *)
Example build_pdf_draws_outside_the_range :
  match build_pdf example_runtime 0 (Some (Ok [low_page; low_page]))
          (Some (lit "[{~page~:2,~type~:~theme~,~quote~:~~,~annotation~:~hello~,~themes~:[]}]"))
          (Some (lit "1")) (Some (lit "1")) with
  | SendFile out => map fst (changes out)
  | _ => []
  end = [1; 1; 1; 1; 1].
Proof. vm_compute. reflexivity. Qed.

(** What the view answers when the request is not a list of tagged
    records; the file identifier is what tells two saves of one
    document apart. *)
Example build_pdf_rejections :
  build_pdf example_runtime 0 None None None None = Status400 (lit "No PDF")
  /\ build_pdf example_runtime 0 (Some (Ok [low_page])) (Some (lit "[{")) None None
     = Status400 (lit "Invalid annotations JSON")
  /\ build_pdf example_runtime 0 (Some (Ok [low_page])) (Some (lit "[{"))
       None (Some (lit "all"))
     = Unhandled (ValueError
                    (lit "invalid literal for int() with base 10: 'all'"))
  /\ build_pdf example_runtime 0 (Some (Ok [low_page])) (Some (lit "[1]")) None None
     = Unhandled (AttributeError (lit "'int' object has no attribute 'get'"))
  /\ build_pdf example_runtime 0 (Some (Ok [low_page]))
       (Some (lit "[{~page~:~one~}]")) None None
     = Status500 (lit "PDF render error: unsupported operand type(s) for -: 'str' and 'int'")
  /\ build_pdf example_runtime 7 (Some (Ok [low_page])) None (Some []) None
     = SendFile {| changes := []; trailer_id := 7 |}
  /\ build_pdf example_runtime 8 (Some (Ok [low_page])) None (Some []) None
     = SendFile {| changes := []; trailer_id := 8 |}.
Proof. repeat split; vm_compute; reflexivity. Qed.

(** ** The theorems at concrete inputs *)

(** What the validator makes of the mixed list. *)
Example clean_mixed_list :
  (fun rt => _clean rt mixed_list)
  = (fun _ =>
     [ {| a_type := lit "theme"; a_quote := lit "food of love";
          a_annotation := lit "7"; a_themes := [lit "love"; lit "2"] |};
       {| a_type := lit "notation"; a_quote := lit "thou art";
          a_annotation := []; a_themes := [] |} ]).
Proof. vm_compute. reflexivity. Qed.

(** C1, at a text that only the fragment extraction recovers. *)
Lemma fragments_give_a_non_empty_list :
  exists first others,
    _repair_json example_runtime (lit "first {'a':1} then {'b':2}")
    = Ok (PList (first :: others))
    /\ Forall (fun v => is_dict v = true) (first :: others).
Proof.
  destruct (repair_json_returns_or_fails example_runtime
              (lit "first {'a':1} then {'b':2}"))
    as [[items [F _]] | [[first [others [_ [_ [R D]]]]]
                        | [[snippet [_ [F _]]] | [v [F _]]]]].
  - vm_compute in F. discriminate F.
  - exists first, others. split; [exact R | exact D].
  - vm_compute in F. discriminate F.
  - vm_compute in F. discriminate F.
Defined.

(** C2, at an array cut in its third object: the first four texts do not
    parse, the fifth does and gives the result. *)
Lemma truncation_gives_the_result :
  _repair_json example_runtime (lit "[{~a~:1},{~b~:2},{~c~:")
  = Ok (PList [PDict [(lit "a", PInt 1)]; PDict [(lit "b", PInt 2)]]).
Proof.
  apply (proj1 (proj2 (repair_json_follows_the_chain example_runtime
                         (lit "[{~a~:1},{~b~:2},{~c~:")))
           4%nat (lit "[{~a~:1},{~b~:2}]")).
  - reflexivity.
  - reflexivity.
  - intros j earlier Hj Hn.
    destruct j as [|[|[|[|j]]]]; try lia;
      injection Hn as <-; vm_compute; reflexivity.
Defined.

(** C3, at the mixed list. *)
Lemma mixed_list_is_cleaned :
  (List.length (_clean example_runtime mixed_list) <= 4)%nat
  /\ Forall well_formed (_clean example_runtime mixed_list).
Proof.
  destruct (clean_is_total_and_well_formed example_runtime mixed_list)
    as [H1 [H2 _]].
  split; [exact H1 | exact H2].
Defined.

(** C10, at two ranges of one request: pages 1 to 1, and from page 2
    with no upper bound given. *)
Lemma same_pdf_for_two_ranges :
  build_pdf example_runtime 0 (Some (Ok [low_page; low_page]))
    (Some (lit "[{~page~:2,~annotation~:~hello~}]"))
    (Some (lit "1")) (Some (lit "1"))
  = build_pdf example_runtime 0 (Some (Ok [low_page; low_page]))
      (Some (lit "[{~page~:2,~annotation~:~hello~}]")) (Some (lit " 2")) None.
Proof.
  exact (proj1 (build_pdf_ignores_the_range example_runtime 0
                  (Some (Ok [low_page; low_page]))
                  (Some (lit "[{~page~:2,~annotation~:~hello~}]"))
                  (Some (lit "1")) (Some (lit "1")) (Some (lit " 2")) None
                  1 1 2 9999 eq_refl eq_refl eq_refl eq_refl)).
Defined.

(* ================================================================== *)
(** * Further properties of the code *)
(* ================================================================== *)

(** ** What [_call_ollama] gives back *)

Lemma note_is_typed : forall message,
  In (a_type (note message)) valid /\ ~ In nl (a_quote (note message)).
Proof. intro message. split; [left; reflexivity | intros []]. Qed.

Lemma call_handler_records : forall raw e anns,
  call_handler raw e = Ok anns ->
  Forall (fun a => In (a_type a) valid /\ ~ In nl (a_quote a)) anns.
Proof.
  intros raw e anns H. destruct e; simpl in H; try discriminate H.
  injection H as <-. constructor; [apply note_is_typed | constructor].
Qed.

Lemma call_handler_raises : forall raw e e',
  call_handler raw e = Raise e' -> exists msg, e' = RuntimeError msg.
Proof.
  intros raw e e' H. destruct e; simpl in H; try discriminate H;
    injection H as <-; eexists; reflexivity.
Qed.

Lemma call_ollama_records : forall rt post model prompt anns,
  _call_ollama rt post model prompt = Ok anns ->
  Forall (fun a => In (a_type a) valid /\ ~ In nl (a_quote a)) anns.
Proof.
  intros rt post model prompt anns H. unfold _call_ollama in H.
  destruct (post model prompt) as [body|e];
    [|exact (call_handler_records _ _ _ H)].
  destruct (response_text body) as [raw|e];
    [|exact (call_handler_records _ _ _ H)].
  destruct raw as [|c raw].
  { injection H as <-. constructor; [apply note_is_typed | constructor]. }
  destruct (_repair_json rt (c :: raw)) as [v|e];
    [|exact (call_handler_records _ _ _ H)].
  cbn [bind] in H.
  destruct (py_iter v) as [items|e]; [|exact (call_handler_records _ _ _ H)].
  cbn [bind] in H.
  destruct (_clean rt items) as [|a cleaned] eqn:E.
  { injection H as <-. constructor; [apply note_is_typed | constructor]. }
  injection H as <-. rewrite <- E. apply Forall_forall. intros x Hx.
  apply clean_In in Hx. destruct Hx as [d [_ ->]].
  destruct (clean_item_well_formed rt d) as [H1 [H2 _]]. auto.
Qed.

Lemma call_ollama_raises : forall rt post model prompt e,
  _call_ollama rt post model prompt = Raise e ->
  exists msg, e = RuntimeError msg.
Proof.
  intros rt post model prompt e H. unfold _call_ollama in H.
  destruct (post model prompt) as [body|e0];
    [|exact (call_handler_raises _ _ _ H)].
  destruct (response_text body) as [raw|e0];
    [|exact (call_handler_raises _ _ _ H)].
  destruct raw as [|c raw]; [discriminate H|].
  destruct (bind _ _) as [[|a cleaned]|e0]; try discriminate H.
  exact (call_handler_raises _ _ _ H).
Qed.

(** Whatever the completion client does, [_call_ollama] either raises a
    [RuntimeError] and nothing else, or returns at least one record,
    and every record it returns has a type of the enumeration and a
    quote without line feed. *)
Theorem call_ollama_result_shape : forall rt post model prompt,
  match _call_ollama rt post model prompt with
  | Ok anns =>
      anns <> []
      /\ Forall (fun a => In (a_type a) valid /\ ~ In nl (a_quote a)) anns
  | Raise e => exists msg, e = RuntimeError msg
  end.
Proof.
  intros rt post model prompt.
  destruct (_call_ollama rt post model prompt) as [anns|e] eqn:E.
  - split.
    + exact (call_ollama_not_empty rt _ _ _ _ E).
    + exact (call_ollama_records rt _ _ _ _ E).
  - exact (call_ollama_raises rt _ _ _ _ E).
Qed.

(** ** The pages of a run *)

Lemma page_starts_app : forall a b,
  page_starts (a ++ b) = page_starts a ++ page_starts b.
Proof.
  induction a as [|x a IH]; intro b; simpl; [reflexivity|].
  destruct x; simpl; rewrite IH; reflexivity.
Qed.

Lemma page_starts_annotations : forall pg anns,
  page_starts (map (EvAnnotation pg) anns) = [].
Proof. induction anns; simpl; auto. Qed.

Lemma follows_start_annotations : forall pg anns rest,
  follows_start (Some pg) rest ->
  follows_start (Some pg) (map (EvAnnotation pg) anns ++ rest).
Proof. induction anns; simpl; auto. Qed.

Lemma consecutive_S : forall first count,
  consecutive first (S count) = first :: consecutive (first + 1) count.
Proof.
  intros first count. unfold consecutive. cbn [seq map].
  rewrite <- seq_shift, map_map. f_equal; [lia|].
  apply map_ext. intro j. lia.
Qed.

Lemma consecutive_In : forall count first pg,
  In pg (consecutive first count) <-> first <= pg < first + Z.of_nat count.
Proof.
  induction count as [|count IH]; intros first pg.
  - simpl. lia.
  - rewrite consecutive_S. cbn [In]. rewrite IH. lia.
Qed.

Lemma slice_nth_error : forall (A : Type) (l : list A) (a : Z) hi j x,
  0 <= a ->
  nth_error (slice l (Some a) hi) j = Some x ->
  nth_error l (Z.to_nat a + j) = Some x.
Proof.
  intros A l a hi j x Ha H. unfold slice, clamp_index in H.
  destruct (a <? 0) eqn:E; [apply Z.ltb_lt in E; lia|].
  rewrite nth_error_firstn in H.
  destruct (j <? _)%nat; [|discriminate H].
  rewrite nth_error_skipn in H.
  destruct (Z.min_spec a (len l)) as [[L Hm]|[L Hm]]; rewrite Hm in H.
  - exact H.
  - exfalso. unfold len in *. rewrite Nat2Z.id in H.
    assert (nth_error l (List.length l + j) = None) as N
      by (apply nth_error_None; lia).
    rewrite N in H. discriminate H.
Qed.

Lemma slice_length : forall (A : Type) (l : list A) (a b : Z),
  0 <= a -> 0 <= b ->
  len (slice l (Some a) (Some b)) = Z.max 0 (Z.min b (len l) - a).
Proof.
  intros A l a b Ha Hb. unfold slice, clamp_index.
  destruct (a <? 0) eqn:Ea; [apply Z.ltb_lt in Ea; lia|].
  destruct (b <? 0) eqn:Eb; [apply Z.ltb_lt in Eb; lia|].
  unfold len. rewrite length_firstn, length_skipn. lia.
Qed.

Lemma prompt_text_bound : forall extracted, len (prompt_text extracted) <= 4012.
Proof.
  intro extracted. unfold prompt_text.
  destruct (len _ >? 4000) eqn:E.
  - unfold len. rewrite length_app.
    pose proof (slice_prefix_length _
                  (strip match extracted with Some t => t | None => [] end)
                  4000 ltac:(lia)) as B.
    change (List.length (nl :: lit "[truncated]")) with 12%nat. lia.
  - rewrite Z.gtb_ltb in E. apply Z.ltb_ge in E. lia.
Qed.

Section StreamProperties.

Variable rt : runtime.
Variable server : nat -> client.
Variables model instructions : str.
Variables p_start p_end n : Z.

Local Abbreviation loop := (page_loop rt server model instructions p_start p_end n).

Lemma page_loop_page_order : forall pages i calls cur,
  exists k, (k <= List.length pages)%nat
    /\ page_starts (events (loop i calls pages)) = consecutive (p_start + i + 1) k
    /\ follows_start cur (events (loop i calls pages)).
Proof.
  induction pages as [|page rest IH]; intros i calls cur.
  - exists O. split; [simpl; lia|]. split; [reflexivity | exact I].
  - cbn [page_loop].
    destruct (progress_pct n i) as [pct|e].
    2:{ exists O. split; [simpl; lia|]. split; [reflexivity | exact I]. }
    destruct page as [extracted|e].
    2:{ exists 1%nat. split; [simpl; lia|].
        split; [rewrite consecutive_S; reflexivity | exact I]. }
    destruct (strip _) as [|c text].
    + destruct (IH (i + 1) calls (Some (p_start + i + 1))) as [k [Hk [Hs Hf]]].
      exists (S k). split; [simpl; lia|]. cbn [events page_starts follows_start].
      rewrite consecutive_S, Hs.
      replace (p_start + (i + 1) + 1) with (p_start + i + 1 + 1) by lia.
      auto.
    + cbn [events page_starts follows_start].
      destruct (_call_ollama _ _ _ _) as [anns|e].
      2:{ exists 1%nat. split; [simpl; lia|].
        split; [rewrite consecutive_S; reflexivity | exact I]. }
      destruct (IH (i + 1) (S calls) (Some (p_start + i + 1))) as [k [Hk [Hs Hf]]].
      exists (S k). split; [simpl; lia|].
      rewrite events_app, events_annotations, page_starts_app,
        page_starts_annotations, consecutive_S, Hs.
      replace (p_start + (i + 1) + 1) with (p_start + i + 1 + 1) by lia.
      split; [reflexivity|]. apply follows_start_annotations. exact Hf.
Qed.

Lemma page_loop_done : forall pages i calls,
  In EvDone (events (loop i calls pages)) ->
  page_starts (events (loop i calls pages))
  = consecutive (p_start + i + 1) (List.length pages)
  /\ forall pg, In pg (consecutive (p_start + i + 1) (List.length pages)) ->
       exists data, In (EvAnnotation pg data) (events (loop i calls pages)).
Proof.
  induction pages as [|page rest IH]; intros i calls H.
  - split; [reflexivity|]. intros pg [].
  - cbn [page_loop] in *.
    destruct (progress_pct n i) as [pct|e].
    2:{ destruct H as [H|[]]; discriminate H. }
    destruct page as [extracted|e].
    2:{ destruct H as [H|[H|[H|[]]]]; discriminate H. }
    cbn [List.length]. rewrite consecutive_S.
    replace (p_start + i + 1 + 1) with (p_start + (i + 1) + 1) by lia.
    destruct (strip _) as [|c text].
    + cbn [events page_starts] in *.
      destruct H as [H|[H|[H|H]]]; try discriminate H.
      destruct (IH _ _ H) as [Hs Ha]. rewrite Hs. split; [reflexivity|].
      intros pg [<-|Hpg].
      * exists no_text. right. right. left. reflexivity.
      * destruct (Ha pg Hpg) as [data Hd]. exists data. do 3 right. exact Hd.
    + cbn [events page_starts] in *.
      pose proof (call_ollama_not_empty rt (server calls) model
                    (_build_prompt
                       (if len (c :: text) >? 4000
                        then slice (c :: text) None (Some 4000)
                             ++ nl :: lit "[truncated]"
                        else c :: text) instructions (p_start + i + 1))) as NE.
      destruct (_call_ollama _ _ _ _) as [anns|e].
      2:{ destruct H as [H|[H|[H|[]]]]; discriminate H. }
      rewrite events_app, events_annotations in *.
      destruct H as [H|[H|H]]; try discriminate H.
      apply in_app_or in H. destruct H as [H|H].
      { apply in_map_iff in H. destruct H as [a [H _]]. discriminate H. }
      destruct (IH _ _ H) as [Hs Ha].
      rewrite page_starts_app, page_starts_annotations, Hs.
      split; [reflexivity|].
      intros pg [<-|Hpg].
      * destruct anns as [|a anns]; [exfalso; exact (NE [] eq_refl eq_refl)|].
        exists a. right. right. left. reflexivity.
      * destruct (Ha pg Hpg) as [data Hd]. exists data.
        right. right. apply in_or_app. right. exact Hd.
Qed.

Lemma page_loop_requests : forall pages i calls m p,
  In (Post m p) (loop i calls pages) ->
  m = model
  /\ exists j extracted,
       nth_error pages j = Some (Ok extracted)
       /\ p = _build_prompt (prompt_text extracted) instructions
                (p_start + i + Z.of_nat j + 1)
       /\ prompt_text extracted <> [].
Proof.
  induction pages as [|page rest IH]; intros i calls m p H.
  - destruct H as [H|[H|[]]]; discriminate H.
  - cbn [page_loop] in H.
    destruct (progress_pct n i) as [pct|e].
    2:{ destruct H as [H|[]]; discriminate H. }
    destruct H as [H|[H|H]]; try discriminate H.
    assert (forall i' calls',
              i' = i + 1 -> In (Post m p) (loop i' calls' rest) ->
              m = model
              /\ exists j extracted,
                   nth_error (page :: rest) j = Some (Ok extracted)
                   /\ p = _build_prompt (prompt_text extracted) instructions
                            (p_start + i + Z.of_nat j + 1)
                   /\ prompt_text extracted <> []) as Next.
    { intros i' calls' -> H'.
      destruct (IH _ _ _ _ H') as [Hm [j [extracted [Hn [Hp Ht]]]]].
      split; [exact Hm|]. exists (S j), extracted.
      split; [exact Hn|]. split; [|exact Ht]. rewrite Hp. f_equal. lia. }
    destruct page as [extracted|e].
    2:{ destruct H as [H|[]]; discriminate H. }
    destruct (strip _) as [|c text] eqn:S0.
    + destruct H as [H|H]; [discriminate H|]. exact (Next _ _ eq_refl H).
    + destruct H as [H|H].
      * injection H as <- <-. split; [reflexivity|].
        exists O, extracted. split; [reflexivity|].
        unfold prompt_text. rewrite S0. cbn [Z.of_nat].
        rewrite Z.add_0_r. split; [reflexivity|].
        destruct (len (c :: text) >? 4000); [|discriminate].
        intro E. apply (f_equal (@List.length char)) in E.
        rewrite length_app in E. simpl in E. lia.
      * destruct (_call_ollama _ _ _ _) as [anns|e].
        2:{ destruct H as [H|[]]; discriminate H. }
        apply in_app_or in H. destruct H as [H|H].
        { apply in_map_iff in H. destruct H as [a [H _]]. discriminate H. }
        exact (Next _ _ eq_refl H).
Qed.

Lemma page_loop_request_count : forall pages i calls,
  (posts (loop i calls pages)
   <= List.length (page_starts (events (loop i calls pages))))%nat.
Proof.
  induction pages as [|page rest IH]; intros i calls.
  - simpl. lia.
  - cbn [page_loop].
    destruct (progress_pct n i) as [pct|e]; [|simpl; lia].
    destruct page as [extracted|e]; [|simpl; lia].
    destruct (strip _) as [|c text].
    + cbn [posts events page_starts List.length]. specialize (IH (i + 1) calls). lia.
    + cbn [posts events page_starts List.length].
      destruct (_call_ollama _ _ _ _) as [anns|e]; [|simpl; lia].
      rewrite posts_app, posts_annotations, events_app, events_annotations,
        page_starts_app, page_starts_annotations.
      specialize (IH (i + 1) (S calls)). cbn [app]. lia.
Qed.

Lemma page_loop_annotations : forall pages i calls pg data,
  In (EvAnnotation pg data) (events (loop i calls pages)) ->
  In (a_type data) valid /\ ~ In nl (a_quote data).
Proof.
  induction pages as [|page rest IH]; intros i calls pg data H.
  - destruct H as [H|[H|[]]]; discriminate H.
  - cbn [page_loop] in H.
    destruct (progress_pct n i) as [pct|e].
    2:{ destruct H as [H|[]]; discriminate H. }
    destruct page as [extracted|e].
    2:{ destruct H as [H|[H|[H|[]]]]; discriminate H. }
    destruct (strip _) as [|c text].
    + destruct H as [H|[H|[H|H]]]; try discriminate H.
      * injection H as _ <-. split; [left; reflexivity | intros []].
      * exact (IH _ _ _ _ H).
    + cbn [events] in H.
      pose proof (call_ollama_records rt (server calls) model
                    (_build_prompt
                       (if len (c :: text) >? 4000
                        then slice (c :: text) None (Some 4000)
                             ++ nl :: lit "[truncated]"
                        else c :: text) instructions (p_start + i + 1))) as S0.
      destruct (_call_ollama _ _ _ _) as [anns|e].
      2:{ destruct H as [H|[H|[H|[]]]]; discriminate H. }
      specialize (S0 anns eq_refl).
      rewrite events_app, events_annotations in H.
      destruct H as [H|[H|H]]; try discriminate H.
      apply in_app_or in H. destruct H as [H|H]; [|exact (IH _ _ _ _ H)].
      apply in_map_iff in H. destruct H as [a [E Ha]]. injection E as _ <-.
      rewrite Forall_forall in S0. exact (S0 _ Ha).
Qed.

End StreamProperties.

(** In every run, the page-start events carry consecutive page numbers
    that begin at [page_from], and every annotation event carries the
    number of the page started last before it; with [page_from] at least
    1, as [annotate] makes it, every page started is a page of the
    document. *)
Theorem pages_are_streamed_in_order :
  forall rt server all_pages instructions model page_from page_to,
  (exists k,
     page_starts
       (events (generate rt server (Ok all_pages) instructions model page_from page_to))
     = consecutive page_from k)
  /\ follows_start None
       (events (generate rt server (Ok all_pages) instructions model page_from page_to))
  /\ (1 <= page_from ->
      Forall (fun pg => 1 <= pg <= len all_pages)
        (page_starts
           (events (generate rt server (Ok all_pages) instructions model
                      page_from page_to)))).
Proof.
  intros rt server all_pages instructions model page_from page_to.
  unfold generate.
  destruct (_ =? 0).
  { split; [exists O; reflexivity|]. split; [exact I|]. intros _. constructor. }
  destruct (page_loop_page_order rt server model instructions (page_from - 1)
              (Z.min page_to (len all_pages))
              (len (slice all_pages (Some (page_from - 1))
                      (Some (Z.min page_to (len all_pages)))))
              (slice all_pages (Some (page_from - 1))
                 (Some (Z.min page_to (len all_pages)))) 0 O None)
    as [k [Hk [Hs Hf]]].
  replace (page_from - 1 + 0 + 1) with page_from in Hs by lia.
  split; [exists k; exact Hs|]. split; [exact Hf|].
  intro Hfrom. rewrite Hs. apply Forall_forall. intros pg Hpg.
  apply consecutive_In in Hpg.
  assert (List.length (slice all_pages (Some (page_from - 1))
                         (Some (Z.min page_to (len all_pages)))) = O
          \/ Z.of_nat (List.length (slice all_pages (Some (page_from - 1))
                                     (Some (Z.min page_to (len all_pages)))))
             <= len all_pages - (page_from - 1)); [|lia].
  unfold slice, clamp_index.
  destruct (page_from - 1 <? 0) eqn:E; [apply Z.ltb_lt in E; lia|].
  rewrite length_firstn, length_skipn. unfold len.
  destruct (_ <? 0); lia.
Qed.

(** At a run over a document of three pages that fails at the second:
    pages 1 and 2 are started, in that order. *)
Example scenario_D_pages : page_starts (events scenario_D) = consecutive 1 2.
Proof. vm_compute. reflexivity. Qed.

(** A run that reaches the completion marker has started every page of
    the range, from [page_from] to the smaller of [page_to] and the page
    count, each once and in order, and has emitted at least one
    annotation for each of them. *)
Theorem completed_run_covers_the_range :
  forall rt server all_pages instructions model page_from page_to,
  1 <= page_from -> 0 <= page_to ->
  In EvDone
    (events (generate rt server (Ok all_pages) instructions model page_from page_to)) ->
  page_starts
    (events (generate rt server (Ok all_pages) instructions model page_from page_to))
  = consecutive page_from
      (Z.to_nat (Z.min page_to (len all_pages) - page_from + 1))
  /\ forall pg, page_from <= pg <= Z.min page_to (len all_pages) ->
       exists data,
         In (EvAnnotation pg data)
           (events (generate rt server (Ok all_pages) instructions model
                      page_from page_to)).
Proof.
  intros rt server all_pages instructions model page_from page_to Hfrom Hto H.
  unfold generate in *.
  pose proof (slice_length _ all_pages (page_from - 1)
                (Z.min page_to (len all_pages)) ltac:(lia)
                ltac:(unfold len; lia)) as L.
  destruct (_ =? 0).
  { destruct H as [H|[]]; discriminate H. }
  destruct (page_loop_done _ _ _ _ _ _ _ _ _ _ H) as [Hs Ha].
  replace (page_from - 1 + 0 + 1) with page_from in * by lia.
  assert (List.length (slice all_pages (Some (page_from - 1))
                         (Some (Z.min page_to (len all_pages))))
          = Z.to_nat (Z.min page_to (len all_pages) - page_from + 1)) as E.
  { unfold len in L at 1. lia. }
  rewrite E in *. split; [exact Hs|].
  intros pg Hpg. apply Ha. apply consecutive_In. lia.
Qed.

(** At scenario A with a document of one page: page 1 is started and has
    an annotation. *)
Lemma scenario_A_covers_its_page :
  page_starts
    (events (generate example_runtime (fun _ _ _ => reply thou_art)
               (Ok [Ok (Some (lit "Thou art wise."))])
               (lit "define archaic words") (lit "llama3.2") 1 9999))
  = consecutive 1 (Z.to_nat (Z.min 9999 1 - 1 + 1))
  /\ forall pg, 1 <= pg <= Z.min 9999 1 ->
       exists data,
         In (EvAnnotation pg data)
           (events (generate example_runtime (fun _ _ _ => reply thou_art)
                      (Ok [Ok (Some (lit "Thou art wise."))])
                      (lit "define archaic words") (lit "llama3.2") 1 9999)).
Proof.
  apply (completed_run_covers_the_range example_runtime
           (fun _ _ _ => reply thou_art) [Ok (Some (lit "Thou art wise."))]
           (lit "define archaic words") (lit "llama3.2") 1 9999).
  - lia.
  - lia.
  - vm_compute. do 4 right. left. reflexivity.
Defined.

Lemma generate_requests :
  forall rt server all_pages instructions model page_from page_to m p,
  1 <= page_from ->
  In (Post m p)
    (generate rt server (Ok all_pages) instructions model page_from page_to) ->
  m = model
  /\ exists pg extracted,
       page_from <= pg
       /\ nth_error all_pages (Z.to_nat (pg - 1)) = Some (Ok extracted)
       /\ p = _build_prompt (prompt_text extracted) instructions pg
       /\ prompt_text extracted <> []
       /\ len (prompt_text extracted) <= 4012.
Proof.
  intros rt server all_pages instructions model page_from page_to m p Hfrom H.
  unfold generate in H.
  destruct (_ =? 0).
  { destruct H as [H|[]]; discriminate H. }
  apply page_loop_requests in H.
  destruct H as [Hm [j [extracted [Hn [Hp Ht]]]]].
  split; [exact Hm|].
  exists (page_from + Z.of_nat j), extracted.
  split; [lia|].
  apply slice_nth_error in Hn; [|lia].
  split; [rewrite <- Hn; f_equal; lia|].
  split; [rewrite Hp; f_equal; lia|].
  split; [exact Ht | apply prompt_text_bound].
Qed.

(** Whatever range and model the form of [annotate] gives, every
    request of the run goes to the model named (the default model when
    the field is blank) and asks about one page of the document: its
    prompt is built from the stripped instructions, the number of that
    page, which is at least 1, and the stripped text of that very page,
    which is not empty and, cut to 4000 characters and the truncation
    mark when longer, has at most 4012 characters.  Without
    instructions nothing is run. *)
Theorem requests_are_about_their_page :
  forall rt DEFAULT_MODEL server all_pages instructions model page_from page_to,
  match annotate rt DEFAULT_MODEL server (Some (Ok all_pages)) instructions model
          page_from page_to with
  | BadRequest error =>
      strip instructions = [] /\ error = lit "No instructions provided"
  | EventStream t =>
      strip instructions <> []
      /\ forall m p, In (Post m p) t ->
           m = match strip model with [] => DEFAULT_MODEL | named => named end
           /\ exists pg extracted,
                1 <= pg
                /\ nth_error all_pages (Z.to_nat (pg - 1)) = Some (Ok extracted)
                /\ p = _build_prompt (prompt_text extracted) (strip instructions) pg
                /\ prompt_text extracted <> []
                /\ len (prompt_text extracted) <= 4012
  end.
Proof.
  intros rt DEFAULT_MODEL server all_pages instructions model page_from page_to.
  unfold annotate. destruct (strip instructions) as [|c text] eqn:E.
  - split; reflexivity.
  - split; [discriminate|]. intros m p H.
    apply generate_requests in H; [|lia].
    destruct H as [Hm [pg [extracted [Hpg H]]]].
    split; [exact Hm|]. exists pg, extracted. split; [lia | exact H].
Qed.

(** At a document of three pages, with range fields 0 and 2 and no
    model named: the two requests, for pages 1 and 2. *)
Example annotate_requests_of_two_pages :
  match annotate example_runtime (lit "llama3.2") (fun _ _ _ => reply thou_art)
          (Some three_pages) (lit " define archaic words ") (lit "  ") 0 2 with
  | BadRequest _ => []
  | EventStream t =>
      flat_map (fun a => match a with
                         | Post m p => [(m, p)]
                         | Yield _ => []
                         end) t
  end
  = [ (lit "llama3.2",
       _build_prompt (lit "Thou art wise.") (lit "define archaic words") 1);
      (lit "llama3.2",
       _build_prompt (lit "Second page.") (lit "define archaic words") 2) ].
Proof. vm_compute. reflexivity. Qed.

(** Every annotation event of a run, whatever the completion client
    replied, carries a record whose type is one of the seven of the
    enumeration and whose quote holds no line feed. *)
Theorem stream_annotations_are_well_typed :
  forall rt server pdf instructions model page_from page_to pg data,
  In (EvAnnotation pg data)
    (events (generate rt server pdf instructions model page_from page_to)) ->
  In (a_type data) valid /\ ~ In nl (a_quote data).
Proof.
  intros rt server pdf instructions model page_from page_to pg data H.
  unfold generate in H. destruct pdf as [all_pages|e].
  2:{ destruct H as [H|[]]; discriminate H. }
  destruct (_ =? 0).
  { destruct H as [H|[]]; discriminate H. }
  exact (page_loop_annotations _ _ _ _ _ _ _ _ _ _ _ _ H).
Qed.

(** At scenario D: the annotation of page 1. *)
Lemma scenario_D_annotation_is_well_typed :
  In (lit "definition") valid /\ ~ In nl (lit "Thou art").
Proof.
  apply (stream_annotations_are_well_typed example_runtime failing_server
           three_pages (lit "define archaic words") (lit "llama3.2") 1 9999 1
           {| a_type := lit "definition"; a_quote := lit "Thou art";
              a_annotation := lit "Archaic form of you are.";
              a_themes := [] |}).
  vm_compute. do 2 right. left. reflexivity.
Defined.

(** A run sends at most one request for each page it starts. *)
Theorem one_request_per_page_at_most :
  forall rt server pdf instructions model page_from page_to,
  (posts (generate rt server pdf instructions model page_from page_to)
   <= List.length
        (page_starts
           (events (generate rt server pdf instructions model page_from page_to))))%nat.
Proof.
  intros rt server pdf instructions model page_from page_to.
  unfold generate. destruct pdf as [all_pages|e]; [|simpl; lia].
  destruct (_ =? 0); [simpl; lia|]. apply page_loop_request_count.
Qed.

(** ** What is drawn for an annotation *)

Lemma In_firstn : forall (A : Type) (k : nat) (l : list A) (x : A),
  In x (firstn k l) -> In x l.
Proof.
  induction k as [|k IH]; intros l x H; [destruct H|].
  destruct l as [|y l]; [destruct H|].
  destruct H as [H|H]; [left; exact H | right; exact (IH _ _ H)].
Qed.

Lemma In_slice_prefix : forall (A : Type) (l : list A) (k : Z) (x : A),
  In x (slice l None (Some k)) -> In x l.
Proof. intros A l k x H. unfold slice in H. exact (In_firstn _ _ _ _ H). Qed.

Lemma drawn_app : forall what a b,
  drawn what (a ++ b) = drawn what a ++ drawn what b.
Proof.
  induction a as [|op a IH]; intro b; simpl; [reflexivity|].
  destruct op as [| w r f | ]; try apply IH.
  destruct (role_eqb w what); simpl; rewrite IH; reflexivity.
Qed.

Lemma drawn_highlights : forall fill accent rects,
  drawn Highlight (map (highlight fill accent) rects) = rects.
Proof. induction rects as [|r rects IH]; simpl; [|rewrite IH]; reflexivity. Qed.

Lemma drawn_other_highlights : forall what fill accent rects,
  what <> Highlight -> drawn what (map (highlight fill accent) rects) = [].
Proof.
  intros what fill accent rects H.
  induction rects as [|r rects IH]; simpl; [reflexivity|].
  destruct what; try contradiction; simpl; exact IH.
Qed.

Lemma drawn_quote_texts : forall what tx lines ty,
  drawn what (fst (quote_texts tx ty lines)) = [].
Proof.
  induction lines as [|ql rest IH]; intro ty; simpl; [reflexivity|].
  specialize (IH (ty + LH_QT)%float).
  destruct (quote_texts tx (ty + LH_QT)%float rest) as [ops ty'].
  simpl in *. exact IH.
Qed.

Lemma drawn_body_texts : forall what tx bottom lines ty,
  drawn what (body_texts tx ty bottom lines) = [].
Proof.
  induction lines as [|al rest IH]; intro ty; simpl; [reflexivity|].
  destruct (PyFloat.gt _ _); simpl; auto.
Qed.

Section DrawingProperties.

Variable rt : runtime.

(** The rectangles of one annotation: the first five hits highlighted,
    one box in the column of the margin strip, and its bar. *)
Lemma draw_ann_rects :
  forall page chars margin_y accent fill label quote text themes hits,
  exists box,
    x0 box = BOX_X page
    /\ x1 box = (BOX_X page + BOX_W page)%float
    /\ drawn BoxBackground
         (fst (draw_ann rt page chars margin_y accent fill label quote text
                 themes hits))
       = [box]
    /\ drawn AccentBar
         (fst (draw_ann rt page chars margin_y accent fill label quote text
                 themes hits))
       = [bar_of box]
    /\ drawn Highlight
         (fst (draw_ann rt page chars margin_y accent fill label quote text
                 themes hits))
       = slice hits None (Some 5).
Proof.
  intros. unfold draw_ann. cbv zeta. cbn [fst].
  eexists. split; [|split; [|split; [|split]]].
  3:{ rewrite drawn_app, drawn_other_highlights by discriminate.
      cbn [app drawn role_eqb]. f_equal.
      rewrite !drawn_app, drawn_quote_texts, drawn_body_texts.
      destruct (join _ _); reflexivity. }
  - reflexivity.
  - reflexivity.
  - rewrite drawn_app, drawn_other_highlights by discriminate.
    cbn [app drawn role_eqb].
    rewrite !drawn_app, drawn_quote_texts, drawn_body_texts.
    destruct (join _ _); reflexivity.
  - rewrite drawn_app. cbn [drawn role_eqb].
    rewrite !drawn_app, drawn_quote_texts, drawn_body_texts.
    replace (drawn Highlight match join _ _ with [] => [] | _ :: _ => _ end)
      with (@nil rect) by (destruct (join _ _); reflexivity).
    cbn [app]. rewrite app_nil_r. apply drawn_highlights.
Qed.

Lemma render_ann_fields : forall page chars margin_y ann r,
  render_ann rt page chars margin_y ann = Ok r ->
  exists quote text accent fill label hits,
    get_stripped (lit "quote") ann = Ok quote
    /\ find_hits page quote = Ok hits
    /\ r = draw_ann rt page chars margin_y accent fill label quote text
             (get_themes ann) hits.
Proof.
  intros page chars margin_y ann r E. unfold render_ann in E. cbv zeta in E.
  apply bind_ok in E. destruct E as [quote [Q E]].
  apply bind_ok in E. destruct E as [text [_ E]].
  apply bind_ok in E. destruct E as [accent [_ E]].
  apply bind_ok in E. destruct E as [fill [_ E]].
  apply bind_ok in E. destruct E as [label [_ E]].
  apply bind_ok in E. destruct E as [hits [F E]].
  apply Ok_inj in E. exists quote, text, accent, fill, label, hits. auto.
Qed.

Lemma render_anns_rects : forall page chars anns margin_y ops,
  render_anns rt page chars margin_y anns = Ok ops ->
  List.length (drawn BoxBackground ops) = List.length anns
  /\ Forall (fun box => x0 box = BOX_X page
                        /\ x1 box = (BOX_X page + BOX_W page)%float)
       (drawn BoxBackground ops)
  /\ drawn AccentBar ops = map bar_of (drawn BoxBackground ops)
  /\ (List.length (drawn Highlight ops) <= 5 * List.length anns)%nat
  /\ forall r, In r (drawn Highlight ops) ->
       exists ann quote hits,
         In ann anns /\ get_stripped (lit "quote") ann = Ok quote
         /\ 5 <= len quote
         /\ search_for page quote = Ok hits /\ In r hits.
Proof.
  induction anns as [|ann rest IH]; intros margin_y ops H; cbn [render_anns] in H.
  - apply Ok_inj in H. subst ops. simpl.
    repeat split; try constructor. intros r [].
  - apply bind_ok in H. destruct H as [[ops1 next] [E H]].
    apply bind_ok in H. destruct H as [ops2 [E2 H]].
    apply Ok_inj in H. cbn [fst snd] in *. subst ops.
    destruct (IH _ _ E2) as [L [C [B [N Hh]]]].
    apply render_ann_fields in E.
    destruct E as [quote [text [accent [fill [label [hits [Q [F E]]]]]]]].
    destruct (draw_ann_rects page chars margin_y accent fill label quote text
                (get_themes ann) hits) as [box [X0 [X1 [Hb [Ha Hl]]]]].
    rewrite <- E in Hb, Ha, Hl. cbn [fst] in Hb, Ha, Hl.
    rewrite !drawn_app, Hb, Ha, Hl. cbn [app List.length map].
    split; [rewrite L; reflexivity|].
    split; [constructor; auto|].
    split; [rewrite B; reflexivity|].
    split.
    + rewrite length_app.
      pose proof (slice_prefix_length _ hits 5 ltac:(lia)). lia.
    + intros r Hr. apply in_app_or in Hr. destruct Hr as [Hr|Hr].
      * unfold find_hits in F. destruct (5 <=? len quote) eqn:E5.
        -- exists ann, quote, hits. split; [left; reflexivity|].
           split; [exact Q|]. split; [apply Z.leb_le; exact E5|].
           split; [exact F | exact (In_slice_prefix _ _ _ _ Hr)].
        -- apply Ok_inj in F. subst hits. destruct Hr.
      * destruct (Hh r Hr) as [a [q [h [H1 H2]]]]. exists a, q, h.
        split; [right; exact H1 | exact H2].
Qed.

End DrawingProperties.

(** On a page, every annotation of the group gets exactly one callout
    box and one accent bar; all boxes stand in the one column of the
    margin strip, between [BOX_X] and [BOX_X + BOX_W], and the bar of a
    box is its left 2.8 units over its whole height. *)
Theorem one_box_and_bar_per_annotation : forall rt page anns ops,
  render_page rt page anns = Ok ops ->
  List.length (drawn BoxBackground ops) = List.length anns
  /\ Forall (fun box => x0 box = BOX_X page
                        /\ x1 box = (BOX_X page + BOX_W page)%float)
       (drawn BoxBackground ops)
  /\ drawn AccentBar ops = map bar_of (drawn BoxBackground ops).
Proof.
  intros rt page anns ops H. unfold render_page in H.
  apply bind_ok in H. destruct H as [chars [_ H]].
  apply bind_ok in H. destruct H as [ops1 [E H]].
  apply Ok_inj in H. subst ops. cbn [drawn separator].
  destruct (render_anns_rects rt _ _ _ _ _ E) as [L [C [B _]]]. auto.
Qed.

(** At the three notes on the low page. *)
Lemma three_notes_have_three_boxes :
  List.length
    (drawn BoxBackground
       (match render_page example_runtime low_page
                [hello_note; hello_note; hello_note] with
        | Ok ops => ops
        | Raise _ => []
        end))
  = 3%nat
  /\ Forall (fun box => x0 box = BOX_X low_page
                        /\ x1 box = (BOX_X low_page + BOX_W low_page)%float)
       (drawn BoxBackground
          (match render_page example_runtime low_page
                   [hello_note; hello_note; hello_note] with
           | Ok ops => ops
           | Raise _ => []
           end))
  /\ drawn AccentBar
       (match render_page example_runtime low_page
                [hello_note; hello_note; hello_note] with
        | Ok ops => ops
        | Raise _ => []
        end)
     = map bar_of
         (drawn BoxBackground
            (match render_page example_runtime low_page
                     [hello_note; hello_note; hello_note] with
             | Ok ops => ops
             | Raise _ => []
             end)).
Proof.
  apply (one_box_and_bar_per_annotation example_runtime low_page
           [hello_note; hello_note; hello_note]).
  vm_compute. reflexivity.
Defined.

(** Only what [search_for] finds for the stripped quote of an annotation
    of the page is highlighted, and only for a quote of five characters
    or more; at most five hits are highlighted for one annotation. *)
Theorem highlights_are_hits_of_long_quotes : forall rt page anns ops,
  render_page rt page anns = Ok ops ->
  (List.length (drawn Highlight ops) <= 5 * List.length anns)%nat
  /\ forall r, In r (drawn Highlight ops) ->
       exists ann quote hits,
         In ann anns /\ get_stripped (lit "quote") ann = Ok quote
         /\ 5 <= len quote
         /\ search_for page quote = Ok hits /\ In r hits.
Proof.
  intros rt page anns ops H. unfold render_page in H.
  apply bind_ok in H. destruct H as [chars [_ H]].
  apply bind_ok in H. destruct H as [ops1 [E H]].
  apply Ok_inj in H. subst ops. cbn [drawn separator].
  destruct (render_anns_rects rt _ _ _ _ _ E) as [_ [_ [_ [N Hh]]]]. auto.
Qed.

(** On a page where the quote is found seven times, five hits are
    highlighted; the empty quote of a note is not searched for. *)
Example five_of_seven_hits :
  match render_page example_runtime echo_page [thou_art_note; hello_note] with
  | Ok ops => drawn Highlight ops
  | Raise _ => []
  end = firstn 5 seven_hits.
Proof. vm_compute. reflexivity. Qed.

Lemma echo_page_highlights :
  (List.length
     (drawn Highlight
        (match render_page example_runtime echo_page [thou_art_note; hello_note] with
         | Ok ops => ops
         | Raise _ => []
         end)) <= 5 * 2)%nat
  /\ forall r,
       In r (drawn Highlight
               (match render_page example_runtime echo_page
                        [thou_art_note; hello_note] with
                | Ok ops => ops
                | Raise _ => []
                end)) ->
       exists ann quote hits,
         In ann [thou_art_note; hello_note]
         /\ get_stripped (lit "quote") ann = Ok quote
         /\ 5 <= len quote
         /\ search_for echo_page quote = Ok hits /\ In r hits.
Proof.
  apply (highlights_are_hits_of_long_quotes example_runtime echo_page
           [thou_art_note; hello_note]).
  vm_compute. reflexivity.
Defined.

(** ** Groups outside the document *)

(** A group whose page number is not a page of the document changes
    nothing: the result is that of the call without the group, whatever
    the records of the group hold. *)
Theorem groups_outside_the_document_are_skipped :
  forall rt doc before n anns after,
  n < 1 \/ len doc < n ->
  render_groups rt doc (before ++ (PInt n, anns) :: after)
  = render_groups rt doc (before ++ after).
Proof.
  intros rt doc before n anns after Hn.
  induction before as [|[page_num anns0] rest IH].
  - cbn [app render_groups page_index bind].
    replace ((n - 1 <? 0) || (n - 1 >=? len doc)) with true; [reflexivity|].
    symmetry. apply orb_true_iff. rewrite Z.geb_leb.
    destruct Hn; [left; apply Z.ltb_lt | right; apply Z.leb_le]; lia.
  - cbn [app render_groups]. rewrite IH. reflexivity.
Qed.

(** The records without a page tag are grouped under 0, so they are not
    drawn: here such a group holds a record that cannot be drawn, and
    the call succeeds as without it; under 1 the same record makes the
    call fail. *)
Lemma untagged_group_is_skipped :
  render_groups example_runtime [low_page]
    ([(PInt 1, [hello_note])] ++ (PInt 0, [broken_note]) :: [])
  = render_groups example_runtime [low_page] ([(PInt 1, [hello_note])] ++ []).
Proof.
  apply (groups_outside_the_document_are_skipped example_runtime [low_page]
           [(PInt 1, [hello_note])] 0 [broken_note] []).
  left. lia.
Defined.

Example broken_note_fails_on_a_page :
  render_groups example_runtime [low_page] [(PInt 1, [broken_note])]
  = Raise (AttributeError (lit "'int' object has no attribute 'strip'")).
Proof. vm_compute. reflexivity. Qed.

(** ** The groups of [build_pdf] *)

Lemma key_eqb_eq : forall a b, key_eqb a b = true -> a = b.
Proof.
  intros a b H. destruct a, b; try discriminate H; simpl in H.
  - reflexivity.
  - apply Z.eqb_eq in H. congruence.
  - apply str_eqb_eq in H. congruence.
Qed.

Lemma page_key_refl : forall v k, page_key v = Some (Ok k) -> key_eqb k k = true.
Proof.
  intros v k H. destruct v; simpl in H; try discriminate H;
    injection H as <-; simpl; try reflexivity.
  - apply Z.eqb_refl.
  - apply Z.eqb_refl.
  - apply str_eqb_eq. reflexivity.
Qed.

Lemma group_of_setdefault_append : forall pg a groups k,
  key_eqb pg pg = true ->
  group_of k (setdefault_append pg a groups)
  = if key_eqb k pg then group_of k groups ++ [a] else group_of k groups.
Proof.
  intros pg a groups k Hpg.
  induction groups as [|[k' anns] rest IH]; cbn [setdefault_append group_of].
  - destruct (key_eqb k pg); reflexivity.
  - destruct (key_eqb pg k') eqn:E; cbn [group_of].
    + apply key_eqb_eq in E. subst k'.
      destruct (key_eqb k pg); reflexivity.
    + rewrite IH. destruct (key_eqb k k') eqn:E1; [|reflexivity].
      destruct (key_eqb k pg) eqn:E2; [|reflexivity].
      apply key_eqb_eq in E1, E2. subst. congruence.
Qed.

Lemma setdefault_append_grouped : forall pg a groups,
  key_eqb pg pg = true -> grouped groups ->
  grouped (setdefault_append pg a groups).
Proof.
  intros pg a groups Hpg.
  induction groups as [|[k' anns] rest IH]; intros [Hn Hf];
    cbn [setdefault_append].
  - split; [repeat constructor; intros [] |].
    constructor; [|constructor]. split; [exact Hpg | discriminate].
  - inversion Hn as [|x l Hx Hn']; subst. inversion Hf as [|y l' Hy Hf']; subst.
    destruct (key_eqb pg k') eqn:E.
    + split; [exact Hn|]. constructor; [|exact Hf'].
      split; [apply Hy|]. cbn [snd]. intro N. apply app_eq_nil in N.
      destruct N as [_ N]. discriminate N.
    + destruct (IH (conj Hn' Hf')) as [Hn2 Hf2].
      split; [|constructor; assumption].
      cbn [map fst]. constructor; [|exact Hn2].
      intro Hin. apply Hx. clear - Hin E Hpg.
      induction rest as [|[k2 anns2] rest IH]; cbn [setdefault_append] in Hin.
      * destruct Hin as [Hin|[]]. cbn [fst] in Hin. subst. congruence.
      * destruct (key_eqb pg k2); [exact Hin|].
        destruct Hin as [Hin|Hin]; [left; exact Hin | right; exact (IH Hin)].
Qed.

Lemma group_of_In : forall groups k anns,
  NoDup (map fst groups) -> key_eqb k k = true ->
  In (k, anns) groups -> group_of k groups = anns.
Proof.
  induction groups as [|[k' anns'] rest IH]; intros k anns Hn Hk Hin;
    [destruct Hin|].
  inversion Hn as [|x l Hx Hn']; subst. cbn [group_of].
  destruct Hin as [Hin|Hin].
  - injection Hin as -> ->. rewrite Hk. reflexivity.
  - destruct (key_eqb k k') eqn:E.
    + apply key_eqb_eq in E. subst k'. exfalso. apply Hx.
      apply (in_map fst) in Hin. exact Hin.
    + exact (IH _ _ Hn' Hk Hin).
Qed.

Lemma In_group_of : forall groups k,
  group_of k groups <> [] -> In (k, group_of k groups) groups.
Proof.
  induction groups as [|[k' anns'] rest IH]; intros k H; cbn [group_of] in *;
    [congruence|].
  destruct (key_eqb k k') eqn:E.
  - apply key_eqb_eq in E. subst k'. left. reflexivity.
  - right. exact (IH _ H).
Qed.

Lemma group_by_page_grouped : forall ds acc groups,
  group_by_page (map PDict ds) acc = Some (Ok groups) ->
  grouped acc ->
  grouped groups
  /\ (forall d, In d ds -> exists k, key_of d = Some k)
  /\ forall k, group_of k groups = group_of k acc ++ filter (tagged k) ds.
Proof.
  induction ds as [|d rest IH]; intros acc groups H Hacc;
    cbn [map group_by_page] in H.
  - injection H as <-. split; [exact Hacc|].
    split; [intros d []|]. intro k. cbn [filter]. rewrite app_nil_r. reflexivity.
  - destruct (page_key (dict_get_default (lit "page") (PInt 0) d))
      as [[pg|e]|] eqn:K; try discriminate H.
    pose proof (page_key_refl _ _ K) as Hpg.
    destruct (IH _ _ H (setdefault_append_grouped pg d acc Hpg Hacc))
      as [Hg [Hk Hof]].
    split; [exact Hg|]. split.
    + intros d' [<-|Hin]; [|exact (Hk _ Hin)].
      exists pg. unfold key_of. rewrite K. reflexivity.
    + intro k. rewrite Hof, group_of_setdefault_append by exact Hpg.
      cbn [filter]. unfold tagged at 2, key_of. rewrite K.
      destruct (key_eqb k pg) eqn:E1, (key_eqb pg k) eqn:E2;
        try (rewrite <- app_assoc; reflexivity); try reflexivity.
      * apply key_eqb_eq in E1. subst. congruence.
      * apply key_eqb_eq in E2. subst. congruence.
Qed.

(** The grouping loop of [build_pdf] sorts the records by their page
    tag: the keys of the groups are pairwise different, the group of a
    key holds exactly the records with that tag, in the order they were
    given, and is not empty; every record is in a group. *)
Theorem records_are_grouped_by_page_tag : forall ds groups,
  group_by_page (map PDict ds) [] = Some (Ok groups) ->
  NoDup (map fst groups)
  /\ (forall k anns, In (k, anns) groups ->
        anns <> [] /\ anns = filter (tagged k) ds)
  /\ forall d, In d ds -> exists k anns, In (k, anns) groups /\ In d anns.
Proof.
  intros ds groups H.
  destruct (group_by_page_grouped ds [] groups H) as [[Hn Hf] [Hk Hof]].
  { split; constructor. }
  split; [exact Hn|]. split.
  - intros k anns Hin. rewrite Forall_forall in Hf.
    destruct (Hf _ Hin) as [Hkk Hne]. split; [exact Hne|].
    rewrite <- (group_of_In _ _ _ Hn Hkk Hin). apply Hof.
  - intros d Hd. destruct (Hk d Hd) as [k Hkey].
    exists k, (group_of k groups).
    assert (In d (group_of k groups)) as Hin.
    { rewrite Hof. cbn [group_of app]. apply filter_In. split; [exact Hd|].
      unfold tagged. rewrite Hkey. unfold key_of in Hkey.
      destruct (page_key _) as [[pg|]|] eqn:K; try discriminate Hkey.
      injection Hkey as ->. exact (page_key_refl _ _ K). }
    split; [|exact Hin]. apply In_group_of. intro N. rewrite N in Hin.
    destruct Hin.
Qed.

(** Two notes of page 1 around one of page 2, and one without a tag. *)
Lemma notes_of_two_pages_are_grouped :
  NoDup (map fst [(PInt 1, [hello_note; thou_art_note]);
                  (PInt 2, [[(lit "page", PInt 2)]]);
                  (PInt 0, [broken_note])])
  /\ (forall k anns,
        In (k, anns) [(PInt 1, [hello_note; thou_art_note]);
                      (PInt 2, [[(lit "page", PInt 2)]]);
                      (PInt 0, [broken_note])] ->
        anns <> []
        /\ anns = filter (tagged k)
                    [hello_note; [(lit "page", PInt 2)]; broken_note; thou_art_note])
  /\ forall d,
       In d [hello_note; [(lit "page", PInt 2)]; broken_note; thou_art_note] ->
       exists k anns,
         In (k, anns) [(PInt 1, [hello_note; thou_art_note]);
                       (PInt 2, [[(lit "page", PInt 2)]]);
                       (PInt 0, [broken_note])]
         /\ In d anns.
Proof.
  apply (records_are_grouped_by_page_tag
           [hello_note; [(lit "page", PInt 2)]; broken_note; thou_art_note]).
  vm_compute. reflexivity.
Defined.

(** ** Records that have been cleaned *)

Lemma lstrip_idempotent : forall s, lstrip (lstrip s) = lstrip s.
Proof.
  intro s. destruct (lstrip s) as [|c t] eqn:E; [reflexivity|].
  apply lstrip_head in E. simpl. rewrite E. reflexivity.
Qed.

Lemma rstrip_idempotent : forall s, rstrip (rstrip s) = rstrip s.
Proof.
  intro s. unfold rstrip. rewrite rev_involutive, lstrip_idempotent.
  reflexivity.
Qed.

Lemma lstrip_last : forall a c,
  lstrip (a ++ [c]) = [] \/ exists a', lstrip (a ++ [c]) = a' ++ [c].
Proof.
  induction a as [|x a IH]; intro c; simpl.
  - destruct (isspace c); [left; reflexivity | right; exists []; reflexivity].
  - destruct (isspace x); [apply IH | right; exists (x :: a); reflexivity].
Qed.

Lemma rstrip_head : forall c t,
  rstrip (c :: t) = [] \/ exists t', rstrip (c :: t) = c :: t'.
Proof.
  intros c t. unfold rstrip. cbn [rev].
  destruct (lstrip_last (rev t) c) as [-> | [a' ->]].
  - left. reflexivity.
  - right. exists (rev a'). rewrite rev_app_distr. reflexivity.
Qed.

Lemma strip_idempotent : forall s, strip (strip s) = strip s.
Proof.
  intro s. unfold strip at 1.
  assert (lstrip (strip s) = strip s) as ->.
  { unfold strip. destruct (lstrip s) as [|c t] eqn:E; [reflexivity|].
    apply lstrip_head in E.
    destruct (rstrip_head c t) as [-> | [t' ->]]; [reflexivity|].
    simpl. rewrite E. reflexivity. }
  unfold strip. apply rstrip_idempotent.
Qed.

Lemma replace_absent : forall a b s, ~ In a s -> replace a b s = s.
Proof.
  intros a b s. unfold replace. induction s as [|c s IH]; intro H;
    [reflexivity|].
  cbn [map]. rewrite IH by (intro K; apply H; right; exact K).
  unfold ch_eqb. destruct (N.eqb c a) eqn:E; [|reflexivity].
  apply N.eqb_eq in E. exfalso. apply H. left. exact E.
Qed.

Lemma flattened_twice : forall s,
  strip (replace nl (ch " ") (strip (replace nl (ch " ") s)))
  = strip (replace nl (ch " ") s).
Proof.
  intro s. rewrite (replace_absent nl (ch " ") (strip _)).
  - apply strip_idempotent.
  - apply flattened_has_no_newline.
Qed.

Lemma valid_type_is_kept : forall rt t,
  In t valid -> strip (lower rt t) = t /\ in_valid t = true.
Proof.
  intros rt t H. unfold valid in H. cbn [In] in H.
  repeat (destruct H as [<- | H]; [split; reflexivity|]). destruct H.
Qed.

Lemma annotation_dict_fields : forall a default1 default2 default3,
  dict_get_default (lit "type") default1 (annotation_dict a) = PStr (a_type a)
  /\ dict_get_default (lit "quote") default2 (annotation_dict a) = PStr (a_quote a)
  /\ dict_get_default (lit "annotation") default3 (annotation_dict a)
     = PStr (a_annotation a)
  /\ dict_get (lit "themes") (annotation_dict a)
     = Some (PList (map PStr (a_themes a))).
Proof. intros. repeat split. Qed.

Lemma clean_item_twice : forall rt d,
  clean_item rt (annotation_dict (clean_item rt d)) = clean_item rt d.
Proof.
  intros rt d.
  destruct (clean_item_well_formed rt d) as [Ht _].
  destruct (valid_type_is_kept rt _ Ht) as [Hl Hv].
  destruct (annotation_dict_fields (clean_item rt d) (PStr (lit "notation"))
              (PStr []) (PStr [])) as [F1 [F2 [F3 F4]]].
  unfold clean_item at 1. rewrite F1, F2, F3, F4.
  cbn [py_str]. rewrite Hl, Hv, map_map. cbn [py_str]. rewrite map_id.
  unfold clean_item at 2 3. cbn [a_quote a_annotation].
  rewrite !flattened_twice.
  reflexivity.
Qed.

(** Cleaning what [_clean] has built changes nothing: a record it
    returns, given back to it as the dict it appended, comes out as it
    is. *)
Theorem clean_is_idempotent : forall rt raw_list,
  _clean rt (map (fun a => PDict (annotation_dict a)) (_clean rt raw_list))
  = _clean rt raw_list.
Proof.
  intros rt raw_list.
  induction raw_list as [|item rest IH]; [reflexivity|].
  destruct item; cbn [_clean map]; try exact IH.
  rewrite clean_item_twice, IH. reflexivity.
Qed.

Lemma valid_types_are_styled : forall t (fallback : rgb) (other : str),
  In t valid ->
  In (t, lookup t _ACCENT fallback) _ACCENT
  /\ In (t, lookup t _FILL fallback) _FILL
  /\ In (t, lookup t _LABEL other) _LABEL.
Proof.
  intros t fallback other H. unfold valid in H. cbn [In] in H.
  repeat (destruct H as [<- | H]; [repeat split; simpl; auto 10|]).
  destruct H.
Qed.

(** The type [_clean] gives to a record always has an accent, a fill
    and a label of its own in the tables of the renderer: for a cleaned
    record the renderer never falls back on its default colours or on
    the label [ANN]. *)
Theorem cleaned_types_are_styled : forall rt item (fallback : rgb) (other : str),
  In (a_type (clean_item rt item),
      lookup (a_type (clean_item rt item)) _ACCENT fallback) _ACCENT
  /\ In (a_type (clean_item rt item),
         lookup (a_type (clean_item rt item)) _FILL fallback) _FILL
  /\ In (a_type (clean_item rt item),
         lookup (a_type (clean_item rt item)) _LABEL other) _LABEL.
Proof.
  intros rt item fallback other.
  destruct (clean_item_well_formed rt item) as [Ht _].
  exact (valid_types_are_styled _ fallback other Ht).
Qed.

(** ** From the stream to the drawing *)

Section ComposeProperties.

Variable rt : runtime.






End ComposeProperties.




(** A page on which the search fails for the quote: the render call
    fails with what the search raised. *)
Example failed_search_fails_the_render :
  _render_pdf example_runtime 0
    (Ok [{| width := 612; height := 792;
            search_for := fun _ => Raise (OtherException (lit "no encoding")) |}])
    [(PInt 1, [thou_art_note])]
  = Raise (OtherException (lit "no encoding")).
Proof. vm_compute. reflexivity. Qed.

(** ** What strategy 6 recovers *)

(** When no text of strategies 1 to 5 parses, [_repair_json] raises the
    repair failure or returns what the fragments gave: a list that is
    not empty and holds objects only, so that [_clean] makes a record of
    every item of it. *)
Theorem recovered_fragments_are_objects : forall rt raw,
  Json.loads raw = None ->
  first_parse (candidates rt (array_chunk raw)) = None ->
  _repair_json rt raw = Raise (repair_failed rt raw)
  \/ exists items,
       _repair_json rt raw = Ok (PList items)
       /\ items <> []
       /\ Forall (fun v => is_dict v = true) items
       /\ List.length (_clean rt items) = List.length items.
Proof.
  intros rt raw H1 H2. unfold _repair_json. rewrite H1, H2. cbv zeta.
  pose proof (parse_objects_dicts
                (Re.findall_objects None (array_chunk raw)) []
                (findall_objects_open _ _) (Forall_nil _)) as D.
  destruct (parse_objects _ _) as [|v parsed]; [left; reflexivity|].
  right. exists (v :: parsed). split; [reflexivity|].
  split; [discriminate|]. split; [exact D|].
  apply clean_keeps_dicts. exact D.
Qed.

(** At an object between words. *)
Lemma prose_reply_is_recovered :
  _repair_json example_runtime prose_reply
  = Raise (repair_failed example_runtime prose_reply)
  \/ exists items,
       _repair_json example_runtime prose_reply = Ok (PList items)
       /\ items <> []
       /\ Forall (fun v => is_dict v = true) items
       /\ List.length (_clean example_runtime items) = List.length items.
Proof.
  apply (recovered_fragments_are_objects example_runtime prose_reply).
  - vm_compute. reflexivity.
  - vm_compute. reflexivity.
Defined.

(** ** The lines of the stream *)

Section FrameProperties.

Variable rt : runtime.

Lemma ascii_app : forall a b : str,
  ascii_line a -> ascii_line b -> ascii_line (a ++ b).
Proof.
  unfold ascii_line. intros a b Ha Hb. rewrite forallb_app, Ha, Hb.
  reflexivity.
Qed.

Lemma ascii_join : forall (sep : str) parts,
  ascii_line sep -> Forall ascii_line parts -> ascii_line (join sep parts).
Proof.
  intros sep parts Hs H. induction H as [|p rest Hp Hrest IH]; [reflexivity|].
  cbn [join]. destruct rest as [|q rest]; [exact Hp|].
  apply ascii_app; [exact Hp|]. apply ascii_app; [exact Hs | exact IH].
Qed.

Lemma hex_char_printable : forall d, (d < 16)%N -> printable (JsonDump.hex_char d) = true.
Proof.
  intros d H. unfold JsonDump.hex_char, printable.
  destruct (d <? 10)%N; apply andb_true_iff; split; apply N.leb_le; lia.
Qed.

Lemma u_escape_printable : forall n, ascii_line (JsonDump.u_escape n).
Proof.
  intro n. unfold ascii_line, JsonDump.u_escape. cbn [forallb].
  rewrite !hex_char_printable by (apply N.mod_lt; discriminate).
  reflexivity.
Qed.

Lemma escape_char_printable : forall c, ascii_line (JsonDump.escape_char c).
Proof.
  intro c. unfold JsonDump.escape_char.
  repeat (match goal with
          | |- context [if ch_eqb c ?x then _ else _] =>
              destruct (ch_eqb c x); [reflexivity|]
          end).
  destruct ((32 <=? c)%N && (c <=? 126)%N) eqn:E.
  - unfold ascii_line. cbn [forallb]. unfold printable. rewrite E. reflexivity.
  - destruct (c <? 65536)%N; [apply u_escape_printable|].
    apply ascii_app; apply u_escape_printable.
Qed.

Lemma encode_str_printable : forall s, ascii_line (JsonDump.encode_str s).
Proof.
  intro s. unfold JsonDump.encode_str.
  change (dquote :: flat_map JsonDump.escape_char s ++ [dquote])
    with ([dquote] ++ flat_map JsonDump.escape_char s ++ [dquote]).
  apply ascii_app; [reflexivity|]. apply ascii_app; [|reflexivity].
  induction s as [|c s IH]; [reflexivity|].
  cbn [flat_map]. apply ascii_app; [apply escape_char_printable | exact IH].
Qed.

Lemma string_of_uint_printable : forall d,
  ascii_line (map N_of_ascii (list_ascii_of_string (NilEmpty.string_of_uint d))).
Proof. unfold ascii_line. induction d; simpl; auto. Qed.

Lemma str_of_Z_printable : forall z, ascii_line (str_of_Z z).
Proof.
  intro z. unfold str_of_Z.
  destruct (Z.to_int z) as [d|d]; simpl; apply string_of_uint_printable.
Qed.

Lemma dumps_strings_printable : forall items,
  ascii_line (JsonDump.dumps rt (PList (map PStr items))).
Proof.
  intro items. cbn [JsonDump.dumps].
  apply ascii_app; [reflexivity|]. apply ascii_app; [|reflexivity].
  apply ascii_join; [reflexivity|].
  rewrite map_map. apply Forall_forall. intros x Hx.
  apply in_map_iff in Hx. destruct Hx as [s [<- _]].
  apply encode_str_printable.
Qed.

End FrameProperties.

(** Every string the generator yields is one line of the stream: the
    prefix [data: ], then a body of printable ASCII characters only, so
    without a line feed or a carriage return whatever the texts of the
    event hold, then the two line feeds that end it. *)
Theorem frames_are_single_lines : forall rt e,
  exists body,
    frame rt e = lit "data: " ++ body ++ [nl; nl]
    /\ forallb printable body = true.
Proof.
  intros rt e. unfold frame, _sse.
  destruct e as [pct label | page | page data | message | ];
    cbn [payload]; eexists; (split; [reflexivity|]);
    try reflexivity; unfold annotation_dict;
    cbn [JsonDump.dumps map join];
    repeat first
      [ apply encode_str_printable
      | apply str_of_Z_printable
      | apply dumps_strings_printable
      | apply ascii_app
      | reflexivity ].
Qed.

(** An error message of two lines with an accented letter, and the
    line written for it. *)
Example error_frame :
  (fun rt => frame rt (EvError (lit "caf" ++ [233%N; nl] ++ lit "~x~")))
  = (fun _ => lit "data: {~type~: ~error~, ~message~: ~caf\u00e9\n\~x\~~}"
              ++ [nl; nl]).
Proof. vm_compute. reflexivity. Qed.

(** ** The escaping of the page's script *)

Lemma replace_all_app : forall c text a b,
  replace_all c text (a ++ b) = replace_all c text a ++ replace_all c text b.
Proof. intros. unfold replace_all. apply flat_map_app. Qed.

Lemma replace_all_flat_map : forall c text (f : char -> str) s,
  replace_all c text (flat_map f s)
  = flat_map (fun x => replace_all c text (f x)) s.
Proof.
  intros c text f s. induction s as [|x s IH]; [reflexivity|].
  cbn [flat_map]. rewrite replace_all_app, IH. reflexivity.
Qed.

Lemma esc_by_character : forall s, esc s = flat_map entity s.
Proof.
  intro s. unfold esc. unfold replace_all at 4.
  rewrite !replace_all_flat_map. apply flat_map_ext. intro c.
  unfold entity, ch_eqb.
  destruct (N.eqb_spec c (ch "&")) as [->|H1]; [reflexivity|].
  destruct (N.eqb_spec c (ch "<")) as [->|H2]; [reflexivity|].
  destruct (N.eqb_spec c (ch ">")) as [->|H3]; [reflexivity|].
  destruct (N.eqb_spec c dquote) as [->|H4]; [reflexivity|].
  unfold replace_all, ch_eqb. cbn [flat_map app].
  apply N.eqb_neq in H2, H3, H4.
  rewrite H2. cbn [flat_map app]. rewrite H3. cbn [flat_map app].
  rewrite H4. reflexivity.
Qed.

Lemma entity_cases : forall c,
  (c = ch "&" /\ entity c = lit "&amp;")
  \/ (c = ch "<" /\ entity c = lit "&lt;")
  \/ (c = ch ">" /\ entity c = lit "&gt;")
  \/ (c = dquote /\ entity c = lit "&quot;")
  \/ (c <> ch "&" /\ c <> ch "<" /\ c <> ch ">" /\ c <> dquote /\ entity c = [c]).
Proof.
  intro c. unfold entity, ch_eqb.
  destruct (N.eqb_spec c (ch "&")) as [->|H1]; [left; auto|].
  destruct (N.eqb_spec c (ch "<")) as [->|H2]; [right; left; auto|].
  destruct (N.eqb_spec c (ch ">")) as [->|H3]; [right; right; left; auto|].
  destruct (N.eqb_spec c dquote) as [->|H4]; [right; right; right; left; auto|].
  right. right. right. right. auto.
Qed.

Lemma entity_injective : forall c d x y,
  entity c ++ x = entity d ++ y -> c = d /\ x = y.
Proof.
  intros c d x y H.
  destruct (entity_cases c) as [[-> Ec]|[[-> Ec]|[[-> Ec]|[[-> Ec]|[C1 [C2 [C3 [C4 Ec]]]]]]]];
    destruct (entity_cases d) as [[-> Ed]|[[-> Ed]|[[-> Ed]|[[-> Ed]|[D1 [D2 [D3 [D4 Ed]]]]]]]];
    rewrite ?Ec, ?Ed in H; try discriminate H;
    try (split; [reflexivity|]; injection H as H; exact H);
    cbv in H; injection H as H0 H1;
    first
      [ split; [exact H0 | exact H1]
      | exfalso;
        first [ apply D1; symmetry; exact H0 | apply D2; symmetry; exact H0
              | apply D3; symmetry; exact H0 | apply D4; symmetry; exact H0
              | apply C1; exact H0 | apply C2; exact H0
              | apply C3; exact H0 | apply C4; exact H0 ] ].
Qed.

(** What [esc] returns holds no angle bracket and no double quote, so
    it cannot open or close a tag or end an attribute value; and two
    different texts are never shown as the same markup: the entities
    keep apart what they stand for. *)
Theorem esc_is_safe_and_faithful : forall s,
  ~ In (ch "<") (esc s) /\ ~ In (ch ">") (esc s) /\ ~ In dquote (esc s)
  /\ forall t, esc s = esc t -> s = t.
Proof.
  intro s.
  assert (forall x, In x (esc s) ->
            x <> ch "<" /\ x <> ch ">" /\ x <> dquote) as K.
  { intros x H. rewrite esc_by_character in H. apply in_flat_map in H.
    destruct H as [c [_ H]].
    destruct (entity_cases c) as [[-> E]|[[-> E]|[[-> E]|[[-> E]|[C1 [C2 [C3 [C4 E]]]]]]]];
      rewrite E in H; cbv in H;
      try (repeat (destruct H as [<-|H];
                   [repeat split; intro K; cbv in K; discriminate K|]);
           destruct H; fail).
    destruct H as [<-|[]]. auto. }
  split; [intro H; apply K in H; tauto|].
  split; [intro H; apply K in H; tauto|].
  split; [intro H; apply K in H; tauto|].
  clear K. intro t. rewrite !esc_by_character. revert t.
  induction s as [|c s IH]; intros [|d t] H; cbn [flat_map] in H.
  - reflexivity.
  - exfalso. destruct (entity_cases d) as [[_ E]|[[_ E]|[[_ E]|[[_ E]|[_ [_ [_ [_ E]]]]]]]];
      rewrite E in H; discriminate H.
  - exfalso. destruct (entity_cases c) as [[_ E]|[[_ E]|[[_ E]|[[_ E]|[_ [_ [_ [_ E]]]]]]]];
      rewrite E in H; discriminate H.
  - apply entity_injective in H. destruct H as [-> H].
    rewrite (IH _ H). reflexivity.
Qed.

(** A tag with an attribute, and an entity written out. *)
Example esc_of_markup :
  esc (lit "<b class=~x~>&amp;</b>")
  = lit "&lt;b class=&quot;x&quot;&gt;&amp;amp;&lt;/b&gt;".
Proof. vm_compute. reflexivity. Qed.
